(** * CoPaw agent glue: slash commands, memory compaction hook, token counting

    A shallow embedding of

    - [src/copaw/agents/utils/token_counting.py],
    - [src/copaw/agents/hooks/memory_compaction.py],
    - [src/copaw/agents/command_handler.py],

    followed by the properties of these three modules.

    Python objects are embedded as follows.  A [str] is a [string] whose
    characters are the code points below 256; an [int] is a [Z]; a [dict]
    with string keys is an association list in insertion order; a value of
    unknown dynamic type is a [pyval].  Code that mutates the agent's memory,
    the memory manager or the module-level token counter is written in a
    state-and-exception monad [M] over a [World]; unlike a transactional
    monad, the state reached when an exception is raised is kept, as in
    Python.  A handler [except Exception] catches the exceptions whose class
    derives from [Exception] and lets the others through, among them the
    [asyncio.CancelledError] that an [await] raises when the task is
    cancelled; the signals that can interrupt any line of a program
    ([KeyboardInterrupt], [SystemExit]) are not modelled.  The messages of
    the memory are distinct objects, and the messages that the memory hands
    out are the stored ones: a mutation of a message that was read is a
    mutation of the store.

    The host framework (memory store, formatter, tokenizer), the memory
    manager and the helpers that the three modules import are not part of
    the sources: the memory store is given a concrete state, everything
    else is a parameter that may return or raise. *)

From Stdlib Require Import ZArith String Ascii List Lia Bool.
From stdpp Require Import base list gmap strings pretty.
Import ListNotations.
Open Scope Z_scope.

(** ** Python strings *)

Module PyString.

Definition nl : string := String (ascii_of_nat 10) EmptyString.
Definition dquote : string := String (ascii_of_nat 34) EmptyString.

(** [str.isspace] on one character, for the code points below 256:
    TAB..CR, FS..US, SPACE, NEL and NBSP. *)
Definition isspace (c : ascii) : bool :=
  let n := N_of_ascii c in
  ((9 <=? n) && (n <=? 13) || (28 <=? n) && (n <=? 32)
   || (n =? 133) || (n =? 160))%N.

Fixpoint lstrip_by (p : ascii -> bool) (s : string) : string :=
  match s with
  | EmptyString => EmptyString
  | String c rest => if p c then lstrip_by p rest else s
  end.

Fixpoint rstrip_by (p : ascii -> bool) (s : string) : string :=
  match s with
  | EmptyString => EmptyString
  | String c rest =>
      match rstrip_by p rest with
      | EmptyString => if p c then EmptyString else String c EmptyString
      | r => String c r
      end
  end.

(** [s.strip()]. *)
Definition strip (s : string) : string :=
  rstrip_by isspace (lstrip_by isspace s).

Definition char_in (chars : string) (c : ascii) : bool :=
  existsb (Ascii.eqb c) (list_ascii_of_string chars).

(** [s.lstrip(chars)]. *)
Definition lstrip (chars s : string) : string :=
  lstrip_by (char_in chars) s.

(** [s.startswith(p)]. *)
Definition startswith (s p : string) : bool := String.prefix p s.

(** [sep.join(parts)]. *)
Definition join (sep : string) (parts : list string) : string :=
  String.concat sep parts.

(** [str(n)] for an [int]. *)
Definition str_of_int (n : Z) : string := pretty n.

(** [len(s)]. *)
Definition len (s : string) : Z := Z.of_nat (String.length s).

(** [s[:n]] for a literal [n >= 0]. *)
Definition prefix_slice (n : nat) (s : string) : string :=
  String.substring 0 n s.

End PyString.
Import PyString.

(** ** Python lists: indexing and slicing with negative indices *)

Module PyList.
Section Slicing.
Context {A : Type}.

(** The bound of a slice: a negative index counts from the end, and the
    result is clamped to [0 .. len(l)]. *)
Definition slice_bound (l : list A) (i : Z) : nat :=
  let n := Z.of_nat (length l) in
  let j := if i <? 0 then i + n else i in
  Z.to_nat (Z.max 0 (Z.min j n)).

(** [l[i:]]. *)
Definition slice_from (l : list A) (i : Z) : list A :=
  drop (slice_bound l i) l.

(** [l[:i]]. *)
Definition slice_to (l : list A) (i : Z) : list A :=
  take (slice_bound l i) l.

(** [l[-1]]: [None] stands for [IndexError]. *)
Definition last_item (l : list A) : option A := last l.
End Slicing.
End PyList.
Import PyList.

(** ** Dynamically typed values *)

#[local] Set Warnings "-register-all".

Inductive pyval : Type :=
| PyNone
| PyBool (b : bool)
| PyInt (z : Z)
| PyStr (s : string)
| PyList (l : list pyval)
| PyDict (d : list (string * pyval)).

Definition dict : Type := list (string * pyval).

Module PyVal.

(** [bool(v)]. *)
Definition truthy (v : pyval) : bool :=
  match v with
  | PyNone => false
  | PyBool b => b
  | PyInt z => negb (z =? 0)
  | PyStr s => negb (String.eqb s EmptyString)
  | PyList l => match l with [] => false | _ => true end
  | PyDict d => match d with [] => false | _ => true end
  end.

(** [type(v).__name__]. *)
Definition type_name (v : pyval) : string :=
  match v with
  | PyNone => "NoneType"
  | PyBool _ => "bool"
  | PyInt _ => "int"
  | PyStr _ => "str"
  | PyList _ => "list"
  | PyDict _ => "dict"
  end.

(** [d.get(k)], as an option. *)
Fixpoint lookup (d : dict) (k : string) : option pyval :=
  match d with
  | [] => None
  | (k', v) :: rest => if String.eqb k' k then Some v else lookup rest k
  end.

(** [d.get(k, default)]. *)
Definition get (d : dict) (k : string) (default : pyval) : pyval :=
  match lookup d k with Some v => v | None => default end.

(** [d[k] = v]: an existing key keeps its place, a new key goes last. *)
Fixpoint set (d : dict) (k : string) (v : pyval) : dict :=
  match d with
  | [] => [(k, v)]
  | (k', v') :: rest =>
      if String.eqb k' k then (k', v) :: rest else (k', v') :: set rest k v
  end.

(** [a or b]. *)
Definition or_else (a b : pyval) : pyval := if truthy a then a else b.

(** [v == s] for a string literal [s]. *)
Definition eq_str (v : pyval) (s : string) : bool :=
  match v with PyStr s' => String.eqb s' s | _ => false end.

End PyVal.

(** ** Messages and the memory store of the host framework *)

(** [agentscope.agent._react_agent._MemoryMark]. *)
Inductive _MemoryMark : Set := HINT | COMPRESSED.

#[global] Instance _MemoryMark_eq_dec : EqDecision _MemoryMark.
Proof. solve_decision. Defined.

(** The content of a [Msg] is a [str] or a list of content blocks; the
    constructor of [Msg] refuses anything else.  A block is a [dict] in
    well-formed messages, but the code reads blocks defensively, so blocks
    are kept dynamically typed. *)
Inductive MsgContent : Type :=
| ContentStr (s : string)
| ContentBlocks (blocks : list pyval).

Record Msg : Type := mkMsg {
  msg_id : string;
  msg_name : string;
  msg_role : string;
  msg_content : MsgContent
}.

(** Modelled from the spec: the memory store ([memory]) belongs to the host
    framework and is absent from the sources.  Its state is the list
    [content] of messages, each with its marks, and the compressed summary;
    the operations have the meaning their names and call sites state.  The
    store is in memory: its coroutines run to their end without suspending,
    so that awaiting them neither fails nor is a point where the task can be
    cancelled. *)
Record Memory : Type := mkMemory {
  content : list (Msg * list _MemoryMark);
  _compressed_summary : string
}.

Module MemoryOps.

Definition has_mark (mark : _MemoryMark) (marks : list _MemoryMark) : bool :=
  bool_decide (mark ∈ marks).

(** [memory.get_memory(exclude_mark=mark, prepend_summary=False)]: the
    messages that do not carry [mark], in the order of the store. *)
Definition get_memory (exclude_mark : _MemoryMark) (m : Memory) : list Msg :=
  map fst (List.filter (fun e => negb (has_mark exclude_mark (snd e))) (content m)).

(** [memory.get_compressed_summary()]. *)
Definition get_compressed_summary (m : Memory) : string :=
  _compressed_summary m.

(** [memory.update_compressed_summary(summary)]. *)
Definition update_compressed_summary (summary : string) (m : Memory) : Memory :=
  {| content := content m; _compressed_summary := summary |}.

Definition id_in (ids : list string) (msg : Msg) : bool :=
  existsb (String.eqb (msg_id msg)) ids.

Definition mark_entry (new_mark : _MemoryMark) (ids : list string)
    (e : Msg * list _MemoryMark) : Msg * list _MemoryMark :=
  if id_in ids (fst e) && negb (has_mark new_mark (snd e))
  then (fst e, snd e ++ [new_mark]) else e.

(** [memory.update_messages_mark(new_mark=mark, msg_ids=ids)]: every stored
    message whose id is listed gets the mark; the result counts the
    messages that were newly marked. *)
Definition update_messages_mark (new_mark : _MemoryMark) (ids : list string)
    (m : Memory) : Memory * Z :=
  ({| content := map (mark_entry new_mark ids) (content m);
      _compressed_summary := _compressed_summary m |},
   Z.of_nat (length (List.filter
     (fun e => id_in ids (fst e) && negb (has_mark new_mark (snd e)))
     (content m)))).

(** [memory.content.clear()]. *)
Definition clear_content (m : Memory) : Memory :=
  {| content := []; _compressed_summary := _compressed_summary m |}.

End MemoryOps.

(** ** Exceptions and results *)

(** An exception: its class and [str(e)]. *)
Record exn : Type := mkExn { exn_class : string; exn_text : string }.

Definition IndexError := mkExn "IndexError".
Definition AttributeError := mkExn "AttributeError".
Definition TypeError := mkExn "TypeError".
Definition KeyError := mkExn "KeyError".
Definition RuntimeError := mkExn "RuntimeError".
Definition ZeroDivisionError := mkExn "ZeroDivisionError".

(** [asyncio.CancelledError]: what an [await] raises in a task that is
    cancelled.  It derives from [BaseException], not from [Exception]. *)
Definition CancelledError := mkExn "CancelledError".

(** The classes of the interpreter and its library that do not derive from
    [Exception]; every other class name stands for a class that does. *)
Definition BaseException_only : list string :=
  ["BaseException"; "CancelledError"; "KeyboardInterrupt"; "SystemExit";
   "GeneratorExit"].

(** [isinstance(e, Exception)]: what [except Exception] catches. *)
Definition is_Exception (e : exn) : bool :=
  negb (existsb (String.eqb (exn_class e)) BaseException_only).

Inductive result (A : Type) : Type :=
| Ok (a : A)
| Raise (e : exn).
Arguments Ok {A} a.
Arguments Raise {A} e.

(** ** The components the code is written against *)

(** [agentscope.token.HuggingFaceTokenCounter] and the tokenizer it wraps.
    Loading a tokenizer or encoding a text may raise.  Both are plain calls,
    not awaited: they are no cancellation points, and what they raise
    derives from [Exception]. *)
Class Tokenizers (TokenCounter : Type) : Type := {
  (** [HuggingFaceTokenCounter(pretrained_model_name_or_path=path, ...)]. *)
  HuggingFaceTokenCounter : string -> result TokenCounter;
  (** [token_counter.tokenizer.encode(text)]. *)
  tokenizer_encode : TokenCounter -> pyval -> result (list Z);
  (** [str(Path(__file__).parent.parent.parent / "tokenizer")]. *)
  local_tokenizer_path : string;
  (** Whether that directory and its [tokenizer.json] exist. *)
  local_tokenizer_exists : bool;
  HuggingFaceTokenCounter_Exception :
    forall path e,
      HuggingFaceTokenCounter path = Raise e -> is_Exception e = true;
  tokenizer_encode_Exception :
    forall token_counter text e,
      tokenizer_encode token_counter text = Raise e -> is_Exception e = true
}.

(** [agent.formatter]: [format(msgs=...)] yields the prompt, a list of
    message dictionaries, or raises.  The call is awaited: it may raise
    [CancelledError]. *)
Class Formatter : Type := {
  formatter_format : list Msg -> result (list dict)
}.

(** [MemoryManager] ([..memory], absent from the sources), a black box with a
    state of its own.  Every operation may raise and may change that state;
    [compact_memory] and [await_summary_tasks] are awaited and may raise
    [CancelledError]. *)
Class MemoryManagerOps (MemoryManager : Type) : Type := {
  add_async_summary_task :
    list Msg -> MemoryManager -> MemoryManager * result unit;
  compact_memory :
    list Msg -> string -> MemoryManager -> MemoryManager * result string;
  (** [len(memory_manager.summary_tasks)]. *)
  summary_tasks_len : MemoryManager -> Z;
  await_summary_tasks : MemoryManager -> MemoryManager * result string
}.

(** Helpers of the repository that the sources import but do not contain,
    taken as parameters: [..utils.check_valid_messages],
    [..utils.tool_message_utils._truncate_text] and [...config.load_config]
    (of which only [config.agents.running.max_input_length] is read). *)
Class Helpers : Type := {
  check_valid_messages : list Msg -> bool;
  _truncate_text : pyval -> Z -> result pyval;
  load_config_max_input_length : result Z
}.

(** What the code uses of the interpreter and its library and is left
    abstract here. *)
Class Builtins (float : Type) : Type := {
  (** [str(v)] of a value that is not a [str]. *)
  str_of_value : pyval -> string;
  (** [int(s)] of a [str]; it raises [ValueError], which derives from
      [Exception], on a malformed one. *)
  int_of_str : string -> result Z;
  int_of_str_Exception :
    forall s e, int_of_str s = Raise e -> is_Exception e = true;
  (** [os.environ.get(name)]. *)
  environ_get : string -> option string;
  (** [a / b] of two [int]s, for [b] other than zero. *)
  int_truediv : Z -> Z -> float;
  (** [x * n] of a [float] and an [int]. *)
  float_mul_int : float -> Z -> float;
  (** [format(x, ".1f")] of a [float], and of an [int]. *)
  float_format_1f : float -> string;
  int_format_1f : Z -> string;
  (** The id that [Msg(...)] gives to the [n]-th message it creates. *)
  fresh_msg_id : nat -> string
}.

(** ** The world and the monad *)

(** The calls made to the black boxes, in order: a ghost record that the
    properties below read. *)
Inductive Event : Type :=
| EvFormat (msgs : list Msg)
| EvAddAsyncSummaryTask (msgs : list Msg)
| EvCompactMemory (msgs : list Msg) (previous_summary : string)
| EvAwaitSummaryTasks
| EvLogError (e : exn).

Section Agents.

Context {TokenCounter MemoryManager float : Type}.
Context `{!Tokenizers TokenCounter} `{!Formatter}
        `{!MemoryManagerOps MemoryManager} `{!Helpers} `{!Builtins float}.

(** Everything the three modules can change: the agent's [memory], the
    [memory_manager] object ([None] when there is none), the module global
    [_token_counter] of [token_counting.py], and the number of messages
    created so far (it determines the id of the next one). *)
Record World : Type := mkWorld {
  memory : Memory;
  memory_manager : option MemoryManager;
  _token_counter : option TokenCounter;
  msgs_created : nat;
  calls : list Event
}.

Definition M (A : Type) : Type := World -> World * result A.

Definition ret {A} (a : A) : M A := fun w => (w, Ok a).

Definition raise {A} (e : exn) : M A := fun w => (w, Raise e).

Definition bind {A B} (m : M A) (k : A -> M B) : M B :=
  fun w =>
    match m w with
    | (w', Ok a) => k a w'
    | (w', Raise e) => (w', Raise e)
    end.

(** [try: body / except Exception as e: handler e]: an exception that does
    not derive from [Exception] is not caught. *)
Definition try_except {A} (body : M A) (handler : exn -> M A) : M A :=
  fun w =>
    match body w with
    | (w', Ok a) => (w', Ok a)
    | (w', Raise e) => if is_Exception e then handler e w' else (w', Raise e)
    end.

Definition lift {A} (r : result A) : M A := fun w => (w, r).

Definition get_world : M World := fun w => (w, Ok w).

Definition modify (f : World -> World) : M unit := fun w => (f w, Ok tt).

(** Updates of one field of the world. *)
Definition with_memory (m : Memory) (w : World) : World :=
  {| memory := m; memory_manager := memory_manager w;
     _token_counter := _token_counter w; msgs_created := msgs_created w;
     calls := calls w |}.

Definition with_memory_manager (mm : option MemoryManager) (w : World)
    : World :=
  {| memory := memory w; memory_manager := mm;
     _token_counter := _token_counter w; msgs_created := msgs_created w;
     calls := calls w |}.

Definition with_token_counter (tc : option TokenCounter) (w : World) : World :=
  {| memory := memory w; memory_manager := memory_manager w;
     _token_counter := tc; msgs_created := msgs_created w;
     calls := calls w |}.

Definition with_call (e : Event) (w : World) : World :=
  {| memory := memory w; memory_manager := memory_manager w;
     _token_counter := _token_counter w; msgs_created := msgs_created w;
     calls := calls w ++ [e] |}.

Definition with_msg_created (w : World) : World :=
  {| memory := memory w; memory_manager := memory_manager w;
     _token_counter := _token_counter w; msgs_created := S (msgs_created w);
     calls := calls w |}.

Definition emit (e : Event) : M unit := modify (with_call e).

Definition set_memory (m : Memory) : M unit := modify (with_memory m).

Definition set_memory_manager (mm : option MemoryManager) : M unit :=
  modify (with_memory_manager mm).

Definition set_token_counter (tc : option TokenCounter) : M unit :=
  modify (with_token_counter tc).

Notation "'do' x <- m ; k" := (bind m (fun x => k))
  (at level 10, x name, m at level 100, k at level 200).
Notation "'run' m ; k" := (bind m (fun _ => k))
  (at level 10, m at level 100, k at level 200).

(** ** [token_counting.py] *)

(** [_get_token_counter] (lines 15-55): the module global is filled at the
    first successful call; when the constructor raises it stays [None]. *)
Definition _get_token_counter : M TokenCounter :=
  do w <- get_world;
  match _token_counter w with
  | Some token_counter => ret token_counter
  | None =>
      let tokenizer_path :=
        if local_tokenizer_exists then local_tokenizer_path
        else "Qwen/Qwen2.5-7B-Instruct" in
      do token_counter <- lift (HuggingFaceTokenCounter tokenizer_path);
      run set_token_counter (Some token_counter);
      ret token_counter
  end.

(** [str(text)]. *)
Definition py_str (v : pyval) : string :=
  match v with PyStr s => s | _ => str_of_value v end.

(** The parts that one block of a list content adds (lines 79-85). *)
Definition block_parts (block : pyval) : list string :=
  match block with
  | PyDict d =>
      let text :=
        PyVal.or_else (PyVal.get d "text" PyNone)
                      (PyVal.get d "content" (PyStr EmptyString)) in
      if PyVal.truthy text then [py_str text] else []
  | PyStr s => [s]
  | _ => []
  end.

(** The parts that one message adds (lines 74-85). *)
Definition message_parts (msg : dict) : list string :=
  match PyVal.get msg "content" (PyStr EmptyString) with
  | PyStr s => [s]
  | PyList blocks => flat_map block_parts blocks
  | _ => []
  end.

(** [_extract_text_from_messages] (lines 58-86). *)
Definition _extract_text_from_messages (messages : list dict) : string :=
  join nl (flat_map message_parts messages).

(** [count_message_tokens] (lines 89-116). *)
Definition count_message_tokens (messages : list dict) : M Z :=
  do token_counter <- _get_token_counter;
  let text := _extract_text_from_messages messages in
  do token_ids <- lift (tokenizer_encode token_counter (PyStr text));
  ret (Z.of_nat (length token_ids)).

(** [safe_count_message_tokens] (lines 119-145). *)
Definition safe_count_message_tokens (messages : list dict) : M Z :=
  try_except (count_message_tokens messages)
    (fun e =>
       let text := _extract_text_from_messages messages in
       ret (len text / 4)).

(** [len(v)]. *)
Definition py_len (v : pyval) : result Z :=
  match v with
  | PyStr s => Ok (len s)
  | PyList l => Ok (Z.of_nat (length l))
  | PyDict d => Ok (Z.of_nat (length d))
  | _ => Raise (TypeError ("object of type '" +:+ PyVal.type_name v
                           +:+ "' has no len()"))
  end.

(** [safe_count_str_tokens] (lines 148-178).  The parameter is annotated
    [str]; the callers in [command_handler.py] pass what a block holds, so
    the argument is kept dynamically typed.  The [len(text)] of the [try] is
    an argument of [logger.debug] (line 167): it is evaluated, inside the
    [try], whether or not the message is logged. *)
Definition safe_count_str_tokens (text : pyval) : M Z :=
  try_except
    (do token_counter <- _get_token_counter;
     do token_ids <- lift (tokenizer_encode token_counter text);
     let token_count := Z.of_nat (length token_ids) in
     do _length <- lift (py_len text);
     ret token_count)
    (fun e =>
       do n <- lift (py_len text);
       ret (n / 4)).

(** ** [hooks/memory_compaction.py] *)

Definition _DEFAULT_COMPACT_TOOL_RESULT_MAX_LENGTH : Z := 10000.

(** In-place mutation of the elements of a list, one after the other: when
    an element raises, the elements before it stay mutated and the ones
    after it are left as they were. *)
Fixpoint mutate_each {A} (f : A -> A * option exn) (l : list A)
    : list A * option exn :=
  match l with
  | [] => ([], None)
  | x :: rest =>
      match f x with
      | (x', Some e) => (x' :: rest, Some e)
      | (x', None) =>
          let '(rest', r) := mutate_each f rest in (x' :: rest', r)
      end
  end.

(** One item of a list-valued [output] (lines 59-62). *)
Definition truncate_output_item (max_length : Z) (item : pyval)
    : pyval * option exn :=
  match item with
  | PyDict d =>
      if PyVal.eq_str (PyVal.get d "type" PyNone) "text" then
        match _truncate_text (PyVal.get d "text" (PyStr EmptyString))
                             max_length with
        | Ok t => (PyDict (PyVal.set d "text" t), None)
        | Raise e => (item, Some e)
        end
      else (item, None)
  | _ => (item, None)
  end.

(** [block["type"]], as [Msg.get_content_blocks] reads it: a [KeyError] on a
    dictionary without that key, a [TypeError] on an object that is not a
    dictionary (its text is the one of CPython 3.11). *)
Definition subscript_type (block : pyval) : result pyval :=
  match block with
  | PyDict d =>
      match PyVal.lookup d "type" with
      | Some v => Ok v
      | None => Raise (KeyError "'type'")
      end
  | PyStr _ => Raise (TypeError "string indices must be integers, not 'str'")
  | PyList _ =>
      Raise (TypeError "list indices must be integers or slices, not str")
  | _ =>
      Raise (TypeError ("'" +:+ PyVal.type_name block
                        +:+ "' object is not subscriptable"))
  end.

(** [msg.get_content_blocks(block_type)] on a list content (line 50), which
    is [[b for b in blocks if b["type"] == block_type]]: the type of every
    block is read, in order, before any block is handed out, so the call
    raises at the first block that is not a dictionary or that has no type.
    On a string content the call yields no block of type [tool_result]. *)
Fixpoint get_content_blocks (block_type : string) (blocks : list pyval)
    : result (list pyval) :=
  match blocks with
  | [] => Ok []
  | block :: rest =>
      match subscript_type block with
      | Raise e => Raise e
      | Ok ty =>
          match get_content_blocks block_type rest with
          | Raise e => Raise e
          | Ok selected =>
              Ok (if PyVal.eq_str ty block_type then block :: selected
                  else selected)
          end
      end
  end.

(** One content block of a message on which [get_content_blocks] has
    returned (lines 52-62): the block is a dictionary with a type, and it is
    one of the selected blocks when that type is [tool_result]. *)
Definition truncate_block (max_length : Z) (block : pyval)
    : pyval * option exn :=
  match block with
  | PyDict d =>
      if PyVal.eq_str (PyVal.get d "type" PyNone) "tool_result" then
        match PyVal.get d "output" PyNone with
        | PyStr output =>
            match _truncate_text (PyStr output) max_length with
            | Ok t => (PyDict (PyVal.set d "output" t), None)
            | Raise e => (block, Some e)
            end
        | PyList output =>
            let '(output', r) :=
              mutate_each (truncate_output_item max_length) output in
            (PyDict (PyVal.set d "output" (PyList output')), r)
        | _ => (block, None)
        end
      else (block, None)
  | _ => (block, None)
  end.

(** One message (lines 48-62): when [get_content_blocks] raises, no block of
    the message has been touched; otherwise the selected blocks, which are
    blocks of the content itself, are truncated in place, in order: they are
    the blocks on which [truncate_block] acts (lemma
    [get_content_blocks_selected]). *)
Definition truncate_msg (max_length : Z) (msg : Msg) : Msg * option exn :=
  match msg_content msg with
  | ContentStr _ => (msg, None)
  | ContentBlocks blocks =>
      match get_content_blocks "tool_result" blocks with
      | Raise e => (msg, Some e)
      | Ok _tool_result_blocks =>
          let '(blocks', r) :=
            mutate_each (truncate_block max_length) blocks in
          ({| msg_id := msg_id msg; msg_name := msg_name msg;
              msg_role := msg_role msg; msg_content := ContentBlocks blocks' |},
           r)
      end
  end.

(** The default of [max_length] (lines 40-46). *)
Definition default_max_length : result Z :=
  match environ_get "DEFAULT_COMPACT_TOOL_RESULT_MAX_LENGTH" with
  | None => Ok _DEFAULT_COMPACT_TOOL_RESULT_MAX_LENGTH
  | Some s => int_of_str s
  end.

(** [_truncate_tool_result_texts(messages)] (lines 29-62): the messages as
    they are once the call has returned or raised. *)
Definition _truncate_tool_result_texts (messages : list Msg)
    : list Msg * option exn :=
  match default_max_length with
  | Raise e => (messages, Some e)
  | Ok max_length => mutate_each (truncate_msg max_length) messages
  end.

(** The messages that [get_memory] returns are the stored objects: what is
    mutated in them is mutated in the store.  [write_back new entries] puts
    the messages [new] in the place of the entries without the mark
    [COMPRESSED], in order. *)
Fixpoint write_back (new : list Msg) (entries : list (Msg * list _MemoryMark))
    : list (Msg * list _MemoryMark) :=
  match entries with
  | [] => []
  | e :: rest =>
      if MemoryOps.has_mark COMPRESSED (snd e) then e :: write_back new rest
      else
        match new with
        | [] => e :: rest
        | m :: new' => (m, snd e) :: write_back new' rest
        end
  end.

(** The fields of a [MemoryCompactionHook] other than [memory_manager],
    which is in the [World] (lines 73-88). *)
Record MemoryCompactionHook : Type := mkHook {
  memory_compact_threshold : Z;
  keep_recent : Z
}.

(** The leading run of system messages (lines 120-125). *)
Fixpoint system_prefix (messages : list Msg) : list Msg :=
  match messages with
  | [] => []
  | msg :: rest =>
      if String.eqb (msg_role msg) "system" then msg :: system_prefix rest
      else []
  end.

(** The loop of lines 132-136; [fuel] bounds the number of iterations. *)
Fixpoint keep_length_loop (fuel : nat) (remaining_messages : list Msg)
    (keep_length : Z) : Z :=
  match fuel with
  | O => keep_length
  | S fuel' =>
      if (0 <? keep_length)
         && negb (check_valid_messages
                    (slice_from remaining_messages (- keep_length)))
      then keep_length_loop fuel' remaining_messages (keep_length - 1)
      else keep_length
  end.

(** Lines 120-143: the system prompt, the messages to compact and the
    messages to keep; [None] is the early [return None] of line 130. *)
Definition split_messages (self : MemoryCompactionHook) (messages : list Msg)
    : option (list Msg * list Msg * list Msg) :=
  let system_prompt_messages := system_prefix messages in
  let remaining_messages :=
    slice_from messages (Z.of_nat (length system_prompt_messages)) in
  if Z.of_nat (length remaining_messages) <=? keep_recent self then None
  else
    let keep_length :=
      keep_length_loop (Z.to_nat (keep_recent self)) remaining_messages
                       (keep_recent self) in
    if 0 <? keep_length then
      Some (system_prompt_messages,
            slice_to remaining_messages (- keep_length),
            slice_from remaining_messages (- keep_length))
    else Some (system_prompt_messages, remaining_messages, []).

(** A call of a method of [self.memory_manager]. *)
Definition call_memory_manager {A} (method : string) (ev : Event)
    (op : MemoryManager -> MemoryManager * result A) : M A :=
  do w <- get_world;
  match memory_manager w with
  | None =>
      raise (AttributeError ("'NoneType' object has no attribute '"
                             +:+ method +:+ "'"))
  | Some mm =>
      run emit ev;
      let '(mm', r) := op mm in
      run set_memory_manager (Some mm');
      lift r
  end.

Definition call_format (msgs : list Msg) : M (list dict) :=
  run emit (EvFormat msgs);
  lift (formatter_format msgs).

Definition memory_update_compressed_summary (summary : string) : M unit :=
  do w <- get_world;
  set_memory (MemoryOps.update_compressed_summary summary (memory w)).

Definition memory_update_messages_mark (new_mark : _MemoryMark)
    (msg_ids : list string) : M Z :=
  do w <- get_world;
  let '(m, updated_count) :=
    MemoryOps.update_messages_mark new_mark msg_ids (memory w) in
  run set_memory m;
  ret updated_count.

(** Lines 145-147, with the effect on the store of mutating the kept
    messages. *)
Definition truncate_kept (system_prompt_messages messages_to_compact
    messages_to_keep : list Msg) : M unit :=
  match messages_to_keep with
  | [] => ret tt
  | _ =>
      let '(kept, r) := _truncate_tool_result_texts messages_to_keep in
      do w <- get_world;
      run set_memory
        {| content :=
             write_back (system_prompt_messages ++ messages_to_compact ++ kept)
                        (content (memory w));
           _compressed_summary := _compressed_summary (memory w) |};
      match r with
      | Some e => raise e
      | None => ret tt
      end
  end.

(** The body of the [try] (lines 113-183). *)
Definition hook_body (self : MemoryCompactionHook) : M unit :=
  do w <- get_world;
  let messages := MemoryOps.get_memory COMPRESSED (memory w) in
  do _last <- match last_item messages with
              | Some msg => ret msg
              | None => raise (IndexError "list index out of range")
              end;
  match split_messages self messages with
  | None => ret tt
  | Some (system_prompt_messages, messages_to_compact, messages_to_keep) =>
      run truncate_kept system_prompt_messages messages_to_compact
                        messages_to_keep;
      do prompt <- call_format messages_to_compact;
      do estimated_tokens <- safe_count_message_tokens prompt;
      if memory_compact_threshold self <? estimated_tokens then
        run call_memory_manager "add_async_summary_task"
              (EvAddAsyncSummaryTask messages_to_compact)
              (add_async_summary_task messages_to_compact);
        do w1 <- get_world;
        let previous_summary := MemoryOps.get_compressed_summary (memory w1) in
        do compact_content <-
          call_memory_manager "compact_memory"
            (EvCompactMemory messages_to_compact previous_summary)
            (compact_memory messages_to_compact previous_summary);
        run memory_update_compressed_summary compact_content;
        do _updated_count <-
          memory_update_messages_mark COMPRESSED
            (map msg_id messages_to_compact);
        ret tt
      else ret tt
  end.

(** [MemoryCompactionHook.__call__] (lines 90-192); the agent is the world.
    The result [None] of the hook is the [None] of [option]. *)
Definition MemoryCompactionHook_call (self : MemoryCompactionHook)
    (kwargs : dict) : M (option dict) :=
  run try_except (hook_body self) (fun e => emit (EvLogError e));
  ret None.

(** ** [command_handler.py] *)

(** [a + b] where [a] is a [str]. *)
Definition str_concat (a : string) (b : pyval) : result string :=
  match b with
  | PyStr s => Ok (a +:+ s)
  | _ => Raise (TypeError ("can only concatenate str (not " +:+ dquote
                           +:+ PyVal.type_name b +:+ dquote +:+ ") to str"))
  end.

(** [(safe_count_str_tokens(v), v) if v else (0, "")]. *)
Definition count_if_truthy (v : pyval) : M (Z * pyval) :=
  if PyVal.truthy v then
    do n <- safe_count_str_tokens v;
    ret (n, v)
  else ret (0, PyStr EmptyString).

(** The [tool_use] case (lines 47-53). *)
Definition tool_use_tokens (block : dict) : M (Z * pyval) :=
  let input_dict := PyVal.get block "input" (PyDict []) in
  let raw_input := PyVal.get block "raw_input" (PyStr EmptyString) in
  let input_str :=
    if PyVal.truthy input_dict then py_str input_dict else EmptyString in
  do total <- lift (str_concat input_str raw_input);
  count_if_truthy (PyStr total).

(** The media case (lines 74-84). *)
Definition media_tokens (block : dict) : M (Z * pyval) :=
  match PyVal.get block "source" (PyDict []) with
  | PyDict source =>
      if PyVal.eq_str (PyVal.get source "type" PyNone) "url" then
        let url := PyVal.get source "url" (PyStr EmptyString) in
        do n <- safe_count_str_tokens url;
        ret (n, url)
      else if PyVal.eq_str (PyVal.get source "type" PyNone) "base64" then
        let data := PyVal.get source "data" (PyStr EmptyString) in
        if PyVal.truthy data then
          do n <- lift (py_len data);
          ret (n / 4, PyStr "[base64]")
        else ret (0, PyStr EmptyString)
      else ret (0, PyStr EmptyString)
  | source =>
      raise (AttributeError ("'" +:+ PyVal.type_name source
                             +:+ "' object has no attribute 'get'"))
  end.

(** [_get_block_tokens(block, block_type)] (lines 22-86), by recursion on
    the nesting of [block]: the only recursive call is on an item of the
    list found under the key [output]. *)
Fixpoint _get_block_tokens (block : pyval) (block_type : pyval) {struct block}
    : M (Z * pyval) :=
  match block with
  | PyDict d =>
      if PyVal.eq_str block_type "text" then
        count_if_truthy (PyVal.get d "text" (PyStr EmptyString))
      else if PyVal.eq_str block_type "thinking" then
        count_if_truthy (PyVal.get d "thinking" (PyStr EmptyString))
      else if PyVal.eq_str block_type "tool_use" then tool_use_tokens d
      else if PyVal.eq_str block_type "tool_result" then
        (fix at_output (entries : list (string * pyval)) : M (Z * pyval) :=
           match entries with
           | [] => ret (0, PyStr EmptyString)
           | (k, output) :: rest =>
               if String.eqb k "output" then
                 match output with
                 | PyStr _ => count_if_truthy output
                 | PyList items =>
                     (fix each (items : list pyval) (total_tokens : Z)
                          (total_str : string) : M (Z * pyval) :=
                        match items with
                        | [] => ret (total_tokens, PyStr total_str)
                        | item :: items' =>
                            match item with
                            | PyDict di =>
                                let item_type :=
                                  PyVal.get di "type" (PyStr "unknown") in
                                do r <- _get_block_tokens item item_type;
                                do total_str' <-
                                  lift (str_concat total_str (snd r));
                                each items' (total_tokens + fst r) total_str'
                            | _ => each items' total_tokens total_str
                            end
                        end) items 0 EmptyString
                 | _ => ret (0, PyStr EmptyString)
                 end
               else at_output rest
           end) d
      else if PyVal.eq_str block_type "image"
              || PyVal.eq_str block_type "audio"
              || PyVal.eq_str block_type "video" then media_tokens d
      else ret (0, PyStr EmptyString)
  | _ =>
      (* the callers pass dictionaries only; on another object the first
         [block.get] fails *)
      if PyVal.eq_str block_type "text" || PyVal.eq_str block_type "thinking"
         || PyVal.eq_str block_type "tool_use"
         || PyVal.eq_str block_type "tool_result"
         || PyVal.eq_str block_type "image" || PyVal.eq_str block_type "audio"
         || PyVal.eq_str block_type "video"
      then raise (AttributeError ("'" +:+ PyVal.type_name block
                                  +:+ "' object has no attribute 'get'"))
      else ret (0, PyStr EmptyString)
  end.

(** The loop over the items of a list-valued [output] (lines 63-71), as a
    function of its own: lemma [_get_block_tokens_tool_result] shows that it
    is the loop inside [_get_block_tokens]. *)
Fixpoint tool_result_items (items : list pyval) (total_tokens : Z)
    (total_str : string) : M (Z * pyval) :=
  match items with
  | [] => ret (total_tokens, PyStr total_str)
  | item :: items' =>
      match item with
      | PyDict di =>
          let item_type := PyVal.get di "type" (PyStr "unknown") in
          do r <- _get_block_tokens item item_type;
          do total_str' <- lift (str_concat total_str (snd r));
          tool_result_items items' (total_tokens + fst r) total_str'
      | _ => tool_result_items items' total_tokens total_str
      end
  end.

(** The fields of a [CommandHandler] other than [memory] and
    [memory_manager], which are in the [World], and [formatter]
    (lines 97-118). *)
Record CommandHandler : Type := mkCommandHandler {
  agent_name : string;
  _enable_memory_manager : bool
}.

(** [SYSTEM_COMMANDS] (lines 93-95). *)
Definition SYSTEM_COMMANDS : gset string :=
  list_to_set ["compact"; "new"; "clear"; "history"; "compact_str";
               "await_summary"].

(** [is_command] (lines 120-131); the argument may be any object. *)
Definition is_command (query : pyval) : bool :=
  match query with
  | PyStr q =>
      if negb (startswith q "/") then false
      else bool_decide (lstrip "/" (strip q) ∈ SYSTEM_COMMANDS)
  | _ => false
  end.

Definition TextBlock (text : string) : pyval :=
  PyDict [("type", PyStr "text"); ("text", PyStr text)].

(** [Msg(name=..., role=..., content=...)]: the new message gets a fresh
    id. *)
Definition new_Msg (name role : string) (c : MsgContent) : M Msg :=
  do w <- get_world;
  run modify with_msg_created;
  ret {| msg_id := fresh_msg_id (msgs_created w); msg_name := name;
         msg_role := role; msg_content := c |}.

(** [_make_system_msg] (lines 133-146). *)
Definition _make_system_msg (self : CommandHandler) (text : string) : M Msg :=
  new_Msg (agent_name self) "assistant" (ContentBlocks [TextBlock text]).

(** [_has_memory_manager] (lines 148-150). *)
Definition _has_memory_manager (self : CommandHandler) : M bool :=
  do w <- get_world;
  ret (_enable_memory_manager self
       && match memory_manager w with Some _ => true | None => false end).

(** [_mark_messages_compressed] (lines 152-157). *)
Definition _mark_messages_compressed (messages : list Msg) : M Z :=
  memory_update_messages_mark COMPRESSED (map msg_id messages).

(** [_process_compact] (lines 159-190). *)
Definition _process_compact (self : CommandHandler) (messages : list Msg)
    : M Msg :=
  match messages with
  | [] =>
      _make_system_msg self
        ("**No messages to compact.**" +:+ nl +:+ nl
         +:+ "- Current memory is empty" +:+ nl
         +:+ "- No action taken")
  | _ =>
      do has_manager <- _has_memory_manager self;
      if negb has_manager then
        _make_system_msg self
          ("**Memory Manager Disabled**" +:+ nl +:+ nl
           +:+ "- Memory compaction is not available" +:+ nl
           +:+ "- Enable memory manager to use this feature")
      else
        run call_memory_manager "add_async_summary_task"
              (EvAddAsyncSummaryTask messages)
              (add_async_summary_task messages);
        do w <- get_world;
        let previous_summary := MemoryOps.get_compressed_summary (memory w) in
        do compact_content <-
          call_memory_manager "compact_memory"
            (EvCompactMemory messages previous_summary)
            (compact_memory messages previous_summary);
        run memory_update_compressed_summary compact_content;
        do updated_count <- _mark_messages_compressed messages;
        _make_system_msg self
          ("**Compact Complete!**" +:+ nl +:+ nl
           +:+ "- Messages compacted: " +:+ str_of_int updated_count +:+ nl
           +:+ "**Compressed Summary:**" +:+ nl +:+ compact_content +:+ nl
           +:+ "- Summary task started in background" +:+ nl)
  end.

(** [_process_new] (lines 192-217). *)
Definition _process_new (self : CommandHandler) (messages : list Msg)
    : M Msg :=
  match messages with
  | [] =>
      run memory_update_compressed_summary EmptyString;
      _make_system_msg self
        ("**No messages to summarize.**" +:+ nl +:+ nl
         +:+ "- Current memory is empty" +:+ nl
         +:+ "- Compressed summary is clear" +:+ nl
         +:+ "- No action taken")
  | _ =>
      do has_manager <- _has_memory_manager self;
      if negb has_manager then
        _make_system_msg self
          ("**Memory Manager Disabled**" +:+ nl +:+ nl
           +:+ "- Cannot start new conversation with summary" +:+ nl
           +:+ "- Enable memory manager to use this feature")
      else
        run call_memory_manager "add_async_summary_task"
              (EvAddAsyncSummaryTask messages)
              (add_async_summary_task messages);
        run memory_update_compressed_summary EmptyString;
        do _updated_count <- _mark_messages_compressed messages;
        _make_system_msg self
          ("**New Conversation Started!**" +:+ nl +:+ nl
           +:+ "- Summary task started in background" +:+ nl
           +:+ "- Ready for new conversation")
  end.

(** [_process_clear] (lines 219-227). *)
Definition _process_clear (self : CommandHandler) (_messages : list Msg)
    : M Msg :=
  do w <- get_world;
  run set_memory (MemoryOps.clear_content (memory w));
  run memory_update_compressed_summary EmptyString;
  _make_system_msg self
    ("**History Cleared!**" +:+ nl +:+ nl
     +:+ "- Compressed summary reset" +:+ nl
     +:+ "- Memory is now empty").

(** [_process_compact_str] (lines 229-240). *)
Definition _process_compact_str (self : CommandHandler)
    (_messages : list Msg) : M Msg :=
  do w <- get_world;
  let summary := MemoryOps.get_compressed_summary (memory w) in
  if String.eqb summary EmptyString then
    _make_system_msg self
      ("**No Compressed Summary**" +:+ nl +:+ nl
       +:+ "- No summary has been generated yet" +:+ nl
       +:+ "- Use /compact or wait for auto-compaction")
  else
    _make_system_msg self
      ("**Compressed Summary**" +:+ nl +:+ nl +:+ summary).

(** A Python number: [context_usage_ratio] is a [float] in one branch and
    the [int] 0 in the other. *)
Inductive pynum : Type :=
| NumInt (z : Z)
| NumFloat (x : float).

(** [format(x, ".1f")]. *)
Definition format_1f (x : pynum) : string :=
  match x with
  | NumInt z => int_format_1f z
  | NumFloat x => float_format_1f x
  end.

(** [a / b] of two [int]s. *)
Definition truediv (a b : Z) : result float :=
  if b =? 0 then Raise (ZeroDivisionError "division by zero")
  else Ok (int_truediv a b).

(** The figures of the report (lines 245-260). *)
Record HistoryStats : Type := mkHistoryStats {
  compressed_summary_tokens : Z;
  messages_tokens : Z;
  estimated_tokens : Z;
  max_input_length : Z;
  context_usage_ratio : pynum
}.

Definition history_stats (messages : list Msg) : M HistoryStats :=
  do w <- get_world;
  let compressed_summary := MemoryOps.get_compressed_summary (memory w) in
  do compressed_summary_tokens <-
    safe_count_str_tokens (PyStr compressed_summary);
  do prompt <- call_format messages;
  do messages_tokens <- safe_count_message_tokens prompt;
  let estimated_tokens := messages_tokens + compressed_summary_tokens in
  do max_input_length <- lift load_config_max_input_length;
  do context_usage_ratio <-
    (if 0 <? max_input_length then
       do q <- lift (truediv estimated_tokens max_input_length);
       ret (NumFloat (float_mul_int q 100))
     else ret (NumInt 0));
  ret {| compressed_summary_tokens := compressed_summary_tokens;
         messages_tokens := messages_tokens;
         estimated_tokens := estimated_tokens;
         max_input_length := max_input_length;
         context_usage_ratio := context_usage_ratio |}.

(** [f"{s[:100]}..." if len(s) > 100 else s]. *)
Definition preview_of (s : string) : string :=
  if 100 <? len s then prefix_slice 100 s +:+ "..." else s.

(** The join of [parts] with the empty separator, where the parts may be any
    objects. *)
Fixpoint join_parts (i : Z) (parts : list pyval) : result string :=
  match parts with
  | [] => Ok EmptyString
  | PyStr s :: rest =>
      match join_parts (i + 1) rest with
      | Ok r => Ok (s +:+ r)
      | Raise e => Raise e
      end
  | v :: _ =>
      Raise (TypeError ("sequence item " +:+ str_of_int i
                        +:+ ": expected str instance, "
                        +:+ PyVal.type_name v +:+ " found"))
  end.

(** The loop over the blocks of a message (lines 279-289): the total, the
    texts and the descriptions of the blocks. *)
Fixpoint history_blocks (blocks : list pyval) (total_tokens : Z)
    (text_parts : list pyval) (block_infos : list string)
    : M (Z * list pyval * list string) :=
  match blocks with
  | [] => ret (total_tokens, text_parts, block_infos)
  | block :: rest =>
      match block with
      | PyDict d =>
          let block_type := PyVal.get d "type" (PyStr "unknown") in
          do r <- _get_block_tokens block block_type;
          history_blocks rest (total_tokens + fst r)
            (text_parts ++ [snd r])
            (block_infos ++ [py_str block_type +:+ "(tokens="
                             +:+ str_of_int (fst r) +:+ ")"])
      | _ =>
          raise (AttributeError ("'" +:+ PyVal.type_name block
                                 +:+ "' object has no attribute 'get'"))
      end
  end.

(** One line of the report (lines 263-305). *)
Definition history_line (i : Z) (msg : Msg) : M string :=
  do r <-
    try_except
      (match msg_content msg with
       | ContentStr c =>
           do text_tokens <- safe_count_str_tokens (PyStr c);
           ret (text_tokens, EmptyString, preview_of c)
       | ContentBlocks blocks =>
           do r <- history_blocks blocks 0 [] [];
           let '(total_tokens, text_parts, block_infos) := r in
           let seq_blocks :=
             nl +:+ "    content: [" +:+ join ", " block_infos +:+ "]" in
           do text_preview <- lift (join_parts 0 text_parts);
           ret (total_tokens, seq_blocks, preview_of text_preview)
       end)
      (fun e => ret (0, EmptyString, "<error: " +:+ exn_text e +:+ ">"));
  let '(text_tokens, seq_blocks, preview) := r in
  ret ("[" +:+ str_of_int i +:+ "] **" +:+ msg_role msg
       +:+ "** (text_tokens=" +:+ str_of_int text_tokens +:+ ")"
       +:+ seq_blocks +:+ nl +:+ "    preview: " +:+ preview).

Fixpoint history_lines (i : Z) (messages : list Msg) : M (list string) :=
  match messages with
  | [] => ret []
  | msg :: rest =>
      do line <- history_line i msg;
      do lines <- history_lines (i + 1) rest;
      ret (line :: lines)
  end.

(** The head of the report (lines 308-313). *)
Definition history_head (messages : list Msg) (st : HistoryStats) : string :=
  "**Conversation History**" +:+ nl +:+ nl
  +:+ "- Total messages: " +:+ str_of_int (Z.of_nat (length messages)) +:+ nl
  +:+ "- Estimated tokens: " +:+ str_of_int (estimated_tokens st) +:+ nl
  +:+ "- Max input length: " +:+ str_of_int (max_input_length st) +:+ nl
  +:+ "- Context usage: " +:+ format_1f (context_usage_ratio st) +:+ "%" +:+ nl
  +:+ "- Compressed summary tokens: "
  +:+ str_of_int (compressed_summary_tokens st) +:+ nl +:+ nl.

(** [_process_history] (lines 242-315). *)
Definition _process_history (self : CommandHandler) (messages : list Msg)
    : M Msg :=
  do st <- history_stats messages;
  do lines <- history_lines 1 messages;
  _make_system_msg self
    (history_head messages st +:+ join (nl +:+ nl) lines).

(** [_process_await_summary] (lines 317-339). *)
Definition _process_await_summary (self : CommandHandler)
    (_messages : list Msg) : M Msg :=
  do has_manager <- _has_memory_manager self;
  if negb has_manager then
    _make_system_msg self
      ("**Memory Manager Disabled**" +:+ nl +:+ nl
       +:+ "- Cannot await summary tasks" +:+ nl
       +:+ "- Enable memory manager to use this feature")
  else
    do w <- get_world;
    do task_count <-
      match memory_manager w with
      | Some mm => ret (summary_tasks_len mm)
      | None =>
          raise (AttributeError
                   "'NoneType' object has no attribute 'summary_tasks'")
      end;
    if task_count =? 0 then
      _make_system_msg self
        ("**No Summary Tasks**" +:+ nl +:+ nl
         +:+ "- No pending summary tasks to wait for")
    else
      do result <-
        call_memory_manager "await_summary_tasks" EvAwaitSummaryTasks
          await_summary_tasks;
      _make_system_msg self
        ("**Summary Tasks Complete**" +:+ nl +:+ nl
         +:+ "- Waited for " +:+ str_of_int task_count
         +:+ " summary task(s)" +:+ nl
         +:+ "- " +:+ result
         +:+ "- All tasks have finished").

(** The six [_process_*] methods. *)
Inductive Handler : Set :=
| Process_compact
| Process_new
| Process_clear
| Process_compact_str
| Process_history
| Process_await_summary.

(** What [getattr] can find on a [CommandHandler]. *)
Inductive Attribute : Set :=
| ProcessMethod (h : Handler)
| OtherAttribute.

(** The attributes of a [CommandHandler], by name: the ones [__init__]
    sets and the ones the class defines.  The attributes inherited from
    [object] are left out: their names start with two underscores. *)
Definition attributes : list (string * Attribute) :=
  [ ("agent_name", OtherAttribute);
    ("memory", OtherAttribute);
    ("formatter", OtherAttribute);
    ("memory_manager", OtherAttribute);
    ("_enable_memory_manager", OtherAttribute);
    ("SYSTEM_COMMANDS", OtherAttribute);
    ("__init__", OtherAttribute);
    ("is_command", OtherAttribute);
    ("_make_system_msg", OtherAttribute);
    ("_has_memory_manager", OtherAttribute);
    ("_mark_messages_compressed", OtherAttribute);
    ("_process_compact", ProcessMethod Process_compact);
    ("_process_new", ProcessMethod Process_new);
    ("_process_clear", ProcessMethod Process_clear);
    ("_process_compact_str", ProcessMethod Process_compact_str);
    ("_process_history", ProcessMethod Process_history);
    ("_process_await_summary", ProcessMethod Process_await_summary);
    ("handle_command", OtherAttribute) ].

(** [getattr(self, name, None)], with [None] for the default. *)
Fixpoint getattr (attrs : list (string * Attribute)) (name : string)
    : option Attribute :=
  match attrs with
  | [] => None
  | (n, a) :: rest => if String.eqb n name then Some a else getattr rest name
  end.

Definition call_handler (self : CommandHandler) (h : Handler)
    (messages : list Msg) : M Msg :=
  match h with
  | Process_compact => _process_compact self messages
  | Process_new => _process_new self messages
  | Process_clear => _process_clear self messages
  | Process_compact_str => _process_compact_str self messages
  | Process_history => _process_history self messages
  | Process_await_summary => _process_await_summary self messages
  end.

(** [handle_command] (lines 341-363).  The name looked up starts with
    [_process_], so the attribute found is always one of the six methods
    (lemma [getattr_process_method]); the last case cannot occur. *)
Definition handle_command (self : CommandHandler) (query : string) : M Msg :=
  do w <- get_world;
  let messages := MemoryOps.get_memory COMPRESSED (memory w) in
  let command := lstrip "/" (strip query) in
  match getattr attributes ("_process_" +:+ command) with
  | None => raise (RuntimeError ("Unknown command: " +:+ query))
  | Some (ProcessMethod h) => call_handler self h messages
  | Some OtherAttribute => raise (TypeError "object is not callable")
  end.

(** ** Vocabulary of the properties *)

(** The method that a command name selects, following the names. *)
Definition handler_of_command (command : string) : option Handler :=
  if String.eqb "compact" command then Some Process_compact
  else if String.eqb "new" command then Some Process_new
  else if String.eqb "clear" command then Some Process_clear
  else if String.eqb "compact_str" command then Some Process_compact_str
  else if String.eqb "history" command then Some Process_history
  else if String.eqb "await_summary" command then Some Process_await_summary
  else None.


(** What [_get_token_counter] yields when the module global holds [tc]. *)
Definition loaded_counter (tc : option TokenCounter) : result TokenCounter :=
  match tc with
  | Some token_counter => Ok token_counter
  | None =>
      HuggingFaceTokenCounter
        (if local_tokenizer_exists then local_tokenizer_path
         else "Qwen/Qwen2.5-7B-Instruct")
  end.

(** The module global after a call of [_get_token_counter]. *)
Definition counter_after (tc : option TokenCounter) : option TokenCounter :=
  match loaded_counter tc with
  | Ok token_counter => Some token_counter
  | Raise _ => None
  end.

(** The tokenizer path: the number of tokens of [text], or the exception
    that loading the tokenizer or encoding raises. *)
Definition tokenizer_count (tc : option TokenCounter) (text : pyval)
    : result Z :=
  match loaded_counter tc with
  | Ok token_counter =>
      match tokenizer_encode token_counter text with
      | Ok token_ids => Ok (Z.of_nat (length token_ids))
      | Raise e => Raise e
      end
  | Raise e => Raise e
  end.

(** The estimate for a prompt: the tokenizer's count, or a quarter of the
    length of the extracted text. *)
Definition message_tokens (tc : option TokenCounter) (prompt : list dict) : Z :=
  match tokenizer_count tc (PyStr (_extract_text_from_messages prompt)) with
  | Ok n => n
  | Raise _ => len (_extract_text_from_messages prompt) / 4
  end.

(** The estimated token usage of a memory: what [safe_count_message_tokens]
    counts for the prompt made of all its messages that are not compressed
    yet; [None] when the formatter raises. *)
Definition estimated_token_usage (w : World) : option Z :=
  match formatter_format (MemoryOps.get_memory COMPRESSED (memory w)) with
  | Ok prompt =>
      match snd (safe_count_message_tokens prompt w) with
      | Ok n => Some n
      | Raise _ => None
      end
  | Raise _ => None
  end.

(** The calls made between two worlds. *)
Definition new_calls (w w' : World) : list Event :=
  drop (length (calls w)) (calls w').

(** The number of messages whose role is not [system]. *)
Definition non_system_count (messages : list Msg) : Z :=
  Z.of_nat (length (List.filter
    (fun msg => negb (String.eqb (msg_role msg) "system")) messages)).

(** The ids of the stored messages that carry the mark [COMPRESSED]. *)
Definition compressed_ids (m : Memory) : list string :=
  map (fun e => msg_id (fst e))
      (List.filter (fun e => MemoryOps.has_mark COMPRESSED (snd e)) (content m)).

(** The text of a message whose content is one text block, as
    [_make_system_msg] builds it. *)
Definition msg_text (msg : Msg) : option string :=
  match msg_content msg with
  | ContentBlocks [PyDict d] =>
      match PyVal.lookup d "text" with
      | Some (PyStr text) => Some text
      | _ => None
      end
  | _ => None
  end.

(** The store seen as the ids of its messages with their marks. *)
Definition marks_of (m : Memory) : list (string * list _MemoryMark) :=
  map (fun e => (msg_id (fst e), snd e)) (content m).

(** The worlds that the body of the hook goes through: after the prompt is
    formatted and counted, after the summary task is added, after
    [compact_memory] is called, and after the memory is updated. *)
Definition formatted (to_compact : list Msg) (w : World) : World :=
  with_token_counter (counter_after (_token_counter w))
    (with_call (EvFormat to_compact) w).

Definition task_added (to_compact : list Msg) (mm : MemoryManager) (w : World)
    : World :=
  with_memory_manager (Some mm) (with_call (EvAddAsyncSummaryTask to_compact) w).

Definition compact_called (to_compact : list Msg) (previous : string)
    (mm : MemoryManager) (w : World) : World :=
  with_memory_manager (Some mm)
    (with_call (EvCompactMemory to_compact previous) w).

Definition compacted (to_compact : list Msg) (summary : string) (w : World)
    : World :=
  with_memory
    (fst (MemoryOps.update_messages_mark COMPRESSED (map msg_id to_compact)
            (MemoryOps.update_compressed_summary summary (memory w))))
    w.

(** The runs of the body of the hook, case by case: the world it ends in and
    its result. *)
Inductive hook_run (self : MemoryCompactionHook) (w : World)
    : World -> result unit -> Prop :=
| RunEmpty :
    MemoryOps.get_memory COMPRESSED (memory w) = [] ->
    hook_run self w w (Raise (IndexError "list index out of range"))
| RunFew :
    MemoryOps.get_memory COMPRESSED (memory w) <> [] ->
    split_messages self (MemoryOps.get_memory COMPRESSED (memory w)) = None ->
    hook_run self w w (Ok tt)
| RunTruncateRaises sys to_compact to_keep w1 e :
    split_messages self (MemoryOps.get_memory COMPRESSED (memory w))
    = Some (sys, to_compact, to_keep) ->
    truncate_kept sys to_compact to_keep w = (w1, Raise e) ->
    hook_run self w w1 (Raise e)
| RunFormatRaises sys to_compact to_keep w1 e :
    split_messages self (MemoryOps.get_memory COMPRESSED (memory w))
    = Some (sys, to_compact, to_keep) ->
    truncate_kept sys to_compact to_keep w = (w1, Ok tt) ->
    formatter_format to_compact = Raise e ->
    hook_run self w (with_call (EvFormat to_compact) w1) (Raise e)
| RunBelow sys to_compact to_keep w1 prompt :
    split_messages self (MemoryOps.get_memory COMPRESSED (memory w))
    = Some (sys, to_compact, to_keep) ->
    truncate_kept sys to_compact to_keep w = (w1, Ok tt) ->
    formatter_format to_compact = Ok prompt ->
    message_tokens (_token_counter w1) prompt <= memory_compact_threshold self ->
    hook_run self w (formatted to_compact w1) (Ok tt)
| RunNoManager sys to_compact to_keep w1 prompt :
    split_messages self (MemoryOps.get_memory COMPRESSED (memory w))
    = Some (sys, to_compact, to_keep) ->
    truncate_kept sys to_compact to_keep w = (w1, Ok tt) ->
    formatter_format to_compact = Ok prompt ->
    memory_compact_threshold self < message_tokens (_token_counter w1) prompt ->
    memory_manager w1 = None ->
    hook_run self w (formatted to_compact w1)
      (Raise (AttributeError
        "'NoneType' object has no attribute 'add_async_summary_task'"))
| RunAddRaises sys to_compact to_keep w1 prompt mm mm1 e :
    split_messages self (MemoryOps.get_memory COMPRESSED (memory w))
    = Some (sys, to_compact, to_keep) ->
    truncate_kept sys to_compact to_keep w = (w1, Ok tt) ->
    formatter_format to_compact = Ok prompt ->
    memory_compact_threshold self < message_tokens (_token_counter w1) prompt ->
    memory_manager w1 = Some mm ->
    add_async_summary_task to_compact mm = (mm1, Raise e) ->
    hook_run self w (task_added to_compact mm1 (formatted to_compact w1))
      (Raise e)
| RunCompactRaises sys to_compact to_keep w1 prompt mm mm1 mm2 e :
    split_messages self (MemoryOps.get_memory COMPRESSED (memory w))
    = Some (sys, to_compact, to_keep) ->
    truncate_kept sys to_compact to_keep w = (w1, Ok tt) ->
    formatter_format to_compact = Ok prompt ->
    memory_compact_threshold self < message_tokens (_token_counter w1) prompt ->
    memory_manager w1 = Some mm ->
    add_async_summary_task to_compact mm = (mm1, Ok tt) ->
    compact_memory to_compact (_compressed_summary (memory w1)) mm1
    = (mm2, Raise e) ->
    hook_run self w
      (compact_called to_compact (_compressed_summary (memory w1)) mm2
         (task_added to_compact mm1 (formatted to_compact w1)))
      (Raise e)
| RunCompacted sys to_compact to_keep w1 prompt mm mm1 mm2 summary :
    split_messages self (MemoryOps.get_memory COMPRESSED (memory w))
    = Some (sys, to_compact, to_keep) ->
    truncate_kept sys to_compact to_keep w = (w1, Ok tt) ->
    formatter_format to_compact = Ok prompt ->
    memory_compact_threshold self < message_tokens (_token_counter w1) prompt ->
    memory_manager w1 = Some mm ->
    add_async_summary_task to_compact mm = (mm1, Ok tt) ->
    compact_memory to_compact (_compressed_summary (memory w1)) mm1
    = (mm2, Ok summary) ->
    hook_run self w
      (compacted to_compact summary
         (compact_called to_compact (_compressed_summary (memory w1)) mm2
            (task_added to_compact mm1 (formatted to_compact w1))))
      (Ok tt).

(** The world after the hook, given the world and the result that the body
    of its [try] ended with: an exception that derives from [Exception] is
    logged. *)
Definition logged (wb : World) (r : result unit) : World :=
  match r with
  | Ok _ => wb
  | Raise e => if is_Exception e then with_call (EvLogError e) wb else wb
  end.

(** The result of the hook, given the result of the body of its [try]: an
    exception that does not derive from [Exception] leaves the hook. *)
Definition hook_result (r : result unit) : result (option dict) :=
  match r with
  | Ok _ => Ok None
  | Raise e => if is_Exception e then Ok None else Raise e
  end.



(** The world once the token counter has been asked for: the module global
    holds the counter if it could be loaded, and nothing else differs. *)
Definition counted (w : World) : World :=
  with_token_counter (counter_after (_token_counter w)) w.

(** A computation that leaves the world as it is, or as [counted] makes
    it. *)
Definition reads_counter_only {A} (m : M A) : Prop :=
  forall w, fst (m w) = w \/ fst (m w) = counted w.

(** The parts that a well-formed content adds to the extracted text: a
    string adds itself, a list of text blocks adds their non-empty texts. *)
Inductive content_texts : pyval -> list string -> Prop :=
| TextsOfStr (s : string) : content_texts (PyStr s) [s]
| TextsOfBlocks (blocks : list pyval) (texts : list string) :
    Forall2 (fun block text =>
               exists d, block = PyDict d
                         /\ PyVal.lookup d "text" = Some (PyStr text)
                         /\ text <> EmptyString)
            blocks texts ->
    content_texts (PyList blocks) texts.

(** A run that keeps the world up to the token counter, whose count, if it
    returns one, is not negative, and whose exception, if it raises one,
    derives from [Exception]. *)
Definition counts_from (w : World) (r : World * result (Z * pyval)) : Prop :=
  (fst r = w \/ fst r = counted w)
  /\ (forall n s, snd r = Ok (n, s) -> 0 <= n)
  /\ (forall e, snd r = Raise e -> is_Exception e = true).

(** Whether a content block is one that
    [msg.get_content_blocks("tool_result")] selects. *)
Definition is_tool_result (block : pyval) : bool :=
  match block with
  | PyDict d => PyVal.eq_str (PyVal.get d "type" PyNone) "tool_result"
  | _ => false
  end.

(** A block whose type [msg.get_content_blocks] can read: a dictionary
    with the key [type]. *)
Definition typed_block (block : pyval) : Prop :=
  exists d ty, block = PyDict d /\ PyVal.lookup d "type" = Some ty.

(** What [_truncate_tool_result_texts] may do to a block: a block that is
    not a tool result stays as it is; a tool result keeps its keys, in
    order, and the values of all keys but [output]. *)
Definition block_truncated (block block' : pyval) : Prop :=
  (is_tool_result block = false -> block' = block)
  /\ match block, block' with
     | PyDict d, PyDict d' =>
         map fst d' = map fst d
         /\ forall k, k <> "output" -> PyVal.lookup d' k = PyVal.lookup d k
     | _, _ => block' = block
     end.

(** What it may do to a message: id, name and role stay, a string content
    stays, and a list content keeps its length, block by block as above. *)
Definition msg_truncated (msg msg' : Msg) : Prop :=
  msg_id msg' = msg_id msg /\ msg_name msg' = msg_name msg
  /\ msg_role msg' = msg_role msg
  /\ match msg_content msg, msg_content msg' with
     | ContentStr s, ContentStr s' => s' = s
     | ContentBlocks blocks, ContentBlocks blocks' =>
         Forall2 block_truncated blocks blocks'
     | _, _ => False
     end.

(** What the hook cannot change in a stored message: its id, its name, its
    role, and its content when that is a string. *)
Definition msg_frame (msg : Msg) : string * string * string * option string :=
  (msg_id msg, msg_name msg, msg_role msg,
   match msg_content msg with
   | ContentStr s => Some s
   | ContentBlocks _ => None
   end).

(** The marks of a stored message may only grow by [COMPRESSED]. *)
Definition marks_grown (marks marks' : list _MemoryMark) : Prop :=
  marks' = marks \/ marks' = marks ++ [COMPRESSED].

(** An item of a list-valued [output] after a truncation to [max_length]
    that did not raise: a text item holds the truncated text under [text]
    (also when it had no such key), any other item is untouched. *)
Definition text_truncated (max_length : Z) (item item' : pyval) : Prop :=
  match item with
  | PyDict di =>
      if PyVal.eq_str (PyVal.get di "type" PyNone) "text" then
        exists di' t,
          item' = PyDict di'
          /\ _truncate_text (PyVal.get di "text" (PyStr EmptyString)) max_length
             = Ok t
          /\ PyVal.lookup di' "text" = Some t
      else item' = item
  | _ => item' = item
  end.

(** A block after such a truncation: a tool result whose [output] is a
    string holds the truncated string, one whose [output] is a list holds
    the list of the truncated items. *)
Definition output_truncated (max_length : Z) (block block' : pyval) : Prop :=
  forall d, block = PyDict d -> is_tool_result block = true ->
    (forall output, PyVal.lookup d "output" = Some (PyStr output) ->
       exists d' t,
         block' = PyDict d'
         /\ _truncate_text (PyStr output) max_length = Ok t
         /\ PyVal.lookup d' "output" = Some t)
    /\ (forall items, PyVal.lookup d "output" = Some (PyList items) ->
       exists d' items',
         block' = PyDict d'
         /\ PyVal.lookup d' "output" = Some (PyList items')
         /\ Forall2 (text_truncated max_length) items items').

(** An answer to a command received in the world [w]: a message of the
    agent with the role [assistant], the next fresh id and a single text
    block. *)
Definition is_answer (self : CommandHandler) (w : World) (msg : Msg) : Prop :=
  msg_id msg = fresh_msg_id (msgs_created w)
  /\ msg_name msg = agent_name self
  /\ msg_role msg = "assistant"
  /\ exists text, msg_content msg = ContentBlocks [TextBlock text].

(** A computation that creates no message. *)
Definition keeps_msgs_created {A} (m : M A) : Prop :=
  forall w, msgs_created (fst (m w)) = msgs_created w.

(** A computation that returns an answer, the only message it creates, or
    raises without having created a message. *)
Definition answers (self : CommandHandler) (m : M Msg) : Prop :=
  forall w,
    match snd (m w) with
    | Ok msg =>
        is_answer self w msg /\ msgs_created (fst (m w)) = S (msgs_created w)
    | Raise _ => msgs_created (fst (m w)) = msgs_created w
    end.

(** A string of [n] slashes, and whether a string is made of whitespace. *)
Fixpoint slashes (n : nat) : string :=
  match n with
  | O => EmptyString
  | S n' => String "/" (slashes n')
  end.

Fixpoint all_space (s : string) : bool :=
  match s with
  | EmptyString => true
  | String c rest => isspace c && all_space rest
  end.

End Agents.

(** ** A concrete host, to run the code on *)

Module Demo.

(** No tokenizer can be loaded: every count falls back to [len // 4]. *)
#[export] Instance tokenizers : Tokenizers unit := {|
  HuggingFaceTokenCounter := fun _ => Raise (mkExn "OSError" "offline");
  tokenizer_encode := fun _ _ => Ok [];
  local_tokenizer_path := "/opt/copaw/tokenizer";
  local_tokenizer_exists := false;
  HuggingFaceTokenCounter_Exception :=
    ltac:(intros path e E; injection E as <-; reflexivity);
  tokenizer_encode_Exception := ltac:(intros tc text e E; discriminate E)
|}.

Definition content_value (c : MsgContent) : pyval :=
  match c with
  | ContentStr s => PyStr s
  | ContentBlocks blocks => PyList blocks
  end.

#[export] Instance formatter : Formatter := {|
  formatter_format := fun msgs =>
    Ok (map (fun m => [("role", PyStr (msg_role m));
                       ("content", content_value (msg_content m))]) msgs)
|}.

(** The manager keeps the list of the summary tasks it was given. *)
#[export] Instance manager : MemoryManagerOps (list (list Msg)) := {|
  add_async_summary_task := fun msgs tasks => (tasks ++ [msgs], Ok tt);
  compact_memory := fun msgs previous tasks =>
    (tasks, Ok ("summary of " +:+ pretty (length msgs) +:+ " after ["
                +:+ previous +:+ "]"));
  summary_tasks_len := fun tasks => Z.of_nat (length tasks);
  await_summary_tasks := fun tasks => ([], Ok "done")
|}.

#[export] Instance helpers : Helpers := {|
  check_valid_messages := fun _ => true;
  _truncate_text := fun v n =>
    match v with
    | PyStr s => Ok (PyStr (String.substring 0 (Z.to_nat n) s))
    | _ => Ok v
    end;
  load_config_max_input_length := Ok 1000
|}.

(** A [float] is kept as a fraction. *)
#[export] Instance builtins : Builtins (Z * Z) := {|
  str_of_value := fun _ => "<object>";
  int_of_str := fun s => Raise (mkExn "ValueError" s);
  int_of_str_Exception :=
    ltac:(intros s e E; injection E as <-; reflexivity);
  environ_get := fun _ => None;
  int_truediv := fun a b => (a, b);
  float_mul_int := fun x n => (fst x * n, snd x);
  float_format_1f := fun x =>
    pretty (fst x / snd x) +:+ "." +:+ pretty ((10 * fst x / snd x) mod 10);
  int_format_1f := fun z => pretty z +:+ ".0";
  fresh_msg_id := fun n => "msg-" +:+ pretty n
|}.

Definition user (id text : string) : Msg :=
  mkMsg id "user" "user" (ContentStr text).
Definition assistant (id text : string) : Msg :=
  mkMsg id "Friday" "assistant" (ContentStr text).
Definition system (id text : string) : Msg :=
  mkMsg id "system" "system" (ContentStr text).

Definition world (entries : list (Msg * list _MemoryMark)) (summary : string)
    (mm : option (list (list Msg))) : @World unit (list (list Msg)) :=
  {| memory := {| content := entries; _compressed_summary := summary |};
     memory_manager := mm; _token_counter := None; msgs_created := 0;
     calls := [] |}.

Definition forty : string := "0123456789012345678901234567890123456789".

(** Two user messages of forty characters each, nothing compressed. *)
Definition two_users : list (Msg * list _MemoryMark) :=
  [(user "a" forty, []); (user "b" forty, [])].

Definition w_two : @World unit (list (list Msg)) :=
  world two_users EmptyString (Some []).

(** The hook with the default [keep_recent] of the constructor. *)
Definition hook_default : MemoryCompactionHook :=
  {| memory_compact_threshold := 5; keep_recent := 10 |}.

Definition hook_keep_one : MemoryCompactionHook :=
  {| memory_compact_threshold := 5; keep_recent := 1 |}.

(** A user message, an assistant message and a message of role [system]
    after them. *)
Definition mixed : list (Msg * list _MemoryMark) :=
  [(user "u1" forty, []); (assistant "a1" "one moment", []);
   (system "s1" "tool output", [])].

Definition w_mixed : @World unit (list (list Msg)) :=
  world mixed EmptyString (Some []).

Definition hook_keep_two : MemoryCompactionHook :=
  {| memory_compact_threshold := 5; keep_recent := 2 |}.

(** A command handler whose memory manager is switched off. *)
Definition handler_off : CommandHandler :=
  {| agent_name := "Friday"; _enable_memory_manager := false |}.

(** A tokenizer that can be loaded and yields one token per character of a
    string; the counter is the path it was loaded from. *)
#[export] Instance char_tokenizers : Tokenizers string := {|
  HuggingFaceTokenCounter := fun path => Ok path;
  tokenizer_encode := fun _ text =>
    match text with
    | PyStr s => Ok (map (fun c => Z.of_nat (nat_of_ascii c))
                         (list_ascii_of_string s))
    | _ => Raise (TypeError "text input must be of type str")
    end;
  local_tokenizer_path := "/opt/copaw/tokenizer";
  local_tokenizer_exists := true;
  HuggingFaceTokenCounter_Exception := ltac:(intros path e E; discriminate E);
  tokenizer_encode_Exception :=
    ltac:(intros tc text e E; destruct text; try discriminate E;
          injection E as <-; reflexivity)
|}.

(** A memory manager whose [compact_memory] fails; its state is the number
    of summary tasks it was given. *)
#[export] Instance failing_manager : MemoryManagerOps nat := {|
  add_async_summary_task := fun _ tasks => (S tasks, Ok tt);
  compact_memory := fun _ _ tasks =>
    (tasks, Raise (mkExn "TimeoutError" "the model did not answer"));
  summary_tasks_len := fun tasks => Z.of_nat tasks;
  await_summary_tasks := fun _ => (O, Ok "done")
|}.

(** An interpreter in whose environment
    [DEFAULT_COMPACT_TOOL_RESULT_MAX_LENGTH] is set to a text that is not an
    integer. *)
Definition builtins_malformed_env : Builtins (Z * Z) := {|
  str_of_value := fun _ => "<object>";
  int_of_str := fun s =>
    Raise (mkExn "ValueError"
             ("invalid literal for int() with base 10: '" +:+ s +:+ "'"));
  int_of_str_Exception :=
    ltac:(intros s e E; injection E as <-; reflexivity);
  environ_get := fun name =>
    if String.eqb name "DEFAULT_COMPACT_TOOL_RESULT_MAX_LENGTH"
    then Some "10k" else None;
  int_truediv := fun a b => (a, b);
  float_mul_int := fun x n => (fst x * n, snd x);
  float_format_1f := fun x =>
    pretty (fst x / snd x) +:+ "." +:+ pretty ((10 * fst x / snd x) mod 10);
  int_format_1f := fun z => pretty z +:+ ".0";
  fresh_msg_id := fun n => "msg-" +:+ pretty n
|}.

(** A memory manager whose [compact_memory] is cancelled while it waits for
    the model; its state tells whether a summary task was added. *)
#[export] Instance cancelled_manager : MemoryManagerOps bool := {|
  add_async_summary_task := fun _ _ => (true, Ok tt);
  compact_memory := fun _ _ added =>
    (added, Raise (CancelledError EmptyString));
  summary_tasks_len := fun added => if added then 1 else 0;
  await_summary_tasks := fun _ => (false, Ok "done")
|}.

(** A memory manager whose [compact_memory] raises a [RuntimeError]; its
    state is the number of summary tasks it was given, as an [int]. *)
#[export] Instance refusing_manager : MemoryManagerOps Z := {|
  add_async_summary_task := fun _ tasks => (tasks + 1, Ok tt);
  compact_memory := fun _ _ tasks =>
    (tasks, Raise (RuntimeError "no summary model is configured"));
  summary_tasks_len := fun tasks => tasks;
  await_summary_tasks := fun _ => (0, Ok "done")
|}.

(** A system prompt, followed by the two user messages and by the mixed
    messages. *)
Definition prompted_two : list (Msg * list _MemoryMark) :=
  (system "s0" "You are Friday.", []) :: two_users.

Definition w_prompted : @World unit (list (list Msg)) :=
  world prompted_two EmptyString (Some []).

Definition prompted_mixed : list (Msg * list _MemoryMark) :=
  (system "s0" "You are Friday.", []) :: mixed.

Definition w_prompted_mixed : @World unit (list (list Msg)) :=
  world prompted_mixed EmptyString (Some []).

(** The system prompt and the two user messages with the memory manager
    that is cancelled, and the two user messages with the one that
    refuses. *)
Definition w_cancelled : @World unit bool :=
  {| memory := {| content := prompted_two;
                  _compressed_summary := EmptyString |};
     memory_manager := Some false; _token_counter := None; msgs_created := 0;
     calls := [] |}.


(** The two user messages with the failing memory manager, and with the
    tokenizer already loaded. *)
Definition w_failing : @World unit nat :=
  {| memory := {| content := two_users; _compressed_summary := EmptyString |};
     memory_manager := Some O; _token_counter := None; msgs_created := 0;
     calls := [] |}.

Definition w_loaded : @World string (list (list Msg)) :=
  {| memory := {| content := two_users; _compressed_summary := EmptyString |};
     memory_manager := Some []; _token_counter := Some "/opt/copaw/tokenizer";
     msgs_created := 0; calls := [] |}.

(** One summary task is pending. *)
Definition w_pending : @World unit (list (list Msg)) :=
  world two_users EmptyString (Some [[user "a" forty]]).

Definition handler_on : CommandHandler :=
  {| agent_name := "Friday"; _enable_memory_manager := true |}.

(** A hook whose threshold the two messages do not reach. *)
Definition hook_high : MemoryCompactionHook :=
  {| memory_compact_threshold := 100; keep_recent := 1 |}.

(** A tool result whose output is a string, and an assistant message that
    holds it after a text block. *)
Definition tool_result (output : string) : pyval :=
  PyDict [("type", PyStr "tool_result"); ("id", PyStr "call-1");
          ("output", PyStr output)].

Definition tool_msg : Msg :=
  mkMsg "t1" "Friday" "assistant"
        (ContentBlocks [TextBlock "running"; tool_result "42 files"]).

(** A message one of whose blocks is not a dictionary. *)
Definition stray_msg : Msg :=
  mkMsg "m1" "Friday" "assistant"
        (ContentBlocks [TextBlock "fine"; PyStr "stray"]).

(** A user message, and after it the message with the tool result. *)
Definition w_tool : @World unit (list (list Msg)) :=
  world [(user "a" forty, []); (tool_msg, [])] EmptyString (Some []).

(** A user message, and after it the message with the stray block. *)
Definition w_stray : @World unit (list (list Msg)) :=
  world [(user "a" forty, []); (stray_msg, [])] EmptyString (Some []).


(** A list-valued output of text items. *)
Definition text_items (texts : list string) : dict :=
  [("type", PyStr "tool_result");
   ("output", PyList (map TextBlock texts))].

(** A validity check that refuses a list of messages which starts with an
    assistant message. *)
Definition helpers_no_leading_assistant : Helpers := {|
  check_valid_messages := fun msgs =>
    match msgs with
    | msg :: _ => negb (String.eqb (msg_role msg) "assistant")
    | [] => true
    end;
  _truncate_text := fun v n =>
    match v with
    | PyStr s => Ok (PyStr (String.substring 0 (Z.to_nat n) s))
    | _ => Ok v
    end;
  load_config_max_input_length := Ok 1000
|}.

End Demo.

(** * Properties *)

Section Properties.
Context {TokenCounter MemoryManager float : Type}.
Context `{!Tokenizers TokenCounter} `{!Formatter}
        `{!MemoryManagerOps MemoryManager} `{!Helpers} `{!Builtins float}.

Implicit Types (w : @World TokenCounter MemoryManager).

(** ** Commands *)

Lemma in_SYSTEM_COMMANDS (c : string) :
  c ∈ SYSTEM_COMMANDS <->
  c = "compact" \/ c = "new" \/ c = "clear" \/ c = "history"
  \/ c = "compact_str" \/ c = "await_summary".
Proof.
  unfold SYSTEM_COMMANDS. rewrite elem_of_list_to_set.
  rewrite !elem_of_cons, elem_of_nil. tauto.
Qed.

Lemma eqb_same_prefix (p a b : string) :
  String.eqb (p +:+ a) (p +:+ b) = String.eqb a b.
Proof.
  induction p as [|c p IH]; [reflexivity|].
  change (String.eqb (String c (p +:+ a)) (String c (p +:+ b)) = String.eqb a b).
  cbn [String.eqb]. now rewrite Ascii.eqb_refl.
Qed.

Lemma eqb_other_prefix (name p : string) :
  (forall c, name <> p +:+ c) -> forall c, String.eqb name (p +:+ c) = false.
Proof.
  intros Hne c. destruct (String.eqb_spec name (p +:+ c)) as [E|]; [|reflexivity].
  now destruct (Hne c).
Qed.

Ltac other_name :=
  let c := fresh "c" in
  let E := fresh "E" in
  intros c E; cbv [String.append] in E; discriminate E.

(** [getattr] on a name [_process_<command>] finds one of the six methods
    or nothing. *)
Lemma getattr_process_method (command : string) :
  getattr attributes ("_process_" +:+ command)
  = option_map ProcessMethod (handler_of_command command).
Proof.
  unfold handler_of_command, attributes. cbn [getattr].
  rewrite !(fun n H => eqb_other_prefix n "_process_" H command) by other_name.
  change "_process_compact" with ("_process_" +:+ "compact").
  change "_process_new" with ("_process_" +:+ "new").
  change "_process_clear" with ("_process_" +:+ "clear").
  change "_process_compact_str" with ("_process_" +:+ "compact_str").
  change "_process_history" with ("_process_" +:+ "history").
  change "_process_await_summary" with ("_process_" +:+ "await_summary").
  rewrite !eqb_same_prefix.
  repeat match goal with
         | |- context [String.eqb ?a command] =>
             destruct (String.eqb a command); try reflexivity
         end.
Qed.

Lemma handler_of_command_None (command : string) :
  handler_of_command command = None <-> command ∉ SYSTEM_COMMANDS.
Proof.
  rewrite in_SYSTEM_COMMANDS. unfold handler_of_command.
  repeat match goal with
         | |- context [String.eqb ?a command] =>
             destruct (String.eqb_spec a command)
         end; subst; split; intros Hc;
    try discriminate Hc; try reflexivity;
    try (exfalso; apply Hc; tauto);
    intros Hd; repeat destruct Hd as [Hd|Hd]; congruence.
Qed.

(** C2.  [is_command(query)] is [True] exactly when [query] is a string
    that starts with a slash and [query.strip().lstrip("/")] is one of the
    six command names; on [None] and on any other object that is not a
    string it is [False]. *)
Theorem is_command_spec (query : pyval) :
  (is_command query = true <->
   exists q : string,
     query = PyStr q /\ startswith q "/" = true /\
     let command := lstrip "/" (strip q) in
     command = "compact" \/ command = "new" \/ command = "clear"
     \/ command = "history" \/ command = "compact_str"
     \/ command = "await_summary")
  /\ is_command PyNone = false
  /\ ((forall q : string, query <> PyStr q) -> is_command query = false).
Proof.
  split; [|split].
  - destruct query as [| | |q| |]; cbn;
      try (split; [discriminate | intros (q' & E & _); discriminate E]).
    split.
    + intros Hq. exists q. split; [reflexivity|].
      destruct (startswith q "/"); [|discriminate Hq]. split; [reflexivity|].
      cbn in Hq. apply bool_decide_eq_true in Hq.
      now apply in_SYSTEM_COMMANDS.
    + intros (q' & E & Hs & Hc). injection E as <-. rewrite Hs. cbn.
      apply bool_decide_eq_true. now apply in_SYSTEM_COMMANDS.
  - reflexivity.
  - intros Hq. destruct query; try reflexivity. now destruct (Hq s).
Qed.

(** ** Token counting *)

Lemma with_token_counter_same w :
  with_token_counter (_token_counter w) w = w.
Proof. now destruct w. Qed.

Lemma counter_after_idem (tc : option TokenCounter) :
  counter_after (counter_after tc) = counter_after tc.
Proof.
  unfold counter_after, loaded_counter. destruct tc as [t|]; [reflexivity|].
  now destruct (HuggingFaceTokenCounter _).
Qed.

Lemma loaded_counter_after (tc : option TokenCounter) :
  loaded_counter (counter_after tc) = loaded_counter tc.
Proof.
  unfold counter_after, loaded_counter. destruct tc as [t|]; [reflexivity|].
  now destruct (HuggingFaceTokenCounter _).
Qed.

Lemma _get_token_counter_run w :
  _get_token_counter w
  = (with_token_counter (counter_after (_token_counter w)) w,
     loaded_counter (_token_counter w)).
Proof.
  unfold _get_token_counter, bind, get_world, counter_after, loaded_counter.
  destruct w as [m mm [t|] n cs]; cbn; [reflexivity|].
  now destruct (HuggingFaceTokenCounter _).
Qed.

Lemma count_message_tokens_run (messages : list dict) w :
  count_message_tokens messages w
  = (with_token_counter (counter_after (_token_counter w)) w,
     tokenizer_count (_token_counter w)
       (PyStr (_extract_text_from_messages messages))).
Proof.
  unfold count_message_tokens, bind, tokenizer_count.
  rewrite _get_token_counter_run.
  destruct (loaded_counter (_token_counter w)) as [t|e]; [|reflexivity].
  unfold lift, ret. now destruct (tokenizer_encode t _).
Qed.

(** What the tokenizer path raises derives from [Exception]. *)
Lemma tokenizer_count_Exception (tc : option TokenCounter) (text : pyval)
    (e : exn) :
  tokenizer_count tc text = Raise e -> is_Exception e = true.
Proof.
  unfold tokenizer_count, loaded_counter. destruct tc as [t|].
  - destruct (tokenizer_encode t text) eqn:E; [discriminate|].
    intros [= <-]. exact (tokenizer_encode_Exception _ _ _ E).
  - destruct (HuggingFaceTokenCounter _) as [t|e0] eqn:El.
    + destruct (tokenizer_encode t text) eqn:E; [discriminate|].
      intros [= <-]. exact (tokenizer_encode_Exception _ _ _ E).
    + intros [= <-]. exact (HuggingFaceTokenCounter_Exception _ _ El).
Qed.

Lemma py_len_Exception (v : pyval) (e : exn) :
  py_len v = Raise e -> is_Exception e = true.
Proof. destruct v; cbn; try discriminate; now intros [= <-]. Qed.

Lemma safe_count_message_tokens_run (messages : list dict) w :
  safe_count_message_tokens messages w
  = (with_token_counter (counter_after (_token_counter w)) w,
     Ok (message_tokens (_token_counter w) messages)).
Proof.
  unfold safe_count_message_tokens, try_except, message_tokens.
  rewrite count_message_tokens_run.
  destruct (tokenizer_count _ _) as [n|e] eqn:E; [reflexivity|].
  now rewrite (tokenizer_count_Exception _ _ _ E).
Qed.

Lemma safe_count_str_tokens_run (text : pyval) w :
  safe_count_str_tokens text w
  = (with_token_counter (counter_after (_token_counter w)) w,
     match py_len text with
     | Raise e => Raise e
     | Ok m =>
         match tokenizer_count (_token_counter w) text with
         | Ok n => Ok n
         | Raise _ => Ok (m / 4)
         end
     end).
Proof.
  pose proof (tokenizer_count_Exception (_token_counter w) text) as Hexc.
  unfold safe_count_str_tokens, try_except, bind, tokenizer_count in *.
  rewrite _get_token_counter_run.
  destruct (loaded_counter (_token_counter w)) as [t|e]; unfold lift, ret.
  - destruct (tokenizer_encode t text) as [ids|e].
    + destruct (py_len text) as [m|e] eqn:El; [reflexivity|].
      now rewrite (py_len_Exception _ _ El).
    + rewrite (Hexc e eq_refl). now destruct (py_len text).
  - rewrite (Hexc e eq_refl). now destruct (py_len text).
Qed.


(** ** Commands that need no memory manager, or have none *)

Lemma _make_system_msg_run (self : CommandHandler) (text : string) w :
  _make_system_msg self text w
  = (with_msg_created w,
     Ok {| msg_id := fresh_msg_id (msgs_created w);
           msg_name := agent_name self; msg_role := "assistant";
           msg_content := ContentBlocks [TextBlock text] |}).
Proof. reflexivity. Qed.

(** C6.  [/clear] empties the content of the memory and sets the compressed
    summary to the empty string, whatever the memory held and whether or not
    there is a memory manager, and answers with a message; [handle_command]
    on [/clear] does just that. *)
Theorem process_clear_spec (self : CommandHandler) (messages : list Msg) w :
  exists msg,
    _process_clear self messages w
    = (with_msg_created
         (with_memory {| content := []; _compressed_summary := EmptyString |} w),
       Ok msg)
    /\ handle_command self "/clear" w = _process_clear self messages w
    /\ msg_role msg = "assistant"
    /\ msg_text msg
       = Some ("**History Cleared!**" +:+ nl +:+ nl
               +:+ "- Compressed summary reset" +:+ nl
               +:+ "- Memory is now empty").
Proof. eexists. repeat split; reflexivity. Qed.

(** C9.  Without a usable memory manager, [/compact] and [/new] on a memory
    with messages, and [/await_summary], only answer with a message: the
    memory, the memory manager and the calls made are as before. *)
Theorem process_without_manager (self : CommandHandler) (messages : list Msg) w :
  snd (_has_memory_manager self w) = Ok false ->
  messages <> [] ->
  (exists msg, _process_compact self messages w = (with_msg_created w, Ok msg)
     /\ msg_text msg
        = Some ("**Memory Manager Disabled**" +:+ nl +:+ nl
                +:+ "- Memory compaction is not available" +:+ nl
                +:+ "- Enable memory manager to use this feature"))
  /\ (exists msg, _process_new self messages w = (with_msg_created w, Ok msg)
     /\ msg_text msg
        = Some ("**Memory Manager Disabled**" +:+ nl +:+ nl
                +:+ "- Cannot start new conversation with summary" +:+ nl
                +:+ "- Enable memory manager to use this feature"))
  /\ (exists msg,
       _process_await_summary self messages w = (with_msg_created w, Ok msg)
       /\ msg_text msg
          = Some ("**Memory Manager Disabled**" +:+ nl +:+ nl
                  +:+ "- Cannot await summary tasks" +:+ nl
                  +:+ "- Enable memory manager to use this feature"))
  /\ memory (with_msg_created w) = memory w
  /\ memory_manager (with_msg_created w) = memory_manager w
  /\ calls (with_msg_created w) = calls w.
Proof.
  intros Hmm Hne. cbn in Hmm.
  assert (Hb : _enable_memory_manager self
               && match memory_manager w with Some _ => true | None => false end
               = false) by congruence.
  destruct messages as [|m ms]; [congruence|].
  cbv [_process_compact _process_new _process_await_summary bind
         _has_memory_manager get_world ret].
  rewrite Hb. cbn [negb].
  repeat split; eexists; (split; [reflexivity|reflexivity]).
Qed.


(** ** The counts of a block *)

(** The [tool_result] case of [_get_block_tokens] in terms of [block.get]. *)
Lemma _get_block_tokens_tool_result (d : dict) :
  _get_block_tokens (PyDict d) (PyStr "tool_result")
  = match PyVal.lookup d "output"
          return @M TokenCounter MemoryManager (Z * pyval) with
    | Some (PyStr output) => count_if_truthy (PyStr output)
    | Some (PyList items) => tool_result_items items 0 EmptyString
    | _ => ret (0, PyStr EmptyString)
    end.
Proof.
  cbn. induction d as [|[k v] d IH]; [reflexivity|].
  cbn [PyVal.lookup]. destruct (String.eqb k "output"); [|exact IH].
  destruct v as [| | |output|items|]; reflexivity.
Qed.

(** ** The counts of the blocks of a message *)

Lemma py_len_nonneg (v : pyval) (n : Z) : py_len v = Ok n -> 0 <= n.
Proof.
  destruct v; cbn; intros [= <-]; unfold len; lia.
Qed.

Lemma tokenizer_count_nonneg (tc : option TokenCounter) (text : pyval) (n : Z) :
  tokenizer_count tc text = Ok n -> 0 <= n.
Proof.
  unfold tokenizer_count. destruct (loaded_counter tc) as [t|]; [|discriminate].
  destruct (tokenizer_encode t text); [|discriminate]. intros [= <-]. lia.
Qed.

Lemma counted_idem w : counted (counted w) = counted w.
Proof.
  unfold counted. cbn. rewrite counter_after_idem. now destruct w.
Qed.

Lemma counted_loaded w (token_counter : TokenCounter) :
  _token_counter w = Some token_counter -> counted w = w.
Proof.
  intros E. unfold counted, counter_after, loaded_counter. rewrite E.
  destruct w; cbn in *. now subst.
Qed.

Lemma pyval_nested_ind (P : pyval -> Prop) :
  P PyNone -> (forall b, P (PyBool b)) -> (forall z, P (PyInt z)) ->
  (forall s, P (PyStr s)) ->
  (forall l, Forall P l -> P (PyList l)) ->
  (forall d, Forall (fun kv => P (snd kv)) d -> P (PyDict d)) ->
  forall v, P v.
Proof.
  intros HN HB HI HS HL HD. fix IH 1.
  intros [|b|z|s|l|d]; [exact HN | apply HB | apply HI | apply HS | |].
  - apply HL. induction l as [|x l IHl]; constructor; [apply IH | exact IHl].
  - apply HD. induction d as [|[k x] d IHd]; constructor;
      [apply IH | exact IHd].
Qed.

(** [_get_block_tokens] on a dictionary, case by case, in terms of
    [block.get]. *)
Lemma _get_block_tokens_dict (d : dict) (block_type : pyval) :
  _get_block_tokens (PyDict d) block_type
  = if PyVal.eq_str block_type "text" then
      count_if_truthy (PyVal.get d "text" (PyStr EmptyString))
    else if PyVal.eq_str block_type "thinking" then
      count_if_truthy (PyVal.get d "thinking" (PyStr EmptyString))
    else if PyVal.eq_str block_type "tool_use" then tool_use_tokens d
    else if PyVal.eq_str block_type "tool_result" then
      match PyVal.lookup d "output"
            return @M TokenCounter MemoryManager (Z * pyval) with
      | Some (PyStr output) => count_if_truthy (PyStr output)
      | Some (PyList items) => tool_result_items items 0 EmptyString
      | _ => ret (0, PyStr EmptyString)
      end
    else if PyVal.eq_str block_type "image"
            || PyVal.eq_str block_type "audio"
            || PyVal.eq_str block_type "video" then media_tokens d
    else ret (0, PyStr EmptyString).
Proof.
  cbn. destruct (PyVal.eq_str block_type "text"); [reflexivity|].
  destruct (PyVal.eq_str block_type "thinking"); [reflexivity|].
  destruct (PyVal.eq_str block_type "tool_use"); [reflexivity|].
  destruct (PyVal.eq_str block_type "tool_result"); [|reflexivity].
  induction d as [|[k v] d IH]; [reflexivity|].
  cbn [PyVal.lookup]. destruct (String.eqb k "output"); [|exact IH].
  destruct v as [| | |output|items|]; reflexivity.
Qed.

Lemma counted_or_same_trans w w1 w2 :
  w1 = w \/ w1 = counted w -> w2 = w1 \/ w2 = counted w1 ->
  w2 = w \/ w2 = counted w.
Proof.
  intros [->| ->] [->| ->]; auto. right. apply counted_idem.
Qed.

Lemma safe_count_str_tokens_nonneg (text : pyval) w (n : Z) :
  snd (safe_count_str_tokens text w) = Ok n -> 0 <= n.
Proof.
  rewrite safe_count_str_tokens_run. cbn [snd].
  destruct (py_len text) as [m|] eqn:Hl; [|discriminate].
  destruct (tokenizer_count _ _) as [k|] eqn:Hc.
  - intros [= <-]. exact (tokenizer_count_nonneg _ _ _ Hc).
  - intros [= <-]. apply py_len_nonneg in Hl. apply Z.div_pos; lia.
Qed.

Lemma safe_count_str_tokens_Exception (text : pyval) w (e : exn) :
  snd (safe_count_str_tokens text w) = Raise e -> is_Exception e = true.
Proof.
  rewrite safe_count_str_tokens_run. cbn [snd].
  destruct (py_len text) as [m|e0] eqn:Hl.
  - now destruct (tokenizer_count _ _).
  - intros [= <-]. exact (py_len_Exception _ _ Hl).
Qed.

Lemma str_concat_Exception (a : string) (b : pyval) (e : exn) :
  str_concat a b = Raise e -> is_Exception e = true.
Proof. destruct b; cbn; try discriminate; now intros [= <-]. Qed.

(** A run that counts one text with [safe_count_str_tokens]. *)
Lemma counted_text_counts (v s : pyval) w :
  counts_from w
    (bind (safe_count_str_tokens v) (fun n => ret (n, s)) w).
Proof.
  unfold bind.
  pose proof (safe_count_str_tokens_nonneg v w) as Hn.
  pose proof (safe_count_str_tokens_Exception v w) as He.
  destruct (safe_count_str_tokens v w) as [w1 r] eqn:Hrun.
  rewrite safe_count_str_tokens_run in Hrun. injection Hrun as <- _.
  cbn [snd] in Hn, He.
  destruct r as [m|e]; cbn.
  - split; [now right|]. split; [|discriminate].
    intros n s' [= <- _]. now apply Hn.
  - split; [now right|]. split; [discriminate|].
    intros e' [= <-]. now apply He.
Qed.

Ltac counts_ret :=
  split; [now left|]; split;
  [ first [discriminate | intros ? ? [= <- _]; lia]
  | first [discriminate | intros ? [= <-]; reflexivity] ].

Lemma count_if_truthy_counts (v : pyval) w :
  counts_from w (count_if_truthy v w).
Proof.
  unfold count_if_truthy.
  destruct (PyVal.truthy v); [apply counted_text_counts | counts_ret].
Qed.

Lemma tool_use_tokens_counts (d : dict) w :
  counts_from w (tool_use_tokens d w).
Proof.
  unfold tool_use_tokens, bind, lift.
  destruct (str_concat _ _) as [total|e] eqn:Hc.
  - apply count_if_truthy_counts.
  - split; [now left|]. split; [discriminate|].
    intros e' [= <-]. exact (str_concat_Exception _ _ _ Hc).
Qed.

Lemma media_tokens_counts (d : dict) w :
  counts_from w (media_tokens d w).
Proof.
  unfold media_tokens.
  destruct (PyVal.get d "source" (PyDict [])) as [| | | | |source];
    try counts_ret.
  destruct (PyVal.eq_str (PyVal.get source "type" PyNone) "url");
    [apply counted_text_counts|].
  destruct (PyVal.eq_str (PyVal.get source "type" PyNone) "base64");
    [|counts_ret].
  destruct (PyVal.truthy _); [|counts_ret].
  unfold bind, lift.
  destruct (py_len _) as [m|e] eqn:Hl; cbn.
  - split; [now left|]. split; [|discriminate]. intros n s [= <- _].
    apply py_len_nonneg in Hl. apply Z.div_pos; lia.
  - split; [now left|]. split; [discriminate|].
    intros e' [= <-]. exact (py_len_Exception _ _ Hl).
Qed.

Lemma tool_result_items_counts (items : list pyval) :
  Forall (fun item => forall ty w, counts_from w (_get_block_tokens item ty w))
         items ->
  forall total_tokens total_str w,
    0 <= total_tokens ->
    counts_from w (tool_result_items items total_tokens total_str w).
Proof.
  induction 1 as [|item items Hitem _ IH]; intros total_tokens total_str w Hpos.
  - split; [now left|]. split; [|discriminate]. now intros n s [= <- _].
  - cbn [tool_result_items]. destruct item as [| | | | |di]; try now apply IH.
    unfold bind.
    destruct (Hitem (PyVal.get di "type" (PyStr "unknown")) w) as (Hw & Hn & He).
    destruct (_get_block_tokens (PyDict di) _ w) as [w1 [[n1 s1]|e]];
      cbn [fst snd] in *;
      [|split; [assumption|]; split; [discriminate|];
        intros e' [= <-]; now apply He].
    unfold lift. destruct (str_concat total_str s1) as [total_str'|e] eqn:Hc;
      [|split; [assumption|]; split; [discriminate|];
        intros e' [= <-]; exact (str_concat_Exception _ _ _ Hc)].
    specialize (Hn n1 s1 eq_refl).
    destruct (IH (total_tokens + n1) total_str' w1 ltac:(lia)) as (Hw' & Hn').
    split; [|exact Hn'].
    eapply counted_or_same_trans; eassumption.
Qed.

Lemma _get_block_tokens_counts (block : pyval) :
  forall ty w, counts_from w (_get_block_tokens block ty w).
Proof.
  enough (Hq : (forall ty w, counts_from w (_get_block_tokens block ty w))
               /\ (forall items, block = PyList items ->
                     Forall (fun item => forall ty w,
                               counts_from w (_get_block_tokens item ty w))
                            items)) by apply Hq.
  induction block as [|b|z|s|l IH|d IH] using pyval_nested_ind.
  1-5: split; [|try discriminate].
  1-5: try (intros ty w; cbn; destruct (_ || _); counts_ret).
  - intros items [= <-]. eapply Forall_impl; [exact IH|]. now intros x [Hx _].
  - split; [|discriminate]. intros ty w. rewrite _get_block_tokens_dict.
    destruct (PyVal.eq_str ty "text"); [apply count_if_truthy_counts|].
    destruct (PyVal.eq_str ty "thinking"); [apply count_if_truthy_counts|].
    destruct (PyVal.eq_str ty "tool_use"); [apply tool_use_tokens_counts|].
    destruct (PyVal.eq_str ty "tool_result").
    + destruct (PyVal.lookup d "output") as [[| | |output|items|]|] eqn:Hl;
        try counts_ret.
      * apply count_if_truthy_counts.
      * apply tool_result_items_counts; [|lia].
        assert (Hin : In ("output", PyList items) d).
        { clear IH. induction d as [|[k v] d IHd]; [discriminate|].
          cbn in Hl. destruct (String.eqb_spec k "output") as [->|].
          - left. congruence.
          - right. now apply IHd. }
        rewrite List.Forall_forall in IH.
        exact (proj2 (IH _ Hin) items eq_refl).
    + destruct (_ || _); [apply media_tokens_counts | counts_ret].
Qed.

(** ** The report of [/history] *)

Lemma join_parts_Exception (parts : list pyval) :
  forall i e, join_parts i parts = Raise e -> is_Exception e = true.
Proof.
  induction parts as [|v rest IH]; intros i e; cbn [join_parts];
    [discriminate|].
  destruct v; try (now intros [= <-]).
  destruct (join_parts (i + 1) rest) eqn:E; [discriminate|].
  intros [= <-]. exact (IH _ _ E).
Qed.

Lemma history_blocks_Exception (blocks : list pyval) :
  forall total_tokens text_parts block_infos w e,
    snd (history_blocks blocks total_tokens text_parts block_infos w) = Raise e ->
    is_Exception e = true.
Proof.
  induction blocks as [|block rest IH];
    intros total_tokens text_parts block_infos w e; cbn [history_blocks];
    [discriminate|].
  destruct block as [| | | | |d]; try (now intros [= <-]).
  unfold bind.
  destruct (_get_block_tokens_counts (PyDict d)
              (PyVal.get d "type" (PyStr "unknown")) w) as (_ & _ & He).
  destruct (_get_block_tokens (PyDict d) _ w) as [w1 [r|e0]]; cbn [snd] in *.
  - apply IH.
  - intros [= <-]. now apply He.
Qed.

(** What the [try] of a line raises derives from [Exception]: it is
    caught. *)
Lemma history_line_ok (i : Z) (msg : Msg) w :
  exists w' line, history_line i msg w = (w', Ok line).
Proof.
  unfold history_line, bind, try_except.
  destruct (msg_content msg) as [c|blocks].
  - pose proof (safe_count_str_tokens_Exception (PyStr c) w) as He.
    destruct (safe_count_str_tokens (PyStr c) w) as [w1 [n|e]];
      cbn [snd] in He; cbn; [eauto|].
    rewrite (He e eq_refl). cbn. eauto.
  - pose proof (history_blocks_Exception blocks 0 [] [] w) as He.
    destruct (history_blocks blocks 0 [] [] w) as [w1 [[[t tp] bi]|e]];
      cbn [snd] in He.
    + unfold lift. destruct (join_parts 0 tp) as [s|e] eqn:Hj; cbn; [eauto|].
      rewrite (join_parts_Exception _ _ _ Hj). cbn. eauto.
    + rewrite (He e eq_refl). cbn. eauto.
Qed.

Lemma history_lines_ok (messages : list Msg) : forall (i : Z) w,
  exists w' lines, history_lines i messages w = (w', Ok lines).
Proof.
  induction messages as [|msg rest IH]; intros i w; cbn [history_lines].
  - unfold ret. eauto.
  - unfold bind. destruct (history_line_ok i msg w) as (w1 & line & ->).
    destruct (IH (i + 1) w1) as (w2 & lines & ->). unfold ret. eauto.
Qed.

Lemma tokenizer_count_after (tc : option TokenCounter) (text : pyval) :
  tokenizer_count (counter_after tc) text = tokenizer_count tc text.
Proof. unfold tokenizer_count. now rewrite loaded_counter_after. Qed.

Lemma message_tokens_after (tc : option TokenCounter) (prompt : list dict) :
  message_tokens (counter_after tc) prompt = message_tokens tc prompt.
Proof. unfold message_tokens. now rewrite tokenizer_count_after. Qed.


Lemma history_stats_run (messages : list Msg) (prompt : list dict)
    (max : Z) w :
  formatter_format messages = Ok prompt ->
  load_config_max_input_length = Ok max ->
  let tc := _token_counter w in
  let summary := _compressed_summary (memory w) in
  let summary_tokens :=
    match tokenizer_count tc (PyStr summary) with
    | Ok n => n
    | Raise _ => len summary / 4
    end in
  let estimated := message_tokens tc prompt + summary_tokens in
  history_stats messages w
  = (with_token_counter (counter_after tc) (with_call (EvFormat messages) w),
     Ok {| compressed_summary_tokens := summary_tokens;
           messages_tokens := message_tokens tc prompt;
           estimated_tokens := estimated;
           max_input_length := max;
           context_usage_ratio :=
             if 0 <? max
             then NumFloat (float_mul_int (int_truediv estimated max) 100)
             else NumInt 0 |}).
Proof.
  intros Hf Hc tc summary summary_tokens estimated.
  cbv [history_stats bind get_world call_format emit modify lift ret].
  rewrite safe_count_str_tokens_run. cbn [py_len].
  fold tc summary.
  assert (Hs : match tokenizer_count tc (PyStr summary) with
               | Ok n => Ok n
               | Raise _ => Ok (len summary / 4)
               end = Ok summary_tokens).
  { unfold summary_tokens, MemoryOps.get_compressed_summary.
    now destruct (tokenizer_count tc (PyStr summary)). }
  unfold MemoryOps.get_compressed_summary. fold summary. rewrite Hs.
  rewrite Hf, safe_count_message_tokens_run. cbn [_token_counter with_call with_token_counter].
  rewrite message_tokens_after, counter_after_idem, Hc. fold estimated.
  destruct (0 <? max) eqn:Hpos.
  - unfold truediv. destruct (Z.eqb_spec max 0); [lia|].
    destruct w; reflexivity.
  - destruct w; reflexivity.
Qed.

(** The report of [/history] is made when the formatter and the
    configuration do not raise. *)
Lemma _process_history_ok (self : CommandHandler) (messages : list Msg)
    (prompt : list dict) (max : Z) w :
  formatter_format messages = Ok prompt ->
  load_config_max_input_length = Ok max ->
  exists st w' lines,
    snd (history_stats messages w) = Ok st
    /\ _process_history self messages w
       = (with_msg_created w',
          Ok {| msg_id := fresh_msg_id (msgs_created w');
                msg_name := agent_name self; msg_role := "assistant";
                msg_content :=
                  ContentBlocks
                    [TextBlock (history_head messages st
                                +:+ join (nl +:+ nl) lines)] |}).
Proof.
  intros Hf Hc.
  pose proof (history_stats_run messages prompt max w Hf Hc) as Hst.
  cbv zeta in Hst.
  destruct (history_lines_ok messages 1
              (with_token_counter (counter_after (_token_counter w))
                 (with_call (EvFormat messages) w))) as (w1 & lines & Hl).
  eexists _, w1, lines. split; [now rewrite Hst|].
  unfold _process_history, bind. rewrite Hst, Hl.
  now rewrite _make_system_msg_run.
Qed.

(** C5.  In the report of [/history], when formatting the messages and
    loading the configuration succeed: the estimated total is the count for
    the formatted messages plus the count for the compressed summary; the
    context usage is [estimated / max_input_length * 100] when
    [max_input_length > 0], a division that then succeeds, and the integer 0
    otherwise; and the report is made whatever [max_input_length] is, so no
    division by a divisor that is zero or negative is ever evaluated. *)
Theorem process_history_figures (self : CommandHandler) (messages : list Msg)
    (prompt : list dict) (max : Z) w :
  formatter_format messages = Ok prompt ->
  load_config_max_input_length = Ok max ->
  exists st w' msg lines,
    snd (history_stats messages w) = Ok st
    /\ _process_history self messages w = (w', Ok msg)
    /\ msg_text msg = Some (history_head messages st +:+ join (nl +:+ nl) lines)
    /\ snd (safe_count_message_tokens prompt w) = Ok (messages_tokens st)
    /\ snd (safe_count_str_tokens (PyStr (_compressed_summary (memory w))) w)
       = Ok (compressed_summary_tokens st)
    /\ estimated_tokens st = messages_tokens st + compressed_summary_tokens st
    /\ max_input_length st = max
    /\ (0 < max ->
        exists q, truediv (estimated_tokens st) max = Ok q
                  /\ context_usage_ratio st = NumFloat (float_mul_int q 100))
    /\ (max <= 0 -> context_usage_ratio st = NumInt 0).
Proof.
  intros Hf Hc.
  destruct (_process_history_ok self messages prompt max w Hf Hc)
    as (st & w1 & lines & Hst & Hp).
  pose proof (history_stats_run messages prompt max w Hf Hc) as Hrun.
  cbv zeta in Hrun. rewrite Hrun in Hst. cbn [snd] in Hst.
  injection Hst as Hst.
  exists st, (with_msg_created w1). eexists. exists lines.
  split; [now rewrite Hrun, Hst|]. split; [apply Hp|].
  split; [reflexivity|].
  rewrite safe_count_message_tokens_run, safe_count_str_tokens_run.
  cbn [snd py_len]. subst st. cbn.
  split; [reflexivity|]. split.
  { now destruct (tokenizer_count _ _). }
  split; [reflexivity|]. split; [reflexivity|]. split.
  - intros Hpos. eexists. split.
    + unfold truediv. destruct (Z.eqb_spec max 0); [lia|reflexivity].
    + destruct (Z.ltb_spec 0 max); [reflexivity|lia].
  - intros Hneg. destruct (Z.ltb_spec 0 max); [lia|reflexivity].
Qed.


(** ** The dispatch of commands *)

Lemma call_memory_manager_run {A} (method : string) (ev : Event)
    (op : MemoryManager -> MemoryManager * result A) (mm : MemoryManager) w :
  memory_manager w = Some mm ->
  call_memory_manager method ev op w
  = (with_memory_manager (Some (fst (op mm))) (with_call ev w), snd (op mm)).
Proof.
  intros Hmm. cbv [call_memory_manager bind get_world emit modify
                   set_memory_manager lift ret].
  rewrite Hmm. now destruct (op mm).
Qed.



(** ** The split of the messages *)

Lemma slice_to_from {A} (l : list A) (i : Z) :
  slice_to l i ++ slice_from l i = l.
Proof. apply take_drop. Qed.

Lemma slice_from_of_nat {A} (l : list A) (n : nat) :
  slice_from l (Z.of_nat n) = drop n l.
Proof.
  unfold slice_from, slice_bound.
  destruct (Z.ltb_spec (Z.of_nat n) 0); [lia|].
  destruct (Nat.le_gt_cases n (length l)).
  - f_equal. lia.
  - rewrite !drop_ge by lia. reflexivity.
Qed.

Lemma length_slice_from_neg {A} (l : list A) (k : Z) :
  0 < k ->
  Z.of_nat (length (slice_from l (- k))) = Z.min k (Z.of_nat (length l)).
Proof.
  intros Hk. unfold slice_from, slice_bound. rewrite length_drop.
  destruct (Z.ltb_spec (- k) 0); lia.
Qed.

Lemma system_prefix_take (messages : list Msg) :
  system_prefix messages = take (length (system_prefix messages)) messages.
Proof.
  induction messages as [|msg rest IH]; [reflexivity|]. cbn.
  destruct (String.eqb (msg_role msg) "system"); [|reflexivity].
  cbn. now rewrite <- IH.
Qed.

Lemma system_prefix_roles (messages : list Msg) :
  Forall (fun msg => msg_role msg = "system") (system_prefix messages).
Proof.
  induction messages as [|msg rest IH]; cbn; [constructor|].
  destruct (String.eqb_spec (msg_role msg) "system"); constructor; assumption.
Qed.

Lemma keep_length_loop_le (fuel : nat) (remaining : list Msg) (k : Z) :
  keep_length_loop fuel remaining k <= k.
Proof.
  revert k. induction fuel as [|fuel IH]; intros k; cbn; [lia|].
  destruct (_ && _); [|lia]. specialize (IH (k - 1)). lia.
Qed.

Lemma keep_length_loop_ge (fuel : nat) (remaining : list Msg) (k : Z) :
  Z.min 0 k <= keep_length_loop fuel remaining k.
Proof.
  revert k. induction fuel as [|fuel IH]; intros k; cbn; [lia|].
  destruct (Z.ltb_spec 0 k); cbn [andb]; [|lia].
  destruct (negb _); [|lia]. specialize (IH (k - 1)). lia.
Qed.

(** The fuel given to the loop is enough: the result satisfies the exit
    condition of the [while]. *)
Lemma keep_length_loop_exit (remaining : list Msg) (k : Z) :
  let r := keep_length_loop (Z.to_nat k) remaining k in
  (0 <? r) && negb (check_valid_messages (slice_from remaining (- r))) = false.
Proof.
  cbv zeta.
  assert (Hgen : forall fuel k', (Z.to_nat k' <= fuel)%nat ->
    let r := keep_length_loop fuel remaining k' in
    (0 <? r) && negb (check_valid_messages (slice_from remaining (- r))) = false).
  { induction fuel as [|fuel IH]; intros k' Hk'; cbn.
    - destruct (Z.ltb_spec 0 k'); [lia|reflexivity].
    - destruct ((0 <? k') && negb (check_valid_messages (slice_from remaining (- k')))) eqn:Hc.
      + apply IH. lia.
      + exact Hc. }
  apply Hgen. lia.
Qed.

Lemma split_messages_Some (self : MemoryCompactionHook) (messages : list Msg)
    (sys to_compact to_keep : list Msg) :
  split_messages self messages = Some (sys, to_compact, to_keep) ->
  sys = system_prefix messages
  /\ to_compact ++ to_keep = drop (length sys) messages
  /\ messages = sys ++ to_compact ++ to_keep
  /\ keep_recent self < Z.of_nat (length (to_compact ++ to_keep))
  /\ Z.of_nat (length to_keep) <= Z.max 0 (keep_recent self).
Proof.
  unfold split_messages. rewrite slice_from_of_nat.
  set (sp := system_prefix messages).
  set (remaining := drop (length sp) messages).
  destruct (Z.leb_spec (Z.of_nat (length remaining)) (keep_recent self)) as [|Hlen];
    [discriminate|].
  set (k := keep_length_loop _ _ _).
  assert (Hk : k <= keep_recent self) by apply keep_length_loop_le.
  assert (Hsp : messages = sp ++ remaining).
  { subst remaining sp.
    etransitivity;
      [symmetry; apply (take_drop (length (system_prefix messages)))|].
    now rewrite <- system_prefix_take. }
  destruct (Z.ltb_spec 0 k) as [Hpos|Hneg]; intros [= <- <- <-].
  - rewrite slice_to_from. repeat split; try assumption.
    rewrite length_slice_from_neg by assumption. lia.
  - rewrite app_nil_r. repeat split; try assumption. cbn. lia.
Qed.

Lemma split_messages_None (self : MemoryCompactionHook) (messages : list Msg) :
  split_messages self messages = None <->
  Z.of_nat (length (drop (length (system_prefix messages)) messages))
  <= keep_recent self.
Proof.
  unfold split_messages. rewrite slice_from_of_nat.
  match goal with |- context [?a <=? ?b] => destruct (Z.leb_spec a b) end.
  - tauto.
  - match goal with |- context [if ?c then _ else _] => destruct c end;
      split; intros; first [discriminate | lia].
Qed.


(** The leading run of system messages ends at the first message of
    another role. *)
Lemma system_prefix_stops (messages : list Msg) (m : Msg) (rest : list Msg) :
  drop (length (system_prefix messages)) messages = m :: rest ->
  msg_role m <> "system".
Proof.
  induction messages as [|msg l IH]; [discriminate|]. cbn [system_prefix].
  destruct (String.eqb_spec (msg_role msg) "system") as [|Hne]; cbn.
  - exact IH.
  - now intros [= <- _].
Qed.

(** The roles around the split: the system prompt holds system messages
    only, and the first message after it, if any, is not a system message. *)
Lemma split_messages_roles (self : MemoryCompactionHook) (messages : list Msg)
    (sys to_compact to_keep : list Msg) :
  split_messages self messages = Some (sys, to_compact, to_keep) ->
  Forall (fun m => msg_role m = "system") sys
  /\ (forall m rest, to_compact ++ to_keep = m :: rest ->
      msg_role m <> "system").
Proof.
  intros Hs. destruct (split_messages_Some _ _ _ _ _ Hs) as (-> & Hrest & _).
  split; [apply system_prefix_roles|].
  intros m rest E. rewrite Hrest in E. exact (system_prefix_stops _ _ _ E).
Qed.

(** ** The runs of the hook *)

Lemma last_item_None {A} (l : list A) : last_item l = None <-> l = [].
Proof. apply last_None. Qed.

(** The body of the hook runs as [hook_run] says. *)
Lemma hook_body_run (self : MemoryCompactionHook) w :
  hook_run self w (fst (hook_body self w)) (snd (hook_body self w)).
Proof.
  cbv [hook_body bind get_world ret raise call_format emit modify lift
       call_memory_manager set_memory_manager memory_update_compressed_summary
       memory_update_messages_mark set_memory].
  destruct (last_item (MemoryOps.get_memory COMPRESSED (memory w))) as [lst|] eqn:Hl.
  2:{ apply last_item_None in Hl. cbn. now constructor. }
  assert (Hne : MemoryOps.get_memory COMPRESSED (memory w) <> []).
  { intros E. apply last_item_None in E. congruence. }
  destruct (split_messages self _) as [[[sys tc] tk]|] eqn:Hs.
  2:{ cbn. now constructor. }
  destruct (truncate_kept sys tc tk w) as [w1 [[]|e]] eqn:Ht.
  2:{ cbn. eapply RunTruncateRaises; eassumption. }
  destruct (formatter_format tc) as [prompt|e] eqn:Hf.
  2:{ cbn. eapply RunFormatRaises; eassumption. }
  rewrite safe_count_message_tokens_run. cbn.
  destruct (Z.ltb_spec (memory_compact_threshold self)
              (message_tokens (_token_counter w1) prompt)) as [Hlt|Hle].
  2:{ cbn. eapply RunBelow; eassumption. }
  cbn.
  destruct (memory_manager w1) as [mm|] eqn:Hmm.
  2:{ cbn. eapply RunNoManager; eassumption. }
  cbn.
  destruct (add_async_summary_task tc mm) as [mm1 [[]|e]] eqn:Ha.
  2:{ cbn. eapply RunAddRaises; eassumption. }
  cbn. unfold MemoryOps.get_compressed_summary.
  destruct (compact_memory tc (_compressed_summary (memory w1)) mm1)
    as [mm2 [summary|e]] eqn:Hc.
  2:{ cbn. eapply RunCompactRaises; eassumption. }
  cbn. eapply RunCompacted; eassumption.
Qed.


(** ** Truncating the kept messages leaves ids and marks alone *)

Lemma mutate_each_map {A B} (f : A -> A * option exn) (g : A -> B) :
  (forall x, g (fst (f x)) = g x) ->
  forall l, map g (fst (mutate_each f l)) = map g l.
Proof.
  intros Hf. induction l as [|x rest IH]; [reflexivity|]. cbn.
  specialize (Hf x). destruct (f x) as [x' [e|]]; cbn in *.
  - now rewrite Hf.
  - destruct (mutate_each f rest) as [rest' r]. cbn in *. now rewrite Hf, IH.
Qed.

Lemma truncate_msg_id (max_length : Z) (msg : Msg) :
  msg_id (fst (truncate_msg max_length msg)) = msg_id msg.
Proof.
  unfold truncate_msg. destruct (msg_content msg); [reflexivity|].
  destruct (get_content_blocks _ _); [|reflexivity].
  now destruct (mutate_each _ _).
Qed.

Lemma _truncate_tool_result_texts_ids (messages : list Msg) :
  map msg_id (fst (_truncate_tool_result_texts messages)) = map msg_id messages.
Proof.
  unfold _truncate_tool_result_texts.
  destruct default_max_length as [n|e]; [|reflexivity].
  apply mutate_each_map, truncate_msg_id.
Qed.

Lemma subscript_type_typed (block : pyval) :
  (exists ty, subscript_type block = Ok ty) <-> typed_block block.
Proof.
  unfold typed_block. split.
  - intros (ty & Hty). destruct block as [| | | | |d]; try discriminate Hty.
    cbn in Hty. destruct (PyVal.lookup d "type") as [v|] eqn:Hl;
      [|discriminate Hty]. now exists d, v.
  - intros (d & ty & -> & Hl). exists ty. cbn. now rewrite Hl.
Qed.

(** [get_content_blocks] raises exactly when one of the blocks is not a
    dictionary with a type. *)
Lemma get_content_blocks_raises (block_type : string) (blocks : list pyval) :
  (exists e, get_content_blocks block_type blocks = Raise e)
  <-> Exists (fun block => ~ typed_block block) blocks.
Proof.
  induction blocks as [|block rest IH]; cbn [get_content_blocks].
  - split; [intros (e & He); discriminate He | intros Hex; inversion Hex].
  - pose proof (subscript_type_typed block) as Hty.
    destruct (subscript_type block) as [ty|e0].
    + assert (Hb : typed_block block) by (apply Hty; eauto).
      destruct (get_content_blocks block_type rest) as [selected|e1].
      * split; [intros (e & He); discriminate He|].
        intros Hex. apply Exists_cons in Hex as [Hex|Hex];
          [contradiction|]. apply IH in Hex as (e & He). discriminate He.
      * split; [|eauto]. intros _. right. apply IH. eauto.
    + split; [|eauto]. intros _. left. intros Hb. apply Hty in Hb as (ty & E).
      discriminate E.
Qed.

Lemma get_content_blocks_returns (block_type : string) (blocks : list pyval)
    (selected : list pyval) :
  get_content_blocks block_type blocks = Ok selected ->
  Forall typed_block blocks.
Proof.
  revert selected. induction blocks as [|block rest IH]; intros selected;
    cbn [get_content_blocks]; [constructor|].
  pose proof (subscript_type_typed block) as Hty.
  destruct (subscript_type block) as [ty|e0]; [|discriminate].
  destruct (get_content_blocks block_type rest) as [sel|e1]; [|discriminate].
  intros _. constructor; [apply Hty; eauto | eapply IH; reflexivity].
Qed.

(** The blocks that [get_content_blocks("tool_result")] hands out are the
    blocks that [truncate_block] acts on. *)
Lemma get_content_blocks_selected (blocks selected : list pyval) :
  get_content_blocks "tool_result" blocks = Ok selected ->
  selected = List.filter is_tool_result blocks.
Proof.
  revert selected. induction blocks as [|block rest IH]; intros selected;
    cbn [get_content_blocks List.filter]; [now intros [= <-]|].
  destruct block as [| | | | |d]; try discriminate. cbn [subscript_type].
  destruct (PyVal.lookup d "type") as [ty|] eqn:Hl; [|discriminate].
  destruct (get_content_blocks "tool_result" rest) as [sel|e1];
    [|discriminate].
  intros [= <-]. unfold is_tool_result, PyVal.get. rewrite Hl.
  rewrite (IH sel eq_refl). reflexivity.
Qed.








Lemma write_back_marks (entries : list (Msg * list _MemoryMark)) :
  forall new : list Msg,
  map msg_id new
  = map msg_id (map fst (List.filter
      (fun e => negb (MemoryOps.has_mark COMPRESSED (snd e))) entries)) ->
  map (fun e => (msg_id (fst e), snd e)) (write_back new entries)
  = map (fun e => (msg_id (fst e), snd e)) entries.
Proof.
  induction entries as [|e rest IH]; intros new Hn; [reflexivity|].
  cbn in *. destruct (MemoryOps.has_mark COMPRESSED (snd e)); cbn in *.
  - f_equal. now apply IH.
  - destruct new as [|m new']; [discriminate Hn|]. cbn in *.
    injection Hn as Hm Hn. rewrite Hm. f_equal. now apply IH.
Qed.

(** Putting back the messages that were read changes nothing. *)
Lemma write_back_same (m : Memory) :
  write_back (MemoryOps.get_memory COMPRESSED m) (content m) = content m.
Proof.
  unfold MemoryOps.get_memory. induction (content m) as [|e rest IH];
    [reflexivity|].
  cbn. destruct (MemoryOps.has_mark COMPRESSED (snd e)) eqn:Hm; cbn.
  - now rewrite IH.
  - rewrite IH. now destruct e.
Qed.

(** What is put back is what is read afterwards. *)
Lemma get_memory_write_back (entries : list (Msg * list _MemoryMark)) :
  forall new : list Msg,
  length new
  = length (List.filter
      (fun e => negb (MemoryOps.has_mark COMPRESSED (snd e))) entries) ->
  map fst (List.filter (fun e => negb (MemoryOps.has_mark COMPRESSED (snd e)))
             (write_back new entries))
  = new.
Proof.
  induction entries as [|e rest IH]; intros new Hn.
  - now destruct new.
  - cbn in *. destruct (MemoryOps.has_mark COMPRESSED (snd e)) eqn:Hm; cbn in *.
    + rewrite Hm. cbn. now apply IH.
    + destruct new as [|x new']; [discriminate Hn|]. cbn. rewrite Hm. cbn.
      f_equal. apply IH. now injection Hn.
Qed.

Lemma truncate_kept_frame (sys to_compact to_keep : list Msg) w w1
    (r : result unit) :
  truncate_kept sys to_compact to_keep w = (w1, r) ->
  calls w1 = calls w
  /\ memory_manager w1 = memory_manager w
  /\ _token_counter w1 = _token_counter w
  /\ _compressed_summary (memory w1) = _compressed_summary (memory w)
  /\ (MemoryOps.get_memory COMPRESSED (memory w) = sys ++ to_compact ++ to_keep ->
      marks_of (memory w1) = marks_of (memory w)).
Proof.
  unfold truncate_kept. destruct to_keep as [|m tk].
  - intros [= <- <-]. repeat split.
  - pose proof (_truncate_tool_result_texts_ids (m :: tk)) as Hids.
    destruct (_truncate_tool_result_texts (m :: tk)) as [kept e].
    cbv [bind get_world set_memory modify ret raise].
    intros Hr.
    assert (Hw : w1 = with_memory
      {| content := write_back (sys ++ to_compact ++ kept) (content (memory w));
         _compressed_summary := _compressed_summary (memory w) |} w).
    { destruct e; injection Hr as <- _; reflexivity. }
    subst w1. repeat split. intros Hm. unfold marks_of. cbn.
    apply write_back_marks. unfold MemoryOps.get_memory in Hm. rewrite Hm.
    rewrite !map_app. cbn in Hids. now rewrite Hids.
Qed.

Lemma truncate_kept_result (sys to_compact to_keep : list Msg) w :
  snd (truncate_kept sys to_compact to_keep w)
  = match to_keep with
    | [] => Ok tt
    | _ =>
        match snd (_truncate_tool_result_texts to_keep) with
        | Some e => Raise e
        | None => Ok tt
        end
    end.
Proof.
  unfold truncate_kept. destruct to_keep as [|m tk]; [reflexivity|].
  destruct (_truncate_tool_result_texts (m :: tk)) as [kept [e|]]; reflexivity.
Qed.


(** ** Marks *)

Lemma new_calls_app w w' (evs : list Event) :
  calls w' = calls w ++ evs -> new_calls w w' = evs.
Proof. intros E. unfold new_calls. rewrite E. apply drop_app_length. Qed.

Lemma compressed_ids_spec (m : Memory) (i : string) :
  In i (compressed_ids m) <->
  exists marks, In (i, marks) (marks_of m)
                /\ MemoryOps.has_mark COMPRESSED marks = true.
Proof.
  unfold compressed_ids, marks_of. rewrite in_map_iff. split.
  - intros (e & <- & He). apply filter_In in He as [He Hm].
    exists (snd e). split; [|assumption].
    apply in_map_iff. now exists e.
  - intros (marks & Hi & Hm). apply in_map_iff in Hi as (e & [= <- <-] & He).
    exists e. split; [reflexivity|]. apply filter_In. now split.
Qed.

Lemma marks_of_visible (m : Memory) (msg : Msg) :
  In msg (MemoryOps.get_memory COMPRESSED m) ->
  exists marks, In (msg_id msg, marks) (marks_of m)
                /\ MemoryOps.has_mark COMPRESSED marks = false.
Proof.
  unfold MemoryOps.get_memory, marks_of. intros Hin.
  apply in_map_iff in Hin as (e & <- & He). apply filter_In in He as [He Hm].
  exists (snd e). split.
  - apply in_map_iff. now exists e.
  - now destruct (MemoryOps.has_mark COMPRESSED (snd e)).
Qed.

Lemma has_mark_app_same (mark : _MemoryMark) (marks : list _MemoryMark) :
  MemoryOps.has_mark mark (marks ++ [mark]) = true.
Proof.
  unfold MemoryOps.has_mark. apply bool_decide_eq_true.
  apply elem_of_app. right. apply list_elem_of_singleton. reflexivity.
Qed.

Lemma marks_of_marked_inv (ids : list string) (m : Memory) (i : string)
    (marks' : list _MemoryMark) :
  In (i, marks')
     (marks_of (fst (MemoryOps.update_messages_mark COMPRESSED ids m))) ->
  exists marks,
    In (i, marks) (marks_of m)
    /\ (marks' = marks
        \/ (existsb (String.eqb i) ids = true /\ marks' = marks ++ [COMPRESSED])).
Proof.
  unfold marks_of, MemoryOps.update_messages_mark. cbn. rewrite map_map.
  intros Hin. apply in_map_iff in Hin as (e & He & Hin).
  unfold MemoryOps.mark_entry, MemoryOps.id_in in He.
  destruct (existsb (String.eqb (msg_id (fst e))) ids) eqn:Hid; cbn in He.
  - destruct (MemoryOps.has_mark COMPRESSED (snd e)); cbn in He;
      injection He as <- <-; exists (snd e);
      (split; [apply in_map_iff; now exists e|]); auto.
  - injection He as <- <-. exists (snd e).
    split; [apply in_map_iff; now exists e|]. auto.
Qed.

Lemma marks_of_marked (ids : list string) (m : Memory) (i : string)
    (marks : list _MemoryMark) :
  In (i, marks) (marks_of m) ->
  existsb (String.eqb i) ids = true ->
  In i (compressed_ids (fst (MemoryOps.update_messages_mark COMPRESSED ids m))).
Proof.
  intros Hin Hid. apply compressed_ids_spec.
  unfold marks_of in Hin. apply in_map_iff in Hin as (e & [= <- <-] & He).
  exists (snd (MemoryOps.mark_entry COMPRESSED ids e)). split.
  - unfold marks_of, MemoryOps.update_messages_mark. cbn. rewrite map_map.
    apply in_map_iff. exists e. split; [|assumption].
    unfold MemoryOps.mark_entry. now destruct (_ && _).
  - unfold MemoryOps.mark_entry, MemoryOps.id_in. rewrite Hid. cbn.
    destruct (MemoryOps.has_mark COMPRESSED (snd e)) eqn:Hm; cbn;
      [assumption | apply has_mark_app_same].
Qed.

Lemma existsb_eqb_In (i : string) (ids : list string) :
  existsb (String.eqb i) ids = true <-> In i ids.
Proof.
  rewrite existsb_exists. split.
  - intros (x & Hx & E). apply String.eqb_eq in E. now subst.
  - intros Hi. exists i. split; [assumption | apply String.eqb_refl].
Qed.


(** ** When the hook compacts *)

Lemma hook_call_run (self : MemoryCompactionHook) (kwargs : dict) w :
  MemoryCompactionHook_call self kwargs w
  = (logged (fst (hook_body self w)) (snd (hook_body self w)),
     hook_result (snd (hook_body self w))).
Proof.
  unfold MemoryCompactionHook_call, bind, try_except, ret, emit, modify,
    logged, hook_result.
  destruct (hook_body self w) as [w1 [[]|e]]; cbn [fst snd]; [reflexivity|].
  now destruct (is_Exception e).
Qed.

Lemma hook_call_world (self : MemoryCompactionHook) (kwargs : dict) w :
  fst (MemoryCompactionHook_call self kwargs w)
  = logged (fst (hook_body self w)) (snd (hook_body self w)).
Proof. now rewrite hook_call_run. Qed.

Lemma hook_call_logged (self : MemoryCompactionHook) (kwargs : dict) w :
  exists wb r,
    hook_run self w wb r
    /\ fst (MemoryCompactionHook_call self kwargs w) = logged wb r.
Proof.
  exists (fst (hook_body self w)), (snd (hook_body self w)).
  split; [apply hook_body_run | apply hook_call_world].
Qed.

(** A call of the hook is a run of the body, followed by the handler. *)
Lemma hook_call_cases (self : MemoryCompactionHook) (kwargs : dict) w :
  exists wb r,
    hook_run self w wb r
    /\ MemoryCompactionHook_call self kwargs w = (logged wb r, hook_result r).
Proof.
  exists (fst (hook_body self w)), (snd (hook_body self w)).
  split; [apply hook_body_run | apply hook_call_run].
Qed.

Lemma is_Exception_IndexError (text : string) :
  is_Exception (IndexError text) = true.
Proof. reflexivity. Qed.

Lemma is_Exception_AttributeError (text : string) :
  is_Exception (AttributeError text) = true.
Proof. reflexivity. Qed.

(** Whether the exception that ended the body is logged or leaves the
    hook. *)
Ltac log_cases :=
  unfold logged, hook_result in *;
  rewrite ?is_Exception_IndexError, ?is_Exception_AttributeError in *;
  try match goal with
      | e : exn |- _ =>
          match goal with
          | |- context [is_Exception e] => destruct (is_Exception e) eqn:?
          | H : context [is_Exception e] |- _ =>
              destruct (is_Exception e) eqn:?
          end
      end.

Ltac frame_of H :=
  let Hc := fresh "Hcalls" in
  let Hm := fresh "Hmanager" in
  let Ht := fresh "Hcounter" in
  let Hs := fresh "Hsummary" in
  let Hk := fresh "Hmarks" in
  destruct (truncate_kept_frame _ _ _ _ _ _ H) as (Hc & Hm & Ht & Hs & Hk).

Ltac calls_of :=
  match goal with
  | |- context [new_calls ?w ?w'] =>
      let evs := fresh "evs" in
      let E := fresh "E" in
      evar (evs : list Event);
      assert (E : calls w' = calls w ++ evs);
      [ cbn; try match goal with H : calls _ = calls w |- _ => rewrite H end;
        rewrite <- ?app_assoc; cbn; subst evs;
        first [ reflexivity | symmetry; apply app_nil_r ]
      | rewrite (new_calls_app _ _ _ E); subst evs ]
  end.


Lemma truncate_kept_returned (sys to_compact to_keep : list Msg) w w1 :
  truncate_kept sys to_compact to_keep w = (w1, Ok tt) ->
  to_keep = [] \/ snd (_truncate_tool_result_texts to_keep) = None.
Proof.
  intros Ht. pose proof (truncate_kept_result sys to_compact to_keep w) as Hres.
  rewrite Ht in Hres. cbn [snd] in Hres.
  destruct to_keep as [|m tk]; [now left|]. right.
  now destruct (snd (_truncate_tool_result_texts (m :: tk))).
Qed.




(** When the hook calls [compact_memory], in terms of [message_tokens]. *)
Lemma hook_compaction_cases (self : MemoryCompactionHook) (kwargs : dict) w :
  let w' := fst (MemoryCompactionHook_call self kwargs w) in
  let messages := MemoryOps.get_memory COMPRESSED (memory w) in
  let previous := _compressed_summary (memory w) in
  (forall msgs prev,
     In (EvCompactMemory msgs prev) (new_calls w w') ->
     exists sys to_keep prompt,
       split_messages self messages = Some (sys, msgs, to_keep)
       /\ keep_recent self < Z.of_nat (length (msgs ++ to_keep))
       /\ (to_keep = [] \/ snd (_truncate_tool_result_texts to_keep) = None)
       /\ formatter_format msgs = Ok prompt
       /\ memory_compact_threshold self
          < message_tokens (_token_counter w) prompt
       /\ prev = previous)
  /\ (forall sys to_compact to_keep prompt mm mm1 mm2 summary,
       messages <> [] ->
       split_messages self messages = Some (sys, to_compact, to_keep) ->
       to_keep = [] \/ snd (_truncate_tool_result_texts to_keep) = None ->
       formatter_format to_compact = Ok prompt ->
       memory_compact_threshold self
       < message_tokens (_token_counter w) prompt ->
       memory_manager w = Some mm ->
       add_async_summary_task to_compact mm = (mm1, Ok tt) ->
       compact_memory to_compact previous mm1 = (mm2, Ok summary) ->
       snd (MemoryCompactionHook_call self kwargs w) = Ok None
       /\ new_calls w w'
          = [EvFormat to_compact; EvAddAsyncSummaryTask to_compact;
             EvCompactMemory to_compact previous]
       /\ memory_manager w' = Some mm2
       /\ _compressed_summary (memory w') = summary
       /\ (forall m, In m to_compact ->
           In (msg_id m) (compressed_ids (memory w'))))
  /\ ((forall msgs prev, ~ In (EvCompactMemory msgs prev) (new_calls w w')) ->
      _compressed_summary (memory w') = previous
      /\ marks_of (memory w') = marks_of (memory w)).
Proof.
  intros w' messages previous.
  destruct (hook_call_cases self kwargs w) as (wb & r & Hrun & Hcall).
  assert (Hw' : w' = logged wb r) by (subst w'; now rewrite Hcall).
  assert (Hres : snd (MemoryCompactionHook_call self kwargs w) = hook_result r)
    by now rewrite Hcall.
  clearbody w'. subst w'. clear Hcall.
  split; [|split].
  - (* only if *)
    clear Hres. intros msgs prev Hin.
    destruct Hrun as
      [ Hempty | Hne Hs | sys tc tk w1 e Hs Ht | sys tc tk w1 e Hs Ht Hf
      | sys tc tk w1 prompt Hs Ht Hf Hle
      | sys tc tk w1 prompt Hs Ht Hf Hlt Hmm
      | sys tc tk w1 prompt mm mm1 e Hs Ht Hf Hlt Hmm Ha
      | sys tc tk w1 prompt mm mm1 mm2 e Hs Ht Hf Hlt Hmm Ha Hc
      | sys tc tk w1 prompt mm mm1 mm2 summary Hs Ht Hf Hlt Hmm Ha Hc ];
      log_cases; try frame_of Ht; revert Hin; calls_of; cbn;
      intros Hin; repeat destruct Hin as [Hin|Hin];
      try discriminate Hin; try contradiction.
    all: injection Hin as <- <-.
    all: destruct (split_messages_Some _ _ _ _ _ Hs) as (_ & _ & _ & Hk & _).
    all: pose proof (truncate_kept_returned _ _ _ _ _ Ht) as Htr.
    all: exists sys, tk, prompt; rewrite <- Hcounter; repeat split; assumption.
  - (* if *)
    intros sys to_compact to_keep prompt mm mm1 mm2 summary
      Hne' Hs' Htr Hf' Hlt' Hmm' Ha' Hc'.
    rewrite Hres. clear Hres.
    assert (Hr : forall w1 r1,
      truncate_kept sys to_compact to_keep w = (w1, r1) -> r1 = Ok tt).
    { intros w1 r1 E.
      pose proof (truncate_kept_result sys to_compact to_keep w) as Hres.
      rewrite E in Hres. cbn in Hres. rewrite Hres.
      destruct Htr as [-> | ->]; [reflexivity|]. now destruct to_keep. }
    destruct Hrun as
      [ Hempty | Hne Hs | sys0 tc tk w1 e Hs Ht | sys0 tc tk w1 e Hs Ht Hf
      | sys0 tc tk w1 prompt0 Hs Ht Hf Hle
      | sys0 tc tk w1 prompt0 Hs Ht Hf Hlt Hmm
      | sys0 tc tk w1 prompt0 mm0 mm10 e Hs Ht Hf Hlt Hmm Ha
      | sys0 tc tk w1 prompt0 mm0 mm10 mm20 e Hs Ht Hf Hlt Hmm Ha Hc
      | sys0 tc tk w1 prompt0 mm0 mm10 mm20 summary0 Hs Ht Hf Hlt Hmm Ha Hc ].
    1:{ exfalso. now apply Hne'. }
    1:{ exfalso. fold messages in Hs. congruence. }
    all: fold messages in Hs; rewrite Hs' in Hs; injection Hs as <- <- <-.
    all: pose proof (Hr _ _ Ht) as Hok; try discriminate Hok.
    all: frame_of Ht; subst previous.
    all: try rewrite Hcounter in *; try rewrite Hmanager in *;
      try rewrite Hsummary in *.
    all: try congruence.
    all: assert (prompt0 = prompt) by congruence; subst prompt0; try lia.
    all: assert (mm0 = mm) by congruence; subst mm0.
    all: assert (mm10 = mm1) by congruence; subst mm10; try congruence.
    assert (mm20 = mm2) by congruence; subst mm20.
    assert (summary0 = summary) by congruence; subst summary0.
    split; [reflexivity|].
    calls_of.
    split; [reflexivity|]. split; [reflexivity|]. split; [reflexivity|].
    intros m Hm.
    destruct (split_messages_Some _ _ _ _ _ Hs') as (_ & _ & Hall & _).
    destruct (marks_of_visible (memory w) m) as (marks & Hin & _).
    { fold messages. rewrite Hall. apply in_or_app. right.
      apply in_or_app. now left. }
    rewrite <- (Hmarks Hall) in Hin.
    apply (marks_of_marked (map msg_id to_compact)
             (MemoryOps.update_compressed_summary summary (memory w1))
             (msg_id m) marks).
    + exact Hin.
    + apply existsb_eqb_In, in_map, Hm.
  - (* otherwise *)
    clear Hres. intros Hno.
    destruct Hrun as
      [ Hempty | Hne Hs | sys tc tk w1 e Hs Ht | sys tc tk w1 e Hs Ht Hf
      | sys tc tk w1 prompt Hs Ht Hf Hle
      | sys tc tk w1 prompt Hs Ht Hf Hlt Hmm
      | sys tc tk w1 prompt mm mm1 e Hs Ht Hf Hlt Hmm Ha
      | sys tc tk w1 prompt mm mm1 mm2 e Hs Ht Hf Hlt Hmm Ha Hc
      | sys tc tk w1 prompt mm mm1 mm2 summary Hs Ht Hf Hlt Hmm Ha Hc ];
      log_cases; try frame_of Ht;
      try (destruct (split_messages_Some _ _ _ _ _ Hs) as (_ & _ & Hall & _));
      try (split; [assumption | now apply Hmarks]);
      try (split; reflexivity).
    all: exfalso; revert Hno; calls_of; cbn; intros Hno.
    all: eapply Hno; right; right; left; reflexivity.
Qed.


(** C1, as amended.  The hook calls [compact_memory] only when more than
    [keep_recent] messages follow the system prompt, truncating the kept
    messages did not raise, and the estimate for the formatted messages to
    compact (not for the whole memory) exceeds [memory_compact_threshold];
    the system prompt is the leading run of messages of role [system], up
    to the first message of another role, and the messages to compact are
    the ones between it and the kept suffix.  When that holds and neither
    the formatter nor the memory manager raises, the hook calls
    [compact_memory] on these messages with the current summary, makes its
    result the compressed summary, marks these messages [COMPRESSED] and
    returns [None]; and when [compact_memory] is not called, summary and
    marks stay as they were. *)
Theorem hook_compaction_trigger (self : MemoryCompactionHook) (kwargs : dict)
    w :
  let w' := fst (MemoryCompactionHook_call self kwargs w) in
  let messages := MemoryOps.get_memory COMPRESSED (memory w) in
  let previous := _compressed_summary (memory w) in
  (forall msgs prev,
     In (EvCompactMemory msgs prev) (new_calls w w') ->
     exists sys to_keep prompt estimated_tokens,
       split_messages self messages = Some (sys, msgs, to_keep)
       /\ messages = sys ++ msgs ++ to_keep
       /\ Forall (fun m => msg_role m = "system") sys
       /\ (forall m rest, msgs ++ to_keep = m :: rest ->
           msg_role m <> "system")
       /\ keep_recent self < Z.of_nat (length (msgs ++ to_keep))
       /\ (to_keep = [] \/ snd (_truncate_tool_result_texts to_keep) = None)
       /\ formatter_format msgs = Ok prompt
       /\ snd (safe_count_message_tokens prompt w) = Ok estimated_tokens
       /\ memory_compact_threshold self < estimated_tokens
       /\ prev = previous)
  /\ (forall sys to_compact to_keep prompt estimated_tokens mm mm1 mm2 summary,
       messages <> [] ->
       split_messages self messages = Some (sys, to_compact, to_keep) ->
       to_keep = [] \/ snd (_truncate_tool_result_texts to_keep) = None ->
       formatter_format to_compact = Ok prompt ->
       snd (safe_count_message_tokens prompt w) = Ok estimated_tokens ->
       memory_compact_threshold self < estimated_tokens ->
       memory_manager w = Some mm ->
       add_async_summary_task to_compact mm = (mm1, Ok tt) ->
       compact_memory to_compact previous mm1 = (mm2, Ok summary) ->
       messages = sys ++ to_compact ++ to_keep
       /\ Forall (fun m => msg_role m = "system") sys
       /\ (forall m rest, to_compact ++ to_keep = m :: rest ->
           msg_role m <> "system")
       /\ snd (MemoryCompactionHook_call self kwargs w) = Ok None
       /\ new_calls w w'
          = [EvFormat to_compact; EvAddAsyncSummaryTask to_compact;
             EvCompactMemory to_compact previous]
       /\ memory_manager w' = Some mm2
       /\ _compressed_summary (memory w') = summary
       /\ (forall m, In m to_compact ->
           In (msg_id m) (compressed_ids (memory w'))))
  /\ ((forall msgs prev, ~ In (EvCompactMemory msgs prev) (new_calls w w')) ->
      _compressed_summary (memory w') = previous
      /\ marks_of (memory w') = marks_of (memory w)).
Proof.
  intros w' messages previous.
  destruct (hook_compaction_cases self kwargs w) as (Honly & Hif & Helse).
  split; [|split].
  - intros msgs prev Hin.
    destruct (Honly msgs prev Hin)
      as (sys & to_keep & prompt & Hs & Hk & Htr & Hf & Hlt & Hp).
    destruct (split_messages_Some _ _ _ _ _ Hs) as (_ & _ & Hall & _).
    destruct (split_messages_roles _ _ _ _ _ Hs) as (Hsys & Hfirst).
    exists sys, to_keep, prompt, (message_tokens (_token_counter w) prompt).
    rewrite safe_count_message_tokens_run. now repeat split.
  - intros sys to_compact to_keep prompt estimated_tokens mm mm1 mm2 summary
      Hne Hs Htr Hf Hest Hlt Hmm Ha Hc.
    rewrite safe_count_message_tokens_run in Hest. injection Hest as <-.
    destruct (split_messages_Some _ _ _ _ _ Hs) as (_ & _ & Hall & _).
    destruct (split_messages_roles _ _ _ _ _ Hs) as (Hsys & Hfirst).
    split; [exact Hall|]. split; [exact Hsys|]. split; [exact Hfirst|].
    now apply (Hif sys to_compact to_keep prompt mm mm1).
  - exact Helse.
Qed.

(** ** What the hook passes on and what it keeps *)

Lemma NoDup_map_filter {A B} (f : A -> B) (p : A -> bool) (l : list A) :
  NoDup (map f l) -> NoDup (map f (List.filter p l)).
Proof.
  rewrite !NoDup_ListNoDup.
  induction l as [|x l IH]; cbn; [constructor|].
  intros Hnd. apply NoDup_cons_iff in Hnd as [Hx Hnd].
  destruct (p x); cbn; [|now apply IH].
  apply NoDup_cons_iff. split; [|now apply IH].
  intros Hin. apply Hx. apply in_map_iff in Hin as (y & E & Hy).
  apply filter_In in Hy as [Hy _]. apply in_map_iff. now exists y.
Qed.

Lemma NoDup_fst_unique {A B} (l : list (A * B)) (k : A) (a b : B) :
  NoDup (map fst l) -> In (k, a) l -> In (k, b) l -> a = b.
Proof.
  rewrite NoDup_ListNoDup.
  induction l as [|[k' c] l IH]; cbn; [contradiction|].
  intros Hnd Ha Hb. apply NoDup_cons_iff in Hnd as [Hk Hnd].
  destruct Ha as [Ea|Ha], Hb as [Eb|Hb].
  - congruence.
  - exfalso. apply Hk. apply in_map_iff. exists (k, b).
    split; [cbn; congruence | assumption].
  - exfalso. apply Hk. apply in_map_iff. exists (k, a).
    split; [cbn; congruence | assumption].
  - now apply IH.
Qed.

Lemma visible_ids_NoDup (m : Memory) :
  NoDup (map fst (marks_of m)) ->
  NoDup (map msg_id (MemoryOps.get_memory COMPRESSED m)).
Proof.
  unfold marks_of, MemoryOps.get_memory. rewrite !map_map. cbn.
  apply NoDup_map_filter.
Qed.

Lemma kept_not_compacted (sys to_compact to_keep : list Msg) (m : Msg) :
  NoDup (map msg_id (sys ++ to_compact ++ to_keep)) ->
  In m (sys ++ to_keep) ->
  ~ In (msg_id m) (map msg_id to_compact).
Proof.
  rewrite !map_app. intros Hnd Hm Hc.
  apply in_app_or in Hm as [Hm|Hm].
  - apply NoDup_app in Hnd as (_ & Hd & _).
    apply (Hd (msg_id m)).
    + apply list_elem_of_In, in_map, Hm.
    + apply list_elem_of_In, in_or_app. now left.
  - apply NoDup_app in Hnd as (_ & _ & Hnd).
    apply NoDup_app in Hnd as (_ & Hd & _).
    apply (Hd (msg_id m)).
    + now apply list_elem_of_In.
    + apply list_elem_of_In, in_map, Hm.
Qed.


(** C8, as amended.  The system prompt is the leading run of messages of
    role [system]: every message of it is a system message, and the message
    that follows it is not.  The messages to compact followed by the
    messages to keep are the messages after the system prompt, in order, and
    there are more of them than [keep_recent]; the hook passes only the
    messages to compact to the memory manager; when the ids of the stored
    messages are distinct, no message of the system prompt and no kept
    message is marked [COMPRESSED]; and when no more than [keep_recent]
    messages follow the system prompt (whatever their roles), nothing is
    passed to the memory manager. *)
Theorem hook_split_partition (self : MemoryCompactionHook) (kwargs : dict) w :
  let w' := fst (MemoryCompactionHook_call self kwargs w) in
  let messages := MemoryOps.get_memory COMPRESSED (memory w) in
  (forall sys to_compact to_keep,
     split_messages self messages = Some (sys, to_compact, to_keep) ->
     sys = system_prefix messages
     /\ Forall (fun m => msg_role m = "system") sys
     /\ (forall m rest, to_compact ++ to_keep = m :: rest ->
         msg_role m <> "system")
     /\ to_compact ++ to_keep = drop (length sys) messages
     /\ messages = sys ++ to_compact ++ to_keep
     /\ keep_recent self < Z.of_nat (length (to_compact ++ to_keep))
     /\ Z.of_nat (length to_keep) <= Z.max 0 (keep_recent self)
     /\ (forall msgs prev,
          In (EvCompactMemory msgs prev) (new_calls w w') -> msgs = to_compact)
     /\ (forall msgs,
          In (EvAddAsyncSummaryTask msgs) (new_calls w w') -> msgs = to_compact)
     /\ (NoDup (map fst (marks_of (memory w))) ->
         forall m, In m (sys ++ to_keep) ->
                   ~ In (msg_id m) (compressed_ids (memory w'))))
  /\ (Z.of_nat (length (drop (length (system_prefix messages)) messages))
      <= keep_recent self ->
      forall msgs,
        (forall prev, ~ In (EvCompactMemory msgs prev) (new_calls w w'))
        /\ ~ In (EvAddAsyncSummaryTask msgs) (new_calls w w')).
Proof.
  intros w' messages.
  destruct (hook_call_logged self kwargs w) as (wb & r & Hrun & Hw').
  fold w' in Hw'. clearbody w'. subst w'.
  split.
  - intros sys to_compact to_keep Hs'.
    destruct (split_messages_Some _ _ _ _ _ Hs') as (H1 & H2 & H3 & H4 & H5).
    destruct (split_messages_roles _ _ _ _ _ Hs') as (Hsys & Hfirst).
    do 7 (split; [assumption|]).
    destruct Hrun as
      [ Hempty | Hne Hs | sys0 tc tk w1 e Hs Ht | sys0 tc tk w1 e Hs Ht Hf
      | sys0 tc tk w1 prompt Hs Ht Hf Hle
      | sys0 tc tk w1 prompt Hs Ht Hf Hlt Hmm
      | sys0 tc tk w1 prompt mm mm1 e Hs Ht Hf Hlt Hmm Ha
      | sys0 tc tk w1 prompt mm mm1 mm2 e Hs Ht Hf Hlt Hmm Ha Hc
      | sys0 tc tk w1 prompt mm mm1 mm2 summary Hs Ht Hf Hlt Hmm Ha Hc ].
    2:{ exfalso. fold messages in Hs. congruence. }
    2-8: fold messages in Hs; rewrite Hs' in Hs; injection Hs as <- <- <-.
    2-8: frame_of Ht.
    all: log_cases.
    all: split; [|split].
    all: try (intros msgs prev; calls_of; cbn; intros Hin;
              repeat destruct Hin as [Hin|Hin];
              try discriminate Hin; try contradiction; congruence).
    all: try (intros msgs; calls_of; cbn; intros Hin;
              repeat destruct Hin as [Hin|Hin];
              try discriminate Hin; try contradiction; congruence).
    all: intros Hnd m Hm Hin.
    all: assert (Hvis : In m (MemoryOps.get_memory COMPRESSED (memory w)))
      by (fold messages; rewrite H3; apply in_app_or in Hm as [Hm|Hm];
          apply in_or_app; [now left | right; apply in_or_app; now right]).
    all: destruct (marks_of_visible _ _ Hvis) as (marks0 & Hin0 & Hm0).
    all: apply compressed_ids_spec in Hin as (marks & Hin & Hmk).
    all: try (cbn [logged memory with_call with_memory_manager
                   with_token_counter formatted task_added compact_called]
              in Hin).
    all: try (rewrite (Hmarks H3) in Hin).
    all: try (rewrite (NoDup_fst_unique _ _ _ _ Hnd Hin Hin0) in Hmk;
              congruence).
    apply marks_of_marked_inv in Hin as (marks1 & Hin1 & Hcase).
    change (In (msg_id m, marks1) (marks_of (memory w1))) in Hin1.
    rewrite (Hmarks H3) in Hin1.
    pose proof (NoDup_fst_unique _ _ _ _ Hnd Hin1 Hin0) as ->.
    destruct Hcase as [->|[Hid _]]; [congruence|].
    apply existsb_eqb_In in Hid.
    apply (kept_not_compacted sys to_compact to_keep m); try assumption.
    rewrite <- H3. now apply visible_ids_NoDup.
  - intros Hfew msgs. apply split_messages_None in Hfew. fold messages in Hfew.
    destruct Hrun as
      [ Hempty | Hne Hs | sys0 tc tk w1 e Hs Ht | sys0 tc tk w1 e Hs Ht Hf
      | sys0 tc tk w1 prompt Hs Ht Hf Hle
      | sys0 tc tk w1 prompt Hs Ht Hf Hlt Hmm
      | sys0 tc tk w1 prompt mm mm1 e Hs Ht Hf Hlt Hmm Ha
      | sys0 tc tk w1 prompt mm mm1 mm2 e Hs Ht Hf Hlt Hmm Ha Hc
      | sys0 tc tk w1 prompt mm mm1 mm2 summary Hs Ht Hf Hlt Hmm Ha Hc ];
      try (fold messages in Hs; congruence).
    + split; [intros prev|]; calls_of; cbn; intros [Hin|[]]; discriminate Hin.
    + split; [intros prev|]; calls_of; cbn; intros [].
Qed.

(** * Further properties of the three modules *)

(** ** The module global of [token_counting.py] *)

(** X1.  [_get_token_counter] caches: a call that returns a counter has
    stored it in the module global, where every later call finds it without
    changing anything; a call that raises has changed nothing, and the
    global is still [None]. *)
Theorem get_token_counter_cached w :
  (forall w1 token_counter,
     _get_token_counter w = (w1, Ok token_counter) ->
     w1 = with_token_counter (Some token_counter) w
     /\ _get_token_counter w1 = (w1, Ok token_counter)
     /\ forall w2, _token_counter w2 = Some token_counter ->
                   _get_token_counter w2 = (w2, Ok token_counter))
  /\ (forall w1 e,
     _get_token_counter w = (w1, Raise e) ->
     w1 = w /\ _token_counter w = None
     /\ _get_token_counter w1 = (w1, Raise e)).
Proof.
  assert (Hhit : forall w2 token_counter,
    _token_counter w2 = Some token_counter ->
    _get_token_counter w2 = (w2, Ok token_counter)).
  { intros w2 token_counter E. rewrite _get_token_counter_run.
    unfold counter_after, loaded_counter. rewrite E.
    destruct w2; cbn in *. now subst. }
  rewrite _get_token_counter_run. unfold counter_after, loaded_counter.
  destruct (_token_counter w) as [t|] eqn:Ht.
  - split; [|discriminate]. intros w1 token_counter [= <- <-].
    assert (Hw : with_token_counter (Some t) w = w)
      by (destruct w; cbn in *; now subst).
    rewrite Hw. repeat split; auto.
  - destruct (HuggingFaceTokenCounter _) as [t|e0] eqn:Hload; split;
      try discriminate.
    + intros w1 token_counter [= <- <-]. repeat split; auto.
    + intros w1 e [= <- <-].
      assert (Hw : with_token_counter None w = w)
        by (destruct w; cbn in *; now subst).
      rewrite Hw. repeat split.
      rewrite _get_token_counter_run. unfold counter_after, loaded_counter.
      now rewrite Ht, Hload, Hw.
Qed.

(** ** The text that is counted *)

Lemma get_lookup (d : dict) (k : string) (default v : pyval) :
  PyVal.lookup d k = Some v -> PyVal.get d k default = v.
Proof. unfold PyVal.get. now intros ->. Qed.

Lemma get_lookup_None (d : dict) (k : string) (default : pyval) :
  PyVal.lookup d k = None -> PyVal.get d k default = default.
Proof. unfold PyVal.get. now intros ->. Qed.

Lemma truthy_PyStr (s : string) :
  s <> EmptyString -> PyVal.truthy (PyStr s) = true.
Proof. intros Hs. cbn. now destruct s. Qed.

Lemma message_parts_texts (msg : dict) (v : pyval) (texts : list string) :
  PyVal.lookup msg "content" = Some v -> content_texts v texts ->
  message_parts msg = texts.
Proof.
  intros Hl Hc. unfold message_parts. rewrite (get_lookup _ _ _ _ Hl).
  clear Hl. destruct Hc as [s|blocks texts Hb]; [reflexivity|].
  induction Hb as [|block text blocks texts (d & -> & Ht & Hne) _ IH];
    [reflexivity|].
  cbn [flat_map]. rewrite IH. unfold block_parts, PyVal.or_else.
  rewrite (get_lookup _ _ _ _ Ht), (truthy_PyStr _ Hne).
  now rewrite (truthy_PyStr _ Hne).
Qed.

(** X2.  On a prompt in one of the two documented formats, where the
    content of each message is a string or a list of text blocks with
    non-empty texts, [_extract_text_from_messages] is the texts of all
    messages, in order, joined by newlines. *)
Theorem extract_text_of_documented_formats (messages : list dict)
    (texts : list (list string)) :
  Forall2 (fun msg parts =>
             exists v, PyVal.lookup msg "content" = Some v
                       /\ content_texts v parts)
          messages texts ->
  _extract_text_from_messages messages = join nl (concat texts).
Proof.
  intros Hall. unfold _extract_text_from_messages. f_equal.
  induction Hall as [|msg parts messages texts (v & Hl & Hc) _ IH];
    [reflexivity|].
  cbn [flat_map concat]. now rewrite IH, (message_parts_texts _ _ _ Hl Hc).
Qed.

Lemma flat_map_insert {A B} (f : A -> list B) (before after : list A) (x : A) :
  flat_map f (before ++ x :: after)
  = flat_map f before ++ f x ++ flat_map f after.
Proof. now rewrite flat_map_app. Qed.

(** X3.  The edges of [_extract_text_from_messages]: a message whose
    content is neither a string nor a list (such as [None]) adds nothing to
    the text, not even a separator; a message with no [content] key counts
    as one with the empty string for content, so it adds an empty line; and
    the text of no message at all is the empty string. *)
Theorem extract_text_edge_contents (before after : list dict) (msg : dict) :
  (forall v, PyVal.lookup msg "content" = Some v ->
     (forall s, v <> PyStr s) -> (forall l, v <> PyList l) ->
     _extract_text_from_messages (before ++ msg :: after)
     = _extract_text_from_messages (before ++ after))
  /\ (PyVal.lookup msg "content" = None ->
      _extract_text_from_messages (before ++ msg :: after)
      = _extract_text_from_messages
          (before ++ [("content", PyStr EmptyString)] :: after)
      /\ _extract_text_from_messages [msg] = EmptyString
      /\ _extract_text_from_messages [msg; msg] = nl)
  /\ _extract_text_from_messages [] = EmptyString.
Proof.
  unfold _extract_text_from_messages. split; [|split; [|reflexivity]].
  - intros v Hv Hs Hl. f_equal. rewrite flat_map_insert, flat_map_app.
    unfold message_parts at 2. rewrite (get_lookup _ _ _ _ Hv).
    destruct v; try reflexivity; [now destruct (Hs s) | now destruct (Hl l)].
  - intros Hn.
    assert (Hp : message_parts msg = [EmptyString]).
    { unfold message_parts. now rewrite (get_lookup_None _ _ _ Hn). }
    split; [|split].
    + f_equal. rewrite !flat_map_insert. now rewrite Hp.
    + cbn [flat_map]. now rewrite Hp.
    + cbn [flat_map]. now rewrite Hp.
Qed.

(** ** What the safe counters change, and when one of them raises *)


(** X5.  Counting tokens changes nothing in the world but the module
    global [_token_counter]: the memory, the memory manager, the messages
    created and the calls made stay as they are; the global is filled at
    most once, and once it is filled counting changes nothing at all. *)
Theorem token_counting_touches_counter_only (messages : list dict)
    (text : pyval) w :
  fst (count_message_tokens messages w) = counted w
  /\ fst (safe_count_message_tokens messages w) = counted w
  /\ fst (safe_count_str_tokens text w) = counted w
  /\ memory (counted w) = memory w
  /\ memory_manager (counted w) = memory_manager w
  /\ msgs_created (counted w) = msgs_created w
  /\ calls (counted w) = calls w
  /\ counted (counted w) = counted w
  /\ (forall token_counter,
        _token_counter w = Some token_counter -> counted w = w).
Proof.
  rewrite count_message_tokens_run, safe_count_message_tokens_run,
    safe_count_str_tokens_run.
  repeat split; try reflexivity; [apply counted_idem | apply counted_loaded].
Qed.

(** ** The counts of a block, on every path *)

(** X6.  [_get_block_tokens], on any block and any block type, changes
    nothing in the world but the module global [_token_counter] (which it
    may load), whether it returns or raises; and a count that it returns is
    never negative. *)
Theorem get_block_tokens_counts (block block_type : pyval) w :
  let r := _get_block_tokens block block_type w in
  (fst r = w \/ fst r = counted w)
  /\ memory (fst r) = memory w
  /\ memory_manager (fst r) = memory_manager w
  /\ msgs_created (fst r) = msgs_created w
  /\ calls (fst r) = calls w
  /\ (forall n s, snd r = Ok (n, s) -> 0 <= n).
Proof.
  cbv zeta.
  destruct (_get_block_tokens_counts block block_type w) as (Hw & Hn & _).
  split; [exact Hw|].
  repeat split; try (destruct Hw as [-> | ->]; reflexivity). exact Hn.
Qed.

(** ** The lines of the report of [/history] *)

Lemma history_blocks_frame (blocks : list pyval) :
  forall total_tokens text_parts block_infos w,
    let r := history_blocks blocks total_tokens text_parts block_infos w in
    fst r = w \/ fst r = counted w.
Proof.
  induction blocks as [|block rest IH]; intros total_tokens text_parts
    block_infos w; cbn [history_blocks]; [now left|].
  destruct block as [| | | | |d]; try now left.
  unfold bind.
  destruct (_get_block_tokens_counts (PyDict d)
              (PyVal.get d "type" (PyStr "unknown")) w) as [Hw _].
  destruct (_get_block_tokens (PyDict d) _ w) as [w1 [r|e]];
    cbn [fst] in *; [|assumption].
  eapply counted_or_same_trans; [eassumption | apply IH].
Qed.

Lemma history_line_frame (i : Z) (msg : Msg) w :
  fst (history_line i msg w) = w \/ fst (history_line i msg w) = counted w.
Proof.
  unfold history_line, bind, try_except.
  destruct (msg_content msg) as [c|blocks].
  - rewrite safe_count_str_tokens_run. cbn [py_len].
    destruct (tokenizer_count _ _); cbn; now right.
  - pose proof (history_blocks_frame blocks 0 [] [] w) as Hw. cbv zeta in Hw.
    destruct (history_blocks blocks 0 [] [] w) as [w1 [[[t p] b]|e]];
      cbn [fst] in Hw.
    + unfold lift. destruct (join_parts 0 p) as [s|e]; cbn; [assumption|].
      destruct (is_Exception e); cbn; assumption.
    + destruct (is_Exception e); cbn; assumption.
Qed.

Lemma history_lines_total (messages : list Msg) (i : Z) w :
  exists w' lines,
    history_lines i messages w = (w', Ok lines)
    /\ length lines = length messages
    /\ (w' = w \/ w' = counted w).
Proof.
  revert i w. induction messages as [|msg rest IH]; intros i w;
    cbn [history_lines].
  - exists w, []. repeat split. now left.
  - unfold bind. pose proof (history_line_frame i msg w) as Hw.
    destruct (history_line_ok i msg w) as (w1 & line & Hl).
    rewrite Hl in *. cbn [fst] in Hw.
    destruct (IH (i + 1) w1) as (w2 & lines & -> & Hlen & Hw2).
    exists w2, (line :: lines). repeat split.
    + cbn. now rewrite Hlen.
    + eapply counted_or_same_trans; eassumption.
Qed.




Lemma length_substring_le (n : nat) (s : string) :
  (n <= String.length s)%nat -> String.length (String.substring 0 n s) = n.
Proof.
  revert s. induction n as [|n IH]; intros s Hn.
  - now destruct s.
  - destruct s as [|c s]; cbn in *; [lia|]. rewrite IH; lia.
Qed.

Lemma substring_prefix (n : nat) (s : string) :
  exists rest, s = String.substring 0 n s +:+ rest.
Proof.
  revert s. induction n as [|n IH]; intros s.
  - exists s. now destruct s.
  - destruct s as [|c s]; [now exists EmptyString|].
    destruct (IH s) as (rest & E). exists rest. cbn.
    change (String c s = String c (String.substring 0 n s +:+ rest)).
    now rewrite <- E.
Qed.

Lemma length_append (a b : string) :
  String.length (a +:+ b) = (String.length a + String.length b)%nat.
Proof.
  induction a as [|c a IH]; [reflexivity|].
  change (S (String.length (a +:+ b)) = S (String.length a + String.length b)).
  now rewrite IH.
Qed.

(** X9.  The preview of a text in the report of [/history]: a text of at
    most 100 characters is shown as it is; a longer one is cut to its first
    100 characters followed by three dots, so a preview never has more than
    103 characters. *)
Theorem preview_of_bounds (s : string) :
  (len s <= 100 -> preview_of s = s)
  /\ (100 < len s ->
      exists head rest,
        preview_of s = head +:+ "..." /\ s = head +:+ rest /\ len head = 100)
  /\ len (preview_of s) <= 103.
Proof.
  unfold preview_of, len, prefix_slice.
  destruct (Z.ltb_spec 100 (Z.of_nat (String.length s))) as [Hlong|Hshort].
  - assert (Hl : String.length (String.substring 0 100 s) = 100%nat)
      by (apply length_substring_le; lia).
    split; [lia|]. split.
    + intros _. destruct (substring_prefix 100 s) as (rest & E).
      exists (String.substring 0 100 s), rest. repeat split; [exact E | lia].
    + rewrite length_append, Hl. cbn. lia.
  - split; [reflexivity|]. split; lia.
Qed.

(** ** Truncating tool results *)

Lemma mutate_each_Forall2 {A} (f : A -> A * option exn) (R : A -> A -> Prop) :
  (forall x, R x x) -> (forall x, R x (fst (f x))) ->
  forall l, Forall2 R l (fst (mutate_each f l)).
Proof.
  intros Hrefl Hf. induction l as [|x rest IH]; cbn; [constructor|].
  specialize (Hf x). destruct (f x) as [x' [e|]]; cbn in *.
  - constructor; [assumption|]. clear IH.
    induction rest; constructor; auto.
  - destruct (mutate_each f rest) as [rest' r]. now constructor.
Qed.

Lemma lookup_set_other (d : dict) (k k' : string) (v : pyval) :
  k' <> k -> PyVal.lookup (PyVal.set d k v) k' = PyVal.lookup d k'.
Proof.
  intros Hne. induction d as [|[k0 v0] d IH]; cbn.
  - destruct (String.eqb_spec k k'); congruence.
  - destruct (String.eqb_spec k0 k) as [->|]; cbn.
    + destruct (String.eqb_spec k k'); congruence.
    + now rewrite IH.
Qed.

Lemma lookup_set_same (d : dict) (k : string) (v : pyval) :
  PyVal.lookup (PyVal.set d k v) k = Some v.
Proof.
  induction d as [|[k0 v0] d IH]; cbn.
  - now rewrite String.eqb_refl.
  - destruct (String.eqb_spec k0 k) as [->|Hne]; cbn.
    + now rewrite String.eqb_refl.
    + destruct (String.eqb_spec k0 k); [contradiction | exact IH].
Qed.

Lemma keys_set_present (d : dict) (k : string) (v v0 : pyval) :
  PyVal.lookup d k = Some v0 -> map fst (PyVal.set d k v) = map fst d.
Proof.
  induction d as [|[k0 v1] d IH]; cbn; [discriminate|].
  destruct (String.eqb_spec k0 k) as [->|]; cbn; [reflexivity|].
  intros Hl. now rewrite IH.
Qed.

Lemma get_PyNone_lookup (d : dict) (k : string) (v : pyval) :
  PyVal.get d k PyNone = v -> v <> PyNone -> PyVal.lookup d k = Some v.
Proof.
  unfold PyVal.get. destruct (PyVal.lookup d k); intros <-; congruence.
Qed.

Lemma block_truncated_refl (block : pyval) : block_truncated block block.
Proof.
  split; [reflexivity|]. destruct block; try reflexivity. now split.
Qed.

Lemma truncate_block_truncated (max_length : Z) (block : pyval) :
  block_truncated block (fst (truncate_block max_length block)).
Proof.
  unfold truncate_block. destruct block as [| | | | |d];
    try apply block_truncated_refl.
  destruct (PyVal.eq_str (PyVal.get d "type" PyNone) "tool_result") eqn:Hty;
    [|apply block_truncated_refl].
  assert (Htool : is_tool_result (PyDict d) = false -> False)
    by (unfold is_tool_result; rewrite Hty; discriminate).
  destruct (PyVal.get d "output" PyNone) as [| | |output|output|] eqn:Ho;
    try apply block_truncated_refl.
  - destruct (_truncate_text (PyStr output) max_length) as [t|e];
      [|apply block_truncated_refl].
    split; [intros E; now destruct (Htool E)|]. cbn. split.
    + eapply keys_set_present, get_PyNone_lookup; [exact Ho | discriminate].
    + intros k Hk. now apply lookup_set_other.
  - destruct (mutate_each _ output) as [output' r].
    split; [intros E; now destruct (Htool E)|]. cbn. split.
    + eapply keys_set_present, get_PyNone_lookup; [exact Ho | discriminate].
    + intros k Hk. now apply lookup_set_other.
Qed.

Lemma msg_truncated_refl (msg : Msg) : msg_truncated msg msg.
Proof.
  unfold msg_truncated. repeat split. destruct (msg_content msg) as [s|blocks];
    [reflexivity|].
  induction blocks; constructor; [apply block_truncated_refl | assumption].
Qed.

Lemma truncate_msg_truncated (max_length : Z) (msg : Msg) :
  msg_truncated msg (fst (truncate_msg max_length msg)).
Proof.
  unfold truncate_msg.
  destruct (msg_content msg) as [s|blocks] eqn:Hc; [apply msg_truncated_refl|].
  destruct (get_content_blocks _ _); [|apply msg_truncated_refl].
  unfold msg_truncated. rewrite Hc.
  pose proof (mutate_each_Forall2 (truncate_block max_length) block_truncated
                block_truncated_refl (truncate_block_truncated max_length)
                blocks) as Hb.
  destruct (mutate_each _ blocks) as [blocks' r]. cbn in *. now repeat split.
Qed.

Lemma truncate_tool_result_texts_shape_aux (messages : list Msg) :
  Forall2 msg_truncated messages (fst (_truncate_tool_result_texts messages)).
Proof.
  unfold _truncate_tool_result_texts. destruct default_max_length as [n|e].
  - apply mutate_each_Forall2;
      [apply msg_truncated_refl | apply truncate_msg_truncated].
  - cbn. induction messages; constructor;
      [apply msg_truncated_refl | assumption].
Qed.

(** The loop stops at the first element that raises. *)
Lemma mutate_each_stops {A} (f : A -> A * option exn) (before after : list A)
    (x x' : A) (e : exn) :
  snd (mutate_each f before) = None ->
  f x = (x', Some e) ->
  mutate_each f (before ++ x :: after)
  = (fst (mutate_each f before) ++ x' :: after, Some e).
Proof.
  intros Hb Hx. induction before as [|y before IH]; cbn.
  - now rewrite Hx.
  - cbn in Hb. destruct (f y) as [y' [e0|]]; [discriminate Hb|].
    destruct (mutate_each f before) as [before' r]. cbn in *.
    now rewrite (IH Hb).
Qed.

(** X10.  [_truncate_tool_result_texts] keeps the shape of what it is
    given, whether it returns or raises half-way: the same messages in the
    same order, each with its id, name and role; a content that is a string
    is untouched; a content that is a list keeps its blocks in number and
    order, a block that is not a tool result is untouched, and a tool result
    keeps its keys and the values of all keys other than [output].  The
    tool results are the blocks that [get_content_blocks] selects, and the
    call raises at the first message in which [get_content_blocks] raises,
    that is, which holds a block that is not a dictionary with a type: that
    message and the messages after it are left as they were. *)
Theorem truncate_tool_result_texts_shape (messages : list Msg) :
  let messages' := fst (_truncate_tool_result_texts messages) in
  Forall2 msg_truncated messages messages'
  /\ length messages' = length messages
  /\ map msg_id messages' = map msg_id messages
  /\ (forall blocks selected,
        get_content_blocks "tool_result" blocks = Ok selected ->
        selected = List.filter is_tool_result blocks)
  /\ (forall before msg after blocks,
        messages = before ++ msg :: after ->
        snd (_truncate_tool_result_texts before) = None ->
        msg_content msg = ContentBlocks blocks ->
        Exists (fun block => ~ typed_block block) blocks ->
        exists e,
          get_content_blocks "tool_result" blocks = Raise e
          /\ _truncate_tool_result_texts messages
             = (fst (_truncate_tool_result_texts before) ++ msg :: after,
                Some e)).
Proof.
  cbv zeta. pose proof (truncate_tool_result_texts_shape_aux messages) as Hs.
  split; [exact Hs|]. split; [|split; [|split]].
  - symmetry. exact (Forall2_length _ _ _ Hs).
  - apply _truncate_tool_result_texts_ids.
  - apply get_content_blocks_selected.
  - intros before msg after blocks -> Hb Hc Hex.
    apply (get_content_blocks_raises "tool_result") in Hex as (e & He).
    exists e. split; [exact He|].
    unfold _truncate_tool_result_texts in *.
    destruct default_max_length as [max_length|e0]; [|discriminate Hb].
    apply mutate_each_stops; [exact Hb|].
    unfold truncate_msg. now rewrite Hc, He.
Qed.

Lemma mutate_each_None {A} (f : A -> A * option exn) (l : list A) :
  snd (mutate_each f l) = None ->
  Forall2 (fun x y => f x = (y, None)) l (fst (mutate_each f l)).
Proof.
  induction l as [|x rest IH]; cbn; [constructor|].
  destruct (f x) as [x' [e|]] eqn:Hx; cbn; [discriminate|].
  destruct (mutate_each f rest) as [rest' r]. cbn in *.
  intros ->. constructor; [exact Hx | now apply IH].
Qed.

Lemma truncate_output_item_None (max_length : Z) (item item' : pyval) :
  truncate_output_item max_length item = (item', None) ->
  text_truncated max_length item item'.
Proof.
  unfold truncate_output_item, text_truncated.
  destruct item as [| | | | |di]; try now intros [= <-].
  destruct (PyVal.eq_str _ _); [|now intros [= <-]].
  destruct (_truncate_text _ _) as [t|e]; [|discriminate].
  intros [= <-]. eexists _, t. repeat split. apply lookup_set_same.
Qed.

Lemma truncate_block_None (max_length : Z) (block block' : pyval) :
  truncate_block max_length block = (block', None) ->
  output_truncated max_length block block'.
Proof.
  intros Ht d -> Htool. unfold is_tool_result in Htool.
  unfold truncate_block in Ht. rewrite Htool in Ht.
  split.
  - intros output Ho. rewrite (get_lookup _ _ _ _ Ho) in Ht.
    destruct (_truncate_text (PyStr output) max_length) as [t|e];
      [|discriminate].
    injection Ht as <-. eexists _, t. repeat split. apply lookup_set_same.
  - intros items Ho. rewrite (get_lookup _ _ _ _ Ho) in Ht.
    pose proof (mutate_each_None (truncate_output_item max_length) items) as Hi.
    destruct (mutate_each _ items) as [items' r]. cbn in *.
    injection Ht as <- ->. eexists _, items'.
    split; [reflexivity|]. split; [apply lookup_set_same|].
    eapply Forall2_impl; [exact (Hi eq_refl)|].
    intros x y. apply truncate_output_item_None.
Qed.

(** A message on which the truncation did not raise. *)
Lemma truncate_msg_None (max_length : Z) (msg msg' : Msg)
    (blocks : list pyval) :
  truncate_msg max_length msg = (msg', None) ->
  msg_content msg = ContentBlocks blocks ->
  Forall typed_block blocks
  /\ exists blocks',
       msg_content msg' = ContentBlocks blocks'
       /\ Forall2 (output_truncated max_length) blocks blocks'.
Proof.
  intros Hm Hc. unfold truncate_msg in Hm. rewrite Hc in Hm.
  destruct (get_content_blocks "tool_result" blocks) as [selected|e] eqn:Hg;
    [|discriminate Hm].
  split; [exact (get_content_blocks_returns _ _ _ Hg)|].
  pose proof (mutate_each_None (truncate_block max_length) blocks) as Hb.
  destruct (mutate_each _ blocks) as [blocks' r]. cbn in *.
  injection Hm as <- ->. exists blocks'. split; [reflexivity|].
  eapply Forall2_impl; [exact (Hb eq_refl)|].
  intros x y. apply truncate_block_None.
Qed.

(** X11.  When [_truncate_tool_result_texts] returns, every block of every
    list content is a dictionary with a type, and every tool result of every
    message has been truncated to [max_length]: an [output] that is a string
    has been replaced by [_truncate_text(output, max_length)], and in an
    [output] that is a list every text item holds the truncated text under
    [text]; [max_length] is 10000 when the environment variable
    [DEFAULT_COMPACT_TOOL_RESULT_MAX_LENGTH] is not set, and the integer it
    holds otherwise. *)
Theorem truncate_tool_result_texts_outputs (messages : list Msg)
    (max_length : Z) :
  default_max_length = Ok max_length ->
  snd (_truncate_tool_result_texts messages) = None ->
  Forall2 (fun msg msg' =>
             forall blocks, msg_content msg = ContentBlocks blocks ->
               Forall typed_block blocks
               /\ exists blocks',
                    msg_content msg' = ContentBlocks blocks'
                    /\ Forall2 (output_truncated max_length) blocks blocks')
          messages (fst (_truncate_tool_result_texts messages))
  /\ (environ_get "DEFAULT_COMPACT_TOOL_RESULT_MAX_LENGTH" = None ->
      max_length = 10000)
  /\ (forall s, environ_get "DEFAULT_COMPACT_TOOL_RESULT_MAX_LENGTH" = Some s ->
      int_of_str s = Ok max_length).
Proof.
  intros Hmax Hnone. split; [|split].
  - unfold _truncate_tool_result_texts in *. rewrite Hmax in *.
    eapply Forall2_impl; [exact (mutate_each_None _ _ Hnone)|].
    intros msg msg' Hm blocks Hc. exact (truncate_msg_None _ _ _ _ Hm Hc).
  - intros He. unfold default_max_length in Hmax. rewrite He in Hmax.
    now injection Hmax.
  - intros s He. unfold default_max_length in Hmax. now rewrite He in Hmax.
Qed.

(** ** What the hook does to the store *)

Lemma msg_truncated_frame (msg msg' : Msg) :
  msg_truncated msg msg' -> msg_frame msg' = msg_frame msg.
Proof.
  intros (Hi & Hn & Hr & Hc). unfold msg_frame. rewrite Hi, Hn, Hr.
  destruct (msg_content msg), (msg_content msg'); try contradiction;
    congruence.
Qed.

Lemma _truncate_tool_result_texts_frame (messages : list Msg) :
  map msg_frame (fst (_truncate_tool_result_texts messages))
  = map msg_frame messages.
Proof.
  induction (truncate_tool_result_texts_shape_aux messages)
    as [|msg msg' l l' Hm _ IH]; [reflexivity|].
  cbn. now rewrite IH, (msg_truncated_frame _ _ Hm).
Qed.

Lemma write_back_map {B} (g : Msg -> B)
    (entries : list (Msg * list _MemoryMark)) :
  forall new : list Msg,
  map g new = map g (MemoryOps.get_memory COMPRESSED
                       {| content := entries; _compressed_summary := "" |}) ->
  map (fun e => g (fst e)) (write_back new entries)
  = map (fun e => g (fst e)) entries.
Proof.
  unfold MemoryOps.get_memory. cbn [content].
  induction entries as [|e rest IH]; intros new Hn; [reflexivity|].
  cbn in *. destruct (MemoryOps.has_mark COMPRESSED (snd e)); cbn in *.
  - f_equal. now apply IH.
  - destruct new as [|m new']; [discriminate Hn|]. cbn in *.
    injection Hn as Hm Hn. rewrite Hm. f_equal. now apply IH.
Qed.

Lemma write_back_snd (entries : list (Msg * list _MemoryMark)) :
  forall new : list Msg, map snd (write_back new entries) = map snd entries.
Proof.
  induction entries as [|e rest IH]; intros new; [reflexivity|].
  cbn. destruct (MemoryOps.has_mark COMPRESSED (snd e)); cbn.
  - now rewrite IH.
  - destruct new as [|m new']; [reflexivity|]. cbn. now rewrite IH.
Qed.

Lemma memory_eta (m : Memory) :
  {| content := content m; _compressed_summary := _compressed_summary m |} = m.
Proof. now destruct m. Qed.

Lemma with_memory_same w : with_memory (memory w) w = w.
Proof. now destruct w. Qed.

Lemma _truncate_tool_result_texts_nil :
  fst (_truncate_tool_result_texts []) = [].
Proof.
  unfold _truncate_tool_result_texts. now destruct default_max_length.
Qed.

(** The store after the kept messages are truncated. *)
Lemma truncate_kept_store (sys to_compact to_keep : list Msg) w w1
    (r : result unit) :
  truncate_kept sys to_compact to_keep w = (w1, r) ->
  MemoryOps.get_memory COMPRESSED (memory w) = sys ++ to_compact ++ to_keep ->
  map (fun e => msg_frame (fst e)) (content (memory w1))
  = map (fun e => msg_frame (fst e)) (content (memory w))
  /\ map snd (content (memory w1)) = map snd (content (memory w))
  /\ msgs_created w1 = msgs_created w
  /\ MemoryOps.get_memory COMPRESSED (memory w1)
     = sys ++ to_compact ++ fst (_truncate_tool_result_texts to_keep).
Proof.
  unfold truncate_kept. destruct to_keep as [|m tk].
  - intros [= <- <-] Hm. rewrite _truncate_tool_result_texts_nil.
    now repeat split.
  - pose proof (_truncate_tool_result_texts_frame (m :: tk)) as Hfr.
    destruct (_truncate_tool_result_texts (m :: tk)) as [kept e].
    cbv [bind get_world set_memory modify ret raise].
    intros Hr Hm.
    assert (Hw : w1 = with_memory
      {| content := write_back (sys ++ to_compact ++ kept) (content (memory w));
         _compressed_summary := _compressed_summary (memory w) |} w).
    { destruct e; injection Hr as <- _; reflexivity. }
    subst w1. cbn [memory with_memory content msgs_created fst] in *.
    split; [|split; [|split]].
    + apply write_back_map. unfold MemoryOps.get_memory in *. cbn [content].
      rewrite Hm, !map_app. now rewrite Hfr.
    + apply write_back_snd.
    + reflexivity.
    + unfold MemoryOps.get_memory at 1. cbn [content].
      apply get_memory_write_back. unfold MemoryOps.get_memory in Hm.
      apply (f_equal (@length _)) in Hm. rewrite length_map in Hm.
      rewrite Hm. apply (f_equal (@length _)) in Hfr.
      rewrite !length_map in Hfr. rewrite !length_app. now rewrite Hfr.
Qed.

Lemma update_messages_mark_store (ids : list string) (m : Memory) :
  let m' := fst (MemoryOps.update_messages_mark COMPRESSED ids m) in
  map fst (content m') = map fst (content m)
  /\ Forall2 marks_grown (map snd (content m)) (map snd (content m'))
  /\ _compressed_summary m' = _compressed_summary m.
Proof.
  cbn. split; [|split; [|reflexivity]].
  - rewrite map_map. apply map_ext. intros e. unfold MemoryOps.mark_entry.
    now destruct (_ && _).
  - induction (content m) as [|e rest IH]; cbn; constructor; [|exact IH].
    unfold MemoryOps.mark_entry, marks_grown.
    destruct (_ && _); cbn; auto.
Qed.

Lemma marks_grown_refl (l : list (list _MemoryMark)) : Forall2 marks_grown l l.
Proof. induction l; constructor; [now left | assumption]. Qed.

(** The memory that a run of the body of the hook ends with. *)
Lemma hook_run_memory (self : MemoryCompactionHook) w wb (r : result unit) :
  hook_run self w wb r ->
  memory wb = memory w
  \/ exists sys to_compact to_keep w1 r1,
       split_messages self (MemoryOps.get_memory COMPRESSED (memory w))
       = Some (sys, to_compact, to_keep)
       /\ truncate_kept sys to_compact to_keep w = (w1, r1)
       /\ msgs_created wb = msgs_created w1
       /\ (memory wb = memory w1
           \/ exists summary,
                memory wb
                = fst (MemoryOps.update_messages_mark COMPRESSED
                         (map msg_id to_compact)
                         (MemoryOps.update_compressed_summary summary
                            (memory w1)))).
Proof.
  intros [ Hempty | Hne Hs | sys tc tk w1 e Hs Ht | sys tc tk w1 e Hs Ht Hf
         | sys tc tk w1 prompt Hs Ht Hf Hle
         | sys tc tk w1 prompt Hs Ht Hf Hlt Hmm
         | sys tc tk w1 prompt mm mm1 e Hs Ht Hf Hlt Hmm Ha
         | sys tc tk w1 prompt mm mm1 mm2 e Hs Ht Hf Hlt Hmm Ha Hc
         | sys tc tk w1 prompt mm mm1 mm2 summary Hs Ht Hf Hlt Hmm Ha Hc ];
    try (now left);
    right; eexists sys, tc, tk, w1, _; (split; [exact Hs|]);
    (split; [exact Ht|]); (split; [reflexivity|]);
    first [ left; reflexivity | right; eexists; reflexivity ].
Qed.

Lemma logged_memory w (r : result unit) : memory (logged w r) = memory w.
Proof.
  unfold logged. destruct r as [[]|e]; [reflexivity|].
  now destruct (is_Exception e).
Qed.

Lemma logged_msgs_created w (r : result unit) :
  msgs_created (logged w r) = msgs_created w.
Proof.
  unfold logged. destruct r as [[]|e]; [reflexivity|].
  now destruct (is_Exception e).
Qed.

(** X12.  The hook never removes, adds or reorders a stored message, and
    never creates one: after a call, the store holds the same messages in
    the same order, each with its id, name and role, and with its content
    if that is a string (a list content may have had tool results
    truncated); the marks of a message are as before or have [COMPRESSED]
    appended, and no mark is ever removed. *)
Theorem hook_keeps_store (self : MemoryCompactionHook) (kwargs : dict) w :
  let w' := fst (MemoryCompactionHook_call self kwargs w) in
  map (fun e => msg_frame (fst e)) (content (memory w'))
  = map (fun e => msg_frame (fst e)) (content (memory w))
  /\ Forall2 marks_grown (map snd (content (memory w)))
                         (map snd (content (memory w')))
  /\ msgs_created w' = msgs_created w.
Proof.
  intros w'. destruct (hook_call_logged self kwargs w) as (wb & r & Hrun & Hw').
  fold w' in Hw'. clearbody w'. subst w'.
  rewrite logged_memory, logged_msgs_created.
  assert (Hcreated : msgs_created wb = msgs_created w).
  { destruct Hrun; try reflexivity;
      match goal with
      | Ht : truncate_kept _ _ _ _ = _, Hs : split_messages _ _ = _ |- _ =>
          destruct (split_messages_Some _ _ _ _ _ Hs) as (_ & _ & Hall & _);
          destruct (truncate_kept_store _ _ _ _ _ _ Ht Hall) as (_ & _ & Hc & _);
          exact Hc
      end. }
  destruct (hook_run_memory self w wb r Hrun)
    as [-> | (sys & tc & tk & w1 & r1 & Hs & Ht & _ & Hmem)].
  - split; [reflexivity|]. split; [apply marks_grown_refl | assumption].
  - destruct (split_messages_Some _ _ _ _ _ Hs) as (_ & _ & Hall & _).
    destruct (truncate_kept_store _ _ _ _ _ _ Ht Hall) as (Hfr & Hmk & _ & _).
    destruct Hmem as [-> | (summary & ->)].
    + split; [assumption|]. split; [|assumption].
      rewrite Hmk. apply marks_grown_refl.
    + destruct (update_messages_mark_store (map msg_id tc)
                  (MemoryOps.update_compressed_summary summary (memory w1)))
        as (Hfst & Hgrown & _).
      cbv zeta in Hfst, Hgrown. cbn [MemoryOps.update_compressed_summary content]
        in Hfst, Hgrown.
      split; [|split; [|assumption]].
      * rewrite <- Hfr. rewrite <- !(map_map fst msg_frame). now rewrite Hfst.
      * now rewrite <- Hmk.
Qed.

Ltac hook_cases Hrun :=
  destruct Hrun as
    [ Hempty | Hne Hs | sys0 tc0 tk0 wt e0 Hs Ht | sys0 tc0 tk0 wt e0 Hs Ht Hf
    | sys0 tc0 tk0 wt prompt0 Hs Ht Hf Hle
    | sys0 tc0 tk0 wt prompt0 Hs Ht Hf Hlt Hmm
    | sys0 tc0 tk0 wt prompt0 mm0 mm10 e0 Hs Ht Hf Hlt Hmm Ha
    | sys0 tc0 tk0 wt prompt0 mm0 mm10 mm20 e0 Hs Ht Hf Hlt Hmm Ha Hc
    | sys0 tc0 tk0 wt prompt0 mm0 mm10 mm20 summary0 Hs Ht Hf Hlt Hmm Ha Hc ].

(** X13.  A value of [DEFAULT_COMPACT_TOOL_RESULT_MAX_LENGTH] that is not an
    integer switches compaction off: whenever the hook has recent messages
    to keep, [int] raises before any of them is touched, the hook logs that
    exception and returns, and the memory and the memory manager are as
    before, with no call made to the formatter or the memory manager. *)
Theorem hook_with_malformed_max_length (self : MemoryCompactionHook)
    (kwargs : dict) w (s : string) (e : exn) (sys to_compact to_keep : list Msg) :
  environ_get "DEFAULT_COMPACT_TOOL_RESULT_MAX_LENGTH" = Some s ->
  int_of_str s = Raise e ->
  split_messages self (MemoryOps.get_memory COMPRESSED (memory w))
  = Some (sys, to_compact, to_keep) ->
  to_keep <> [] ->
  MemoryCompactionHook_call self kwargs w
  = (with_call (EvLogError e) w, Ok None).
Proof.
  intros Henv Hint Hs' Hne'.
  destruct (split_messages_Some _ _ _ _ _ Hs') as (_ & _ & Hall & _).
  assert (Htr : _truncate_tool_result_texts to_keep = (to_keep, Some e)).
  { unfold _truncate_tool_result_texts, default_max_length.
    now rewrite Henv, Hint. }
  assert (Hk : truncate_kept sys to_compact to_keep w = (w, Raise e)).
  { unfold truncate_kept. destruct to_keep as [|m tk]; [congruence|].
    rewrite Htr. cbv [bind get_world set_memory modify raise].
    rewrite <- Hall, write_back_same, memory_eta, with_memory_same.
    reflexivity. }
  destruct (hook_call_cases self kwargs w) as (wb & r & Hrun & ->).
  hook_cases Hrun.
  1:{ rewrite Hempty in Hall. destruct sys, to_compact, to_keep; cbn in Hall;
        congruence. }
  1:{ congruence. }
  all: rewrite Hs' in Hs; injection Hs as <- <- <-.
  all: rewrite Hk in Ht; try discriminate Ht.
  injection Ht as <- <-. unfold logged, hook_result.
  now rewrite (int_of_str_Exception _ _ Hint).
Qed.

(** X14.  The hook truncates the tool results of the messages it keeps
    before it looks at the threshold: when truncating them does not raise
    and the estimate for the messages to compact does not exceed the
    threshold, nothing is summarized or marked, the only call made is the
    one to the formatter and the hook returns [None], and yet the kept
    messages of the memory are the truncated ones. *)
Theorem hook_truncates_kept_below_threshold (self : MemoryCompactionHook)
    (kwargs : dict) w (sys to_compact to_keep : list Msg) (prompt : list dict)
    (estimated_tokens : Z) :
  split_messages self (MemoryOps.get_memory COMPRESSED (memory w))
  = Some (sys, to_compact, to_keep) ->
  to_keep <> [] ->
  snd (_truncate_tool_result_texts to_keep) = None ->
  formatter_format to_compact = Ok prompt ->
  snd (safe_count_message_tokens prompt w) = Ok estimated_tokens ->
  estimated_tokens <= memory_compact_threshold self ->
  let w' := fst (MemoryCompactionHook_call self kwargs w) in
  MemoryOps.get_memory COMPRESSED (memory w')
  = sys ++ to_compact ++ fst (_truncate_tool_result_texts to_keep)
  /\ new_calls w w' = [EvFormat to_compact]
  /\ marks_of (memory w') = marks_of (memory w)
  /\ _compressed_summary (memory w') = _compressed_summary (memory w)
  /\ memory_manager w' = memory_manager w
  /\ snd (MemoryCompactionHook_call self kwargs w) = Ok None.
Proof.
  intros Hs' Hne' Htr Hf' Hest Hle' w'.
  rewrite safe_count_message_tokens_run in Hest. injection Hest as <-.
  destruct (split_messages_Some _ _ _ _ _ Hs') as (_ & _ & Hall & _).
  subst w'.
  destruct (hook_call_cases self kwargs w) as (wb & r & Hrun & ->).
  cbn [fst snd].
  hook_cases Hrun.
  1:{ rewrite Hempty in Hall. destruct sys, to_compact, to_keep; cbn in Hall;
        congruence. }
  1:{ congruence. }
  all: rewrite Hs' in Hs; injection Hs as <- <- <-.
  all: pose proof (truncate_kept_result sys to_compact to_keep w) as Hres;
    rewrite Ht in Hres; cbn [snd] in Hres; rewrite Htr in Hres.
  all: try (destruct to_keep; discriminate Hres).
  all: try congruence.
  all: assert (prompt0 = prompt) by congruence; subst prompt0.
  all: frame_of Ht; rewrite Hcounter in *; try lia.
  destruct (truncate_kept_store _ _ _ _ _ _ Ht Hall) as (_ & _ & _ & Hvis).
  cbn [logged hook_result]. split; [exact Hvis|]. calls_of.
  repeat split; [now apply Hmarks | assumption | assumption].
Qed.

(** ** After a compaction *)

(** Marking messages [COMPRESSED] hides them, and only them. *)
Lemma get_memory_update_marks (ids : list string) (m : Memory) :
  MemoryOps.get_memory COMPRESSED
    (fst (MemoryOps.update_messages_mark COMPRESSED ids m))
  = List.filter (fun msg => negb (MemoryOps.id_in ids msg))
                (MemoryOps.get_memory COMPRESSED m).
Proof.
  unfold MemoryOps.get_memory. cbn [fst MemoryOps.update_messages_mark content].
  induction (content m) as [|e rest IH]; [reflexivity|].
  cbn [map List.filter].
  destruct (MemoryOps.has_mark COMPRESSED (snd e)) eqn:Hm.
  - assert (He : MemoryOps.mark_entry COMPRESSED ids e = e)
      by (unfold MemoryOps.mark_entry; now rewrite Hm, andb_false_r).
    rewrite He, Hm. cbn [negb]. exact IH.
  - destruct (MemoryOps.id_in ids (fst e)) eqn:Hid.
    + assert (He : MemoryOps.mark_entry COMPRESSED ids e
                   = (fst e, snd e ++ [COMPRESSED]))
        by (unfold MemoryOps.mark_entry; now rewrite Hm, Hid).
      rewrite He. cbn [snd]. rewrite has_mark_app_same.
      cbn [negb map List.filter]. rewrite Hid. cbn [negb]. exact IH.
    + assert (He : MemoryOps.mark_entry COMPRESSED ids e = e)
        by (unfold MemoryOps.mark_entry; now rewrite Hm, Hid).
      rewrite He, Hm. cbn [negb map List.filter]. rewrite Hid. cbn [negb].
      now rewrite IH.
Qed.

Lemma filter_all {A} (p : A -> bool) (l : list A) :
  (forall x, In x l -> p x = true) -> List.filter p l = l.
Proof.
  induction l as [|x l IH]; intros Hp; [reflexivity|]. cbn.
  rewrite (Hp x (or_introl eq_refl)). f_equal. apply IH.
  intros y Hy. apply Hp. now right.
Qed.

Lemma filter_none {A} (p : A -> bool) (l : list A) :
  (forall x, In x l -> p x = false) -> List.filter p l = [].
Proof.
  induction l as [|x l IH]; intros Hp; [reflexivity|]. cbn.
  rewrite (Hp x (or_introl eq_refl)). apply IH.
  intros y Hy. apply Hp. now right.
Qed.

Lemma filter_compacted_out (ids : list string) (to_compact : list Msg) :
  ids = map msg_id to_compact ->
  List.filter (fun msg => negb (MemoryOps.id_in ids msg)) to_compact = [].
Proof.
  intros ->. apply filter_none. intros m Hm. unfold MemoryOps.id_in.
  now rewrite (proj2 (existsb_eqb_In _ _) (in_map msg_id _ _ Hm)).
Qed.

Lemma id_in_ids (ids : list string) (m m' : Msg) :
  msg_id m = msg_id m' -> MemoryOps.id_in ids m = MemoryOps.id_in ids m'.
Proof. unfold MemoryOps.id_in. now intros ->. Qed.

Lemma filter_not_compacted (sys to_compact kept : list Msg) :
  NoDup (map msg_id (sys ++ to_compact ++ kept)) ->
  List.filter (fun msg => negb (MemoryOps.id_in (map msg_id to_compact) msg))
              (sys ++ to_compact ++ kept)
  = sys ++ kept.
Proof.
  intros Hnd. rewrite !List.filter_app, (filter_compacted_out _ _ eq_refl).
  cbn [app]. f_equal; apply filter_all; intros m Hm;
    apply negb_true_iff; unfold MemoryOps.id_in;
    destruct (existsb _ _) eqn:Hex; try reflexivity;
    apply existsb_eqb_In in Hex; exfalso;
    apply (kept_not_compacted sys to_compact kept m Hnd);
    try assumption; apply in_or_app; auto.
Qed.

(** A call of the hook that called [compact_memory], returned and logged no
    error: [compact_memory] returned. *)
Lemma hook_call_compacted (self : MemoryCompactionHook) (kwargs : dict) w
    (msgs : list Msg) (prev : string) :
  let w' := fst (MemoryCompactionHook_call self kwargs w) in
  In (EvCompactMemory msgs prev) (new_calls w w') ->
  snd (MemoryCompactionHook_call self kwargs w) = Ok None ->
  (forall e, ~ In (EvLogError e) (new_calls w w')) ->
  exists sys to_keep w1 summary,
    split_messages self (MemoryOps.get_memory COMPRESSED (memory w))
    = Some (sys, msgs, to_keep)
    /\ truncate_kept sys msgs to_keep w = (w1, Ok tt)
    /\ memory w'
       = fst (MemoryOps.update_messages_mark COMPRESSED (map msg_id msgs)
                (MemoryOps.update_compressed_summary summary (memory w1))).
Proof.
  intros w'. subst w'.
  destruct (hook_call_cases self kwargs w) as (wb & r & Hrun & ->).
  cbn [fst snd]. intros Hin Hret Hno.
  hook_cases Hrun; log_cases; try discriminate Hret; try frame_of Ht;
    revert Hin Hno; calls_of; cbn; intros Hin Hno;
    try solve [exfalso; eapply Hno;
               repeat (first [left; reflexivity | right])];
    repeat destruct Hin as [Hin|Hin]; try discriminate Hin;
    try contradiction.
  injection Hin as <- <-. exists sys0, tk0, wt, summary0. now repeat split.
Qed.

(** X15.  After a call of the hook that summarized, returned and logged no
    error, the system prompt (the leading messages of role [system], up to
    the first message of another role) and the kept suffix are what is left
    uncompressed: the messages of the memory that are not compressed are
    those of the system prompt and of the kept suffix (with their tool
    results truncated, which did not raise) whose id is not the id of a
    compacted message; when the ids of the stored messages are distinct,
    they are exactly the system prompt followed by the kept messages. *)
Theorem hook_compaction_leaves_prompt_and_recent (self : MemoryCompactionHook)
    (kwargs : dict) w (sys to_compact to_keep : list Msg) (prev : string) :
  let w' := fst (MemoryCompactionHook_call self kwargs w) in
  split_messages self (MemoryOps.get_memory COMPRESSED (memory w))
  = Some (sys, to_compact, to_keep) ->
  In (EvCompactMemory to_compact prev) (new_calls w w') ->
  snd (MemoryCompactionHook_call self kwargs w) = Ok None ->
  (forall e, ~ In (EvLogError e) (new_calls w w')) ->
  MemoryOps.get_memory COMPRESSED (memory w) = sys ++ to_compact ++ to_keep
  /\ Forall (fun m => msg_role m = "system") sys
  /\ (forall m rest, to_compact ++ to_keep = m :: rest ->
      msg_role m <> "system")
  /\ (to_keep = [] \/ snd (_truncate_tool_result_texts to_keep) = None)
  /\ MemoryOps.get_memory COMPRESSED (memory w')
     = List.filter
         (fun msg => negb (MemoryOps.id_in (map msg_id to_compact) msg))
         (sys ++ fst (_truncate_tool_result_texts to_keep))
  /\ (NoDup (map fst (marks_of (memory w))) ->
      MemoryOps.get_memory COMPRESSED (memory w')
      = sys ++ fst (_truncate_tool_result_texts to_keep)).
Proof.
  intros w' Hs' Hin Hret Hno.
  destruct (hook_call_compacted self kwargs w to_compact prev Hin Hret Hno)
    as (sys1 & tk1 & w1 & summary & Hs & Ht & Hmem).
  fold w' in Hmem. rewrite Hs' in Hs. injection Hs as <- <-.
  destruct (split_messages_Some _ _ _ _ _ Hs') as (_ & _ & Hall & _).
  destruct (split_messages_roles _ _ _ _ _ Hs') as (Hsys & Hfirst).
  destruct (truncate_kept_store _ _ _ _ _ _ Ht Hall) as (_ & _ & _ & Hvis).
  assert (Hvis' : MemoryOps.get_memory COMPRESSED (memory w')
                  = List.filter
                      (fun msg => negb (MemoryOps.id_in (map msg_id to_compact) msg))
                      (sys ++ to_compact
                       ++ fst (_truncate_tool_result_texts to_keep))).
  { rewrite Hmem, get_memory_update_marks. now rewrite <- Hvis. }
  split; [exact Hall|]. split; [exact Hsys|]. split; [exact Hfirst|].
  split; [|split].
  - pose proof (truncate_kept_result sys to_compact to_keep w) as Hres.
    rewrite Ht in Hres. cbn [snd] in Hres.
    destruct to_keep as [|m tk]; [now left|]. right.
    now destruct (snd (_truncate_tool_result_texts (m :: tk))).
  - rewrite Hvis', !List.filter_app, (filter_compacted_out _ _ eq_refl).
    reflexivity.
  - intros Hnd. rewrite Hvis'. apply filter_not_compacted.
    rewrite !map_app, _truncate_tool_result_texts_ids, <- !map_app, <- Hall.
    now apply visible_ids_NoDup.
Qed.

Lemma system_prefix_app (a rest : list Msg) :
  Forall (fun msg => msg_role msg = "system") a ->
  system_prefix (a ++ rest) = a ++ system_prefix rest.
Proof.
  induction 1 as [|msg a Hr _ IH]; [reflexivity|].
  cbn. rewrite Hr. cbn. now rewrite IH.
Qed.

Lemma length_system_prefix_le (l : list Msg) :
  (length (system_prefix l) <= length l)%nat.
Proof.
  induction l as [|msg l IH]; cbn; [lia|].
  destruct (String.eqb _ _); cbn; lia.
Qed.

Lemma Forall_filter {A} (P : A -> Prop) (p : A -> bool) (l : list A) :
  Forall P l -> Forall P (List.filter p l).
Proof.
  induction 1 as [|x l Hx _ IH]; cbn; [constructor|].
  destruct (p x); [constructor|]; assumption.
Qed.

Lemma length_filter_le {A} (p : A -> bool) (l : list A) :
  (length (List.filter p l) <= length l)%nat.
Proof. induction l as [|x l IH]; cbn; [lia|]. destruct (p x); cbn; lia. Qed.

Lemma new_calls_none w w' : calls w' = calls w -> new_calls w w' = [].
Proof. intros E. unfold new_calls. rewrite E. apply drop_all. Qed.

Lemma new_calls_same w : new_calls w w = [].
Proof. now apply new_calls_none. Qed.

(** X16.  A compaction is not repeated: when [keep_recent] is not negative,
    a call of the hook that follows one that summarized, returned and logged
    no error (so [compact_memory] returned: it neither failed nor was
    cancelled) finds no more than [keep_recent] messages after the system
    prompt and returns [None] at once; it leaves the memory and the memory
    manager as they are and calls neither the formatter nor the memory
    manager (at most it logs the [IndexError] of an empty memory). *)
Theorem hook_after_compaction_idle (self : MemoryCompactionHook)
    (kwargs kwargs' : dict) w (msgs : list Msg) (prev : string) :
  let w' := fst (MemoryCompactionHook_call self kwargs w) in
  let w'' := fst (MemoryCompactionHook_call self kwargs' w') in
  0 <= keep_recent self ->
  In (EvCompactMemory msgs prev) (new_calls w w') ->
  snd (MemoryCompactionHook_call self kwargs w) = Ok None ->
  (forall e, ~ In (EvLogError e) (new_calls w w')) ->
  memory w'' = memory w'
  /\ memory_manager w'' = memory_manager w'
  /\ _token_counter w'' = _token_counter w'
  /\ snd (MemoryCompactionHook_call self kwargs' w') = Ok None
  /\ (new_calls w' w'' = []
      \/ new_calls w' w''
         = [EvLogError (IndexError "list index out of range")]).
Proof.
  intros w' w'' Hkeep Hin Hret Hno.
  destruct (hook_call_compacted self kwargs w msgs prev Hin Hret Hno)
    as (sys & tk & w1 & summary & Hs & Ht & Hmem).
  fold w' in Hmem.
  destruct (split_messages_Some _ _ _ _ _ Hs) as (Hsys & _ & Hall & _ & Hlen).
  destruct (truncate_kept_store _ _ _ _ _ _ Ht Hall) as (_ & _ & _ & Hvis).
  assert (Hvis' : MemoryOps.get_memory COMPRESSED (memory w')
                  = List.filter
                      (fun msg => negb (MemoryOps.id_in (map msg_id msgs) msg))
                      sys
                    ++ List.filter
                         (fun msg => negb (MemoryOps.id_in (map msg_id msgs) msg))
                         (fst (_truncate_tool_result_texts tk))).
  { transitivity
      (List.filter (fun msg => negb (MemoryOps.id_in (map msg_id msgs) msg))
         (sys ++ msgs ++ fst (_truncate_tool_result_texts tk))).
    - rewrite Hmem, get_memory_update_marks. now rewrite <- Hvis.
    - rewrite !List.filter_app, (filter_compacted_out _ _ eq_refl).
      reflexivity. }
  assert (Hnone : split_messages self
                    (MemoryOps.get_memory COMPRESSED (memory w')) = None).
  { apply split_messages_None. rewrite Hvis'.
    set (p := fun msg => negb (MemoryOps.id_in (map msg_id msgs) msg)).
    rewrite system_prefix_app
      by (apply Forall_filter; rewrite Hsys; apply system_prefix_roles).
    rewrite length_app, drop_app_add', length_drop by reflexivity.
    pose proof (length_filter_le p (fst (_truncate_tool_result_texts tk))).
    pose proof (f_equal (@length _) (_truncate_tool_result_texts_ids tk)) as Hl.
    rewrite !length_map in Hl. lia. }
  subst w''.
  destruct (hook_call_cases self kwargs' w') as (wb & r & Hrun & ->).
  cbn [fst snd]. clear Hin Hret Hno Hs Ht Hall Hlen Hvis Hvis' Hmem.
  hook_cases Hrun; try congruence.
  - unfold logged, hook_result. rewrite is_Exception_IndexError.
    repeat split. right. now calls_of.
  - cbn [logged hook_result]. repeat split. left. apply new_calls_same.
Qed.

(** ** The suffix that the hook keeps *)

Lemma keep_length_loop_maximal (fuel : nat) (remaining : list Msg) :
  forall k k' : Z,
    keep_length_loop fuel remaining k < k' <= k ->
    check_valid_messages (slice_from remaining (- k')) = false.
Proof.
  induction fuel as [|fuel IH]; intros k k' Hk; cbn in Hk; [lia|].
  destruct (0 <? k) eqn:Hpos; cbn [andb] in Hk; [|lia].
  destruct (check_valid_messages (slice_from remaining (- k))) eqn:Hv;
    cbn [negb] in Hk; [lia|].
  destruct (Z.eq_dec k' k) as [->|Hne]; [exact Hv|].
  apply (IH (k - 1)). lia.
Qed.

(** X17.  The suffix that the hook keeps is the longest suffix of at most
    [keep_recent] messages that [check_valid_messages] accepts: if any
    message is kept, the kept suffix is valid, and every longer suffix of up
    to [keep_recent] messages is invalid; and with a [keep_recent] of zero
    or less nothing is kept, so everything after the system prompt is to be
    compacted. *)
Theorem split_messages_keeps_longest_valid_suffix (self : MemoryCompactionHook)
    (messages sys to_compact to_keep : list Msg) :
  split_messages self messages = Some (sys, to_compact, to_keep) ->
  (to_keep <> [] -> check_valid_messages to_keep = true)
  /\ (forall k : Z,
        Z.of_nat (length to_keep) < k <= keep_recent self ->
        check_valid_messages (slice_from (to_compact ++ to_keep) (- k)) = false)
  /\ (keep_recent self <= 0 ->
      to_keep = [] /\ to_compact = drop (length sys) messages).
Proof.
  unfold split_messages. rewrite slice_from_of_nat.
  set (remaining := drop (length (system_prefix messages)) messages).
  destruct (Z.leb_spec (Z.of_nat (length remaining)) (keep_recent self))
    as [|Hlen]; [discriminate|].
  pose proof (keep_length_loop_exit remaining (keep_recent self)) as Hexit.
  pose proof (keep_length_loop_maximal (Z.to_nat (keep_recent self)) remaining
                (keep_recent self)) as Hmax.
  pose proof (keep_length_loop_le (Z.to_nat (keep_recent self)) remaining
                (keep_recent self)) as Hle.
  cbv zeta in Hexit.
  set (k := keep_length_loop _ _ _) in *.
  destruct (Z.ltb_spec 0 k) as [Hpos|Hneg]; intros [= <- <- <-].
  - rewrite slice_to_from. cbn [andb] in Hexit.
    apply negb_false_iff in Hexit.
    split; [intros _; exact Hexit|]. split.
    + intros k' Hk'. apply Hmax.
      rewrite length_slice_from_neg in Hk' by assumption. lia.
    + lia.
  - rewrite app_nil_r. split; [congruence|]. split.
    + intros k' Hk'. apply Hmax. cbn in Hk'. lia.
    + intros _. split; reflexivity.
Qed.

(** ** The commands that summarize *)

Lemma handle_command_run (self : CommandHandler) (query : string) w :
  handle_command self query w
  = match handler_of_command (lstrip "/" (strip query)) with
    | Some h =>
        call_handler self h (MemoryOps.get_memory COMPRESSED (memory w)) w
    | None => (w, Raise (RuntimeError ("Unknown command: " +:+ query)))
    end.
Proof.
  unfold handle_command, bind, get_world. rewrite getattr_process_method.
  destruct (handler_of_command _); reflexivity.
Qed.

Lemma _process_compact_add_raises (self : CommandHandler) (messages : list Msg)
    (mm mm1 : MemoryManager) (e : exn) w :
  messages <> [] -> _enable_memory_manager self = true ->
  memory_manager w = Some mm ->
  add_async_summary_task messages mm = (mm1, Raise e) ->
  _process_compact self messages w = (task_added messages mm1 w, Raise e).
Proof.
  intros Hne Hen Hmm Ha. unfold _process_compact.
  destruct messages as [|m ms]; [congruence|].
  cbv [bind _has_memory_manager get_world ret]. rewrite Hen, Hmm. cbn [andb negb].
  rewrite (call_memory_manager_run _ _ _ mm) by assumption.
  now rewrite Ha.
Qed.

Lemma _process_compact_compact_raises (self : CommandHandler)
    (messages : list Msg) (mm mm1 mm2 : MemoryManager) (e : exn) w :
  messages <> [] -> _enable_memory_manager self = true ->
  memory_manager w = Some mm ->
  add_async_summary_task messages mm = (mm1, Ok tt) ->
  compact_memory messages (_compressed_summary (memory w)) mm1
  = (mm2, Raise e) ->
  _process_compact self messages w
  = (compact_called messages (_compressed_summary (memory w)) mm2
       (task_added messages mm1 w),
     Raise e).
Proof.
  intros Hne Hen Hmm Ha Hc. unfold _process_compact.
  destruct messages as [|m ms]; [congruence|].
  cbv [bind _has_memory_manager get_world ret]. rewrite Hen, Hmm. cbn [andb negb].
  rewrite (call_memory_manager_run _ _ _ mm) by assumption.
  rewrite Ha. cbn [fst snd].
  erewrite call_memory_manager_run by reflexivity.
  unfold MemoryOps.get_compressed_summary. cbn [memory with_memory_manager with_call].
  now rewrite Hc.
Qed.

Lemma _process_compact_ok (self : CommandHandler) (messages : list Msg)
    (mm mm1 mm2 : MemoryManager) (summary : string) w :
  messages <> [] -> _enable_memory_manager self = true ->
  memory_manager w = Some mm ->
  add_async_summary_task messages mm = (mm1, Ok tt) ->
  compact_memory messages (_compressed_summary (memory w)) mm1
  = (mm2, Ok summary) ->
  exists msg,
    _process_compact self messages w
    = (with_msg_created
         (compacted messages summary
            (compact_called messages (_compressed_summary (memory w)) mm2
               (task_added messages mm1 w))),
       Ok msg).
Proof.
  intros Hne Hen Hmm Ha Hc. unfold _process_compact.
  destruct messages as [|m ms]; [congruence|].
  cbv [bind _has_memory_manager get_world ret]. rewrite Hen, Hmm. cbn [andb negb].
  rewrite (call_memory_manager_run _ _ _ mm) by assumption.
  rewrite Ha. cbn [fst snd].
  erewrite call_memory_manager_run by reflexivity.
  unfold MemoryOps.get_compressed_summary. cbn [memory with_memory_manager with_call].
  rewrite Hc. cbn [fst snd]. eexists. reflexivity.
Qed.

Lemma filter_own_ids (messages : list Msg) :
  List.filter (fun msg => negb (MemoryOps.id_in (map msg_id messages) msg))
              messages = [].
Proof. now apply filter_compacted_out. Qed.

(** The memory once all its uncompressed messages are marked. *)
Lemma compacted_memory (summary : string) w w1 :
  memory w1 = memory w ->
  let w' := compacted (MemoryOps.get_memory COMPRESSED (memory w)) summary w1 in
  MemoryOps.get_memory COMPRESSED (memory w') = []
  /\ _compressed_summary (memory w') = summary
  /\ map fst (content (memory w')) = map fst (content (memory w))
  /\ Forall2 marks_grown (map snd (content (memory w)))
                         (map snd (content (memory w'))).
Proof.
  intros Hm w'. subst w'. unfold compacted. cbn [memory with_memory]. rewrite Hm.
  destruct (update_messages_mark_store
              (map msg_id (MemoryOps.get_memory COMPRESSED (memory w)))
              (MemoryOps.update_compressed_summary summary (memory w)))
    as (Hfst & Hgrown & Hsum).
  cbv zeta in *. split; [|split; [|split]].
  - rewrite get_memory_update_marks. apply filter_own_ids.
  - exact Hsum.
  - exact Hfst.
  - exact Hgrown.
Qed.

(** [/compact] through [handle_command] when the memory manager succeeds. *)
Lemma handle_compact_ok (self : CommandHandler) (query : string) w
    (mm mm1 mm2 : MemoryManager) (summary : string) :
  let messages := MemoryOps.get_memory COMPRESSED (memory w) in
  let previous := _compressed_summary (memory w) in
  lstrip "/" (strip query) = "compact" ->
  messages <> [] -> _enable_memory_manager self = true ->
  memory_manager w = Some mm ->
  add_async_summary_task messages mm = (mm1, Ok tt) ->
  compact_memory messages previous mm1 = (mm2, Ok summary) ->
  exists msg,
    handle_command self query w
    = (with_msg_created
         (compacted messages summary
            (compact_called messages previous mm2
               (task_added messages mm1 w))),
       Ok msg).
Proof.
  intros messages previous Hq Hne Hen Hmm Ha Hc.
  destruct (_process_compact_ok self messages mm mm1 mm2 summary w
              Hne Hen Hmm Ha Hc) as (msg & Hrun).
  exists msg. rewrite handle_command_run, Hq. exact Hrun.
Qed.

(** X18.  [/compact] with a memory manager whose calls succeed: every
    message of the memory that was not compressed is handed to
    [add_async_summary_task] and then to [compact_memory] with the current
    summary; the result becomes the compressed summary; and all these
    messages are marked, so none is left uncompressed, while the store still
    holds every message. *)
Theorem compact_command_hides_all (self : CommandHandler) (query : string) w
    (mm mm1 mm2 : MemoryManager) (summary : string) :
  let messages := MemoryOps.get_memory COMPRESSED (memory w) in
  let previous := _compressed_summary (memory w) in
  let w' := fst (handle_command self query w) in
  lstrip "/" (strip query) = "compact" ->
  messages <> [] -> _enable_memory_manager self = true ->
  memory_manager w = Some mm ->
  add_async_summary_task messages mm = (mm1, Ok tt) ->
  compact_memory messages previous mm1 = (mm2, Ok summary) ->
  (exists msg, snd (handle_command self query w) = Ok msg)
  /\ new_calls w w'
     = [EvAddAsyncSummaryTask messages; EvCompactMemory messages previous]
  /\ memory_manager w' = Some mm2
  /\ _compressed_summary (memory w') = summary
  /\ MemoryOps.get_memory COMPRESSED (memory w') = []
  /\ map fst (content (memory w')) = map fst (content (memory w)).
Proof.
  intros messages previous w' Hq Hne Hen Hmm Ha Hc.
  destruct (handle_compact_ok self query w mm mm1 mm2 summary
              Hq Hne Hen Hmm Ha Hc) as (msg & Hrun).
  subst w'. rewrite Hrun. cbn [fst snd].
  destruct (compacted_memory summary w
              (compact_called messages previous mm2 (task_added messages mm1 w))
              eq_refl) as (Hvis & Hsum & Hfst & _).
  split; [eauto|]. split; [now calls_of|]. split; [reflexivity|].
  repeat split; assumption.
Qed.

(** X19.  [/compact] is not atomic towards the memory manager, but it is
    towards the memory: when [compact_memory] raises, the exception leaves
    [handle_command], no answer is created, and the memory (summary and
    marks) is untouched, although the summary task has already been added;
    and when [add_async_summary_task] itself raises, [compact_memory] is not
    called. *)
Theorem compact_command_failure (self : CommandHandler) (query : string) w
    (mm mm1 : MemoryManager) :
  let messages := MemoryOps.get_memory COMPRESSED (memory w) in
  let previous := _compressed_summary (memory w) in
  let r := handle_command self query w in
  lstrip "/" (strip query) = "compact" ->
  messages <> [] -> _enable_memory_manager self = true ->
  memory_manager w = Some mm ->
  (forall mm2 e,
     add_async_summary_task messages mm = (mm1, Ok tt) ->
     compact_memory messages previous mm1 = (mm2, Raise e) ->
     snd r = Raise e
     /\ memory (fst r) = memory w
     /\ msgs_created (fst r) = msgs_created w
     /\ memory_manager (fst r) = Some mm2
     /\ new_calls w (fst r)
        = [EvAddAsyncSummaryTask messages; EvCompactMemory messages previous])
  /\ (forall e,
     add_async_summary_task messages mm = (mm1, Raise e) ->
     snd r = Raise e
     /\ memory (fst r) = memory w
     /\ msgs_created (fst r) = msgs_created w
     /\ memory_manager (fst r) = Some mm1
     /\ new_calls w (fst r) = [EvAddAsyncSummaryTask messages]).
Proof.
  intros messages previous r Hq Hne Hen Hmm.
  assert (Hh : r = _process_compact self messages w)
    by (subst r; rewrite handle_command_run, Hq; reflexivity).
  split.
  - intros mm2 e Ha Hc.
    rewrite Hh, (_process_compact_compact_raises self messages mm mm1 mm2 e w)
      by assumption.
    cbn [fst snd]. repeat split. now calls_of.
  - intros e Ha.
    rewrite Hh, (_process_compact_add_raises self messages mm mm1 e w)
      by assumption.
    cbn [fst snd]. repeat split. now calls_of.
Qed.

(** X20.  After a [/compact] that succeeded, a second [/compact] finds no
    message to compact and changes nothing, and [/compact_str] shows the
    summary that [compact_memory] returned (if it is not empty). *)
Theorem after_compact_command (self : CommandHandler) (query query' : string) w
    (mm mm1 mm2 : MemoryManager) (summary : string) :
  let messages := MemoryOps.get_memory COMPRESSED (memory w) in
  let previous := _compressed_summary (memory w) in
  let w' := fst (handle_command self query w) in
  lstrip "/" (strip query) = "compact" ->
  messages <> [] -> _enable_memory_manager self = true ->
  memory_manager w = Some mm ->
  add_async_summary_task messages mm = (mm1, Ok tt) ->
  compact_memory messages previous mm1 = (mm2, Ok summary) ->
  (lstrip "/" (strip query') = "compact" ->
   exists msg,
     handle_command self query' w' = (with_msg_created w', Ok msg)
     /\ msg_text msg
        = Some ("**No messages to compact.**" +:+ nl +:+ nl
                +:+ "- Current memory is empty" +:+ nl
                +:+ "- No action taken"))
  /\ (lstrip "/" (strip query') = "compact_str" -> summary <> EmptyString ->
      exists msg,
        handle_command self query' w' = (with_msg_created w', Ok msg)
        /\ msg_text msg
           = Some ("**Compressed Summary**" +:+ nl +:+ nl +:+ summary)).
Proof.
  intros messages previous w' Hq Hne Hen Hmm Ha Hc.
  destruct (handle_compact_ok self query w mm mm1 mm2 summary
              Hq Hne Hen Hmm Ha Hc) as (msg & Hrun).
  destruct (compacted_memory summary w
              (compact_called messages previous mm2 (task_added messages mm1 w))
              eq_refl) as (Hvis & Hsum & _ & _).
  assert (Hvis' : MemoryOps.get_memory COMPRESSED (memory w') = [])
    by (subst w'; rewrite Hrun; exact Hvis).
  assert (Hsum' : _compressed_summary (memory w') = summary)
    by (subst w'; rewrite Hrun; exact Hsum).
  clearbody w'. split.
  - intros Hq'. rewrite handle_command_run, Hq'.
    change (handler_of_command "compact") with (Some Process_compact).
    cbn [call_handler]. rewrite Hvis'. eexists. split; reflexivity.
  - intros Hq' Hs. rewrite handle_command_run, Hq'.
    change (handler_of_command "compact_str") with (Some Process_compact_str).
    cbv [call_handler _process_compact_str bind get_world
         MemoryOps.get_compressed_summary].
    rewrite Hsum'. destruct (String.eqb_spec summary EmptyString);
      [contradiction|].
    eexists. split; reflexivity.
Qed.

Lemma _process_new_ok (self : CommandHandler) (messages : list Msg)
    (mm mm1 : MemoryManager) w :
  messages <> [] -> _enable_memory_manager self = true ->
  memory_manager w = Some mm ->
  add_async_summary_task messages mm = (mm1, Ok tt) ->
  exists msg,
    _process_new self messages w
    = (with_msg_created
         (compacted messages EmptyString (task_added messages mm1 w)),
       Ok msg).
Proof.
  intros Hne Hen Hmm Ha. unfold _process_new.
  destruct messages as [|m ms]; [congruence|].
  cbv [bind _has_memory_manager get_world ret]. rewrite Hen, Hmm. cbn [andb negb].
  rewrite (call_memory_manager_run _ _ _ mm) by assumption.
  rewrite Ha. cbn [fst snd]. eexists. reflexivity.
Qed.

(** X21.  [/new]: on a memory with uncompressed messages and a memory
    manager whose [add_async_summary_task] succeeds, the messages are handed
    to that call only ([compact_memory] is not called), the compressed
    summary becomes empty and every message is marked, so none is left
    uncompressed; on a memory without uncompressed messages the compressed
    summary is emptied as well, whether or not there is a memory manager,
    and nothing is called. *)
Theorem new_command_effects (self : CommandHandler) (query : string) w :
  let messages := MemoryOps.get_memory COMPRESSED (memory w) in
  let w' := fst (handle_command self query w) in
  lstrip "/" (strip query) = "new" ->
  (forall mm mm1,
     messages <> [] -> _enable_memory_manager self = true ->
     memory_manager w = Some mm ->
     add_async_summary_task messages mm = (mm1, Ok tt) ->
     (exists msg, snd (handle_command self query w) = Ok msg)
     /\ new_calls w w' = [EvAddAsyncSummaryTask messages]
     /\ memory_manager w' = Some mm1
     /\ _compressed_summary (memory w') = EmptyString
     /\ MemoryOps.get_memory COMPRESSED (memory w') = []
     /\ map fst (content (memory w')) = map fst (content (memory w)))
  /\ (messages = [] ->
      (exists msg, snd (handle_command self query w) = Ok msg)
      /\ memory w'
         = MemoryOps.update_compressed_summary EmptyString (memory w)
      /\ memory_manager w' = memory_manager w
      /\ new_calls w w' = []).
Proof.
  intros messages w' Hq.
  assert (Hh : handle_command self query w = _process_new self messages w)
    by (rewrite handle_command_run, Hq; reflexivity).
  subst w'. rewrite Hh. split.
  - intros mm mm1 Hne Hen Hmm Ha.
    destruct (_process_new_ok self messages mm mm1 w Hne Hen Hmm Ha)
      as (msg & ->).
    cbn [fst snd].
    destruct (compacted_memory EmptyString w (task_added messages mm1 w)
                eq_refl) as (Hvis & Hsum & Hfst & _).
    split; [eauto|]. split; [now calls_of|]. split; [reflexivity|].
    repeat split; assumption.
  - intros Hnil. rewrite Hnil. cbn. split; [eauto|].
    repeat split. now apply new_calls_none.
Qed.

(** X22.  [/await_summary] never touches the memory; it calls
    [await_summary_tasks] exactly when the memory manager is usable and has
    pending summary tasks, and then its exception, if any, leaves
    [handle_command]; otherwise nothing is called and the memory manager is
    as before. *)
Theorem await_summary_command (self : CommandHandler) (query : string) w :
  let r := handle_command self query w in
  lstrip "/" (strip query) = "await_summary" ->
  memory (fst r) = memory w
  /\ (forall mm,
        _enable_memory_manager self = true -> memory_manager w = Some mm ->
        summary_tasks_len mm <> 0 ->
        new_calls w (fst r) = [EvAwaitSummaryTasks]
        /\ memory_manager (fst r) = Some (fst (await_summary_tasks mm))
        /\ (forall e, snd (await_summary_tasks mm) = Raise e ->
                      snd r = Raise e)
        /\ (forall text, snd (await_summary_tasks mm) = Ok text ->
              exists msg,
                snd r = Ok msg
                /\ msg_text msg
                   = Some ("**Summary Tasks Complete**" +:+ nl +:+ nl
                           +:+ "- Waited for "
                           +:+ str_of_int (summary_tasks_len mm)
                           +:+ " summary task(s)" +:+ nl
                           +:+ "- " +:+ text
                           +:+ "- All tasks have finished")))
  /\ (_enable_memory_manager self = false \/ memory_manager w = None
      \/ (exists mm, memory_manager w = Some mm /\ summary_tasks_len mm = 0) ->
      new_calls w (fst r) = []
      /\ memory_manager (fst r) = memory_manager w
      /\ exists msg, snd r = Ok msg).
Proof.
  intros r Hq.
  assert (Hh : r = _process_await_summary self
                     (MemoryOps.get_memory COMPRESSED (memory w)) w)
    by (subst r; rewrite handle_command_run, Hq; reflexivity).
  clearbody r. subst r. unfold _process_await_summary.
  cbv [bind _has_memory_manager get_world ret].
  destruct (_enable_memory_manager self) eqn:Hen; cbn [andb negb].
  2:{ cbn. split; [reflexivity|]. split; [discriminate|].
      intros _. split; [now apply new_calls_none|]. split; [reflexivity | eauto]. }
  destruct (memory_manager w) as [mm|] eqn:Hmm; cbn [negb].
  2:{ cbn. split; [reflexivity|]. split; [discriminate|].
      intros _. split; [now apply new_calls_none|]. split; [assumption | eauto]. }
  rewrite Hmm. destruct (Z.eqb_spec (summary_tasks_len mm) 0) as [Hz|Hnz].
  - cbn. split; [reflexivity|]. split.
    + intros mm' _ [= <-] Hn. contradiction.
    + intros _. split; [now apply new_calls_none|]. split; [assumption | eauto].
  - rewrite (call_memory_manager_run _ _ _ mm) by assumption.
    destruct (await_summary_tasks mm) as [mm' [text|e]] eqn:Haw; cbn [fst snd].
    + cbn. split; [reflexivity|]. split.
      * intros mm0 _ [= <-] _. rewrite Haw. cbn [fst snd].
        split; [now calls_of|].
        split; [reflexivity|]. split; [discriminate|].
        intros text' [= <-]. eexists. split; reflexivity.
      * intros [Hd|[Hd|(mm0 & [= <-] & Hz)]]; [discriminate.. | contradiction].
    + cbn. split; [reflexivity|]. split.
      * intros mm0 _ [= <-] _. rewrite Haw. cbn [fst snd].
        split; [now calls_of|].
        split; [reflexivity|]. split; [now intros e' [= <-] | discriminate].
      * intros [Hd|[Hd|(mm0 & [= <-] & Hz)]]; [discriminate.. | contradiction].
Qed.

(** ** What a command does to the memory, and what it answers *)

Lemma history_stats_frame (messages : list Msg) w :
  let r := history_stats messages w in
  memory (fst r) = memory w
  /\ memory_manager (fst r) = memory_manager w
  /\ msgs_created (fst r) = msgs_created w
  /\ calls (fst r) = calls w ++ [EvFormat messages]
  /\ (forall e, snd r = Raise e ->
        formatter_format messages = Raise e
        \/ load_config_max_input_length = Raise e).
Proof.
  cbv zeta.
  cbv [history_stats bind get_world call_format emit modify lift ret].
  rewrite safe_count_str_tokens_run. cbn [py_len].
  destruct (tokenizer_count _ _) as [n0|e1];
    (destruct (formatter_format messages) as [prompt|e0] eqn:Hf;
     [ rewrite safe_count_message_tokens_run;
       destruct load_config_max_input_length as [max|e0] eqn:Hc;
       [ destruct (0 <? max) eqn:Hpos;
         [ unfold truediv; destruct (Z.eqb_spec max 0);
           [apply Z.ltb_lt in Hpos; lia|] |] |] |]);
    cbn; repeat split; try discriminate; intros e [= <-]; auto.
Qed.

Lemma _process_history_frame (self : CommandHandler) (messages : list Msg) w :
  let r := _process_history self messages w in
  memory (fst r) = memory w
  /\ memory_manager (fst r) = memory_manager w
  /\ calls (fst r) = calls w ++ [EvFormat messages]
  /\ answers (TokenCounter := TokenCounter) (MemoryManager := MemoryManager)
             self (_process_history self messages)
  /\ (forall e, snd r = Raise e ->
        formatter_format messages = Raise e
        \/ load_config_max_input_length = Raise e).
Proof.
  assert (Hgen : forall w0,
    let r := _process_history self messages w0 in
    memory (fst r) = memory w0
    /\ memory_manager (fst r) = memory_manager w0
    /\ calls (fst r) = calls w0 ++ [EvFormat messages]
    /\ match snd r with
       | Ok msg =>
           is_answer self w0 msg /\ msgs_created (fst r) = S (msgs_created w0)
       | Raise _ => msgs_created (fst r) = msgs_created w0
       end
    /\ (forall e, snd r = Raise e ->
          formatter_format messages = Raise e
          \/ load_config_max_input_length = Raise e)).
  { intros w0. cbv zeta. unfold _process_history, bind.
    destruct (history_stats_frame messages w0) as (Hm & Hmm & Hcr & Hcalls & He).
    destruct (history_stats messages w0) as [w1 [st|e]]; cbn [fst snd] in *.
    - destruct (history_lines_total messages 1 w1)
        as (w2 & lines & -> & _ & Hw2).
      rewrite _make_system_msg_run. cbn [fst snd].
      assert (Hsame : memory w2 = memory w1
                      /\ memory_manager w2 = memory_manager w1
                      /\ msgs_created w2 = msgs_created w1
                      /\ calls w2 = calls w1)
        by (destruct Hw2 as [-> | ->]; repeat split).
      destruct Hsame as (E1 & E2 & E3 & E4).
      cbn [with_msg_created memory memory_manager calls msgs_created].
      split; [congruence|]. split; [congruence|]. split; [congruence|].
      split; [|discriminate]. split; [|congruence].
      unfold is_answer. cbn. rewrite E3, Hcr. repeat split. eauto.
    - do 4 (split; [assumption|]). intros e0 [= <-]. now apply He. }
  cbv zeta. destruct (Hgen w) as (H1 & H2 & H3 & _ & H5).
  repeat split; try assumption.
  intros w0. now destruct (Hgen w0) as (_ & _ & _ & H4 & _).
Qed.

Lemma answers_make (self : CommandHandler) (text : string) :
  answers (TokenCounter := TokenCounter) (MemoryManager := MemoryManager)
          self (_make_system_msg self text).
Proof.
  intros w. rewrite _make_system_msg_run. cbn. unfold is_answer. cbn.
  repeat split. eauto.
Qed.

Lemma answers_raise (self : CommandHandler) (e : exn) :
  answers (TokenCounter := TokenCounter) (MemoryManager := MemoryManager)
          self (raise e).
Proof. intros w. reflexivity. Qed.

Lemma answers_bind {A} (self : CommandHandler)
    (m : @M TokenCounter MemoryManager A)
    (k : A -> @M TokenCounter MemoryManager Msg) :
  keeps_msgs_created m -> (forall a, answers self (k a)) ->
  answers self (bind m k).
Proof.
  intros Hm Hk w. unfold bind. specialize (Hm w).
  destruct (m w) as [w1 [a|e]]; cbn [fst snd] in *; [|assumption].
  specialize (Hk a w1). unfold is_answer in *. rewrite Hm in Hk. exact Hk.
Qed.

Lemma keeps_get_world :
  keeps_msgs_created (TokenCounter := TokenCounter)
                     (MemoryManager := MemoryManager) get_world.
Proof. intros w. reflexivity. Qed.

Lemma keeps_has_memory_manager (self : CommandHandler) :
  keeps_msgs_created (TokenCounter := TokenCounter)
                     (MemoryManager := MemoryManager)
                     (_has_memory_manager self).
Proof. intros w. reflexivity. Qed.

Lemma keeps_call_memory_manager {A} (method : string) (ev : Event)
    (op : MemoryManager -> MemoryManager * result A) :
  keeps_msgs_created (TokenCounter := TokenCounter)
                     (call_memory_manager method ev op).
Proof.
  intros w. destruct (memory_manager w) as [mm|] eqn:Hmm.
  - now rewrite (call_memory_manager_run _ _ _ mm).
  - cbv [call_memory_manager bind get_world raise]. now rewrite Hmm.
Qed.

Lemma keeps_update_compressed_summary (summary : string) :
  keeps_msgs_created (TokenCounter := TokenCounter)
                     (MemoryManager := MemoryManager)
                     (memory_update_compressed_summary summary).
Proof. intros w. reflexivity. Qed.

Lemma keeps_mark_messages_compressed (messages : list Msg) :
  keeps_msgs_created (TokenCounter := TokenCounter)
                     (MemoryManager := MemoryManager)
                     (_mark_messages_compressed messages).
Proof. intros w. reflexivity. Qed.

Lemma keeps_set_memory (m : Memory) :
  keeps_msgs_created (TokenCounter := TokenCounter)
                     (MemoryManager := MemoryManager) (set_memory m).
Proof. intros w. reflexivity. Qed.

Lemma call_handler_answers (self : CommandHandler) (h : Handler)
    (messages : list Msg) :
  answers (TokenCounter := TokenCounter) (MemoryManager := MemoryManager)
          self (call_handler self h messages).
Proof.
  destruct h; cbn [call_handler].
  - unfold _process_compact. destruct messages; [apply answers_make|].
    apply answers_bind; [apply keeps_has_memory_manager|]. intros b.
    destruct (negb b); [apply answers_make|].
    apply answers_bind; [apply keeps_call_memory_manager|]. intros _.
    apply answers_bind; [apply keeps_get_world|]. intros w0.
    apply answers_bind; [apply keeps_call_memory_manager|]. intros summary.
    apply answers_bind; [apply keeps_update_compressed_summary|]. intros _.
    apply answers_bind; [apply keeps_mark_messages_compressed|]. intros n.
    apply answers_make.
  - unfold _process_new. destruct messages.
    + apply answers_bind; [apply keeps_update_compressed_summary|]. intros _.
      apply answers_make.
    + apply answers_bind; [apply keeps_has_memory_manager|]. intros b.
      destruct (negb b); [apply answers_make|].
      apply answers_bind; [apply keeps_call_memory_manager|]. intros _.
      apply answers_bind; [apply keeps_update_compressed_summary|]. intros _.
      apply answers_bind; [apply keeps_mark_messages_compressed|]. intros n.
      apply answers_make.
  - unfold _process_clear.
    apply answers_bind; [apply keeps_get_world|]. intros w0.
    apply answers_bind; [apply keeps_set_memory|]. intros _.
    apply answers_bind; [apply keeps_update_compressed_summary|]. intros _.
    apply answers_make.
  - unfold _process_compact_str.
    apply answers_bind; [apply keeps_get_world|]. intros w0.
    destruct (String.eqb _ _); apply answers_make.
  - intros w. destruct (_process_history_frame self messages w)
      as (_ & _ & _ & Ha & _). apply Ha.
  - unfold _process_await_summary.
    apply answers_bind; [apply keeps_has_memory_manager|]. intros b.
    destruct (negb b); [apply answers_make|].
    apply answers_bind; [apply keeps_get_world|]. intros w0.
    apply answers_bind.
    { intros w1. now destruct (memory_manager w0). }
    intros n. destruct (n =? 0); [apply answers_make|].
    apply answers_bind; [apply keeps_call_memory_manager|]. intros text.
    apply answers_make.
Qed.

(** X23.  Whatever the command, [handle_command] answers with a message of
    the agent with the role [assistant], the next fresh id and a single text
    block, and that message is the only one it creates; when it raises, no
    message has been created. *)
Theorem handle_command_answers (self : CommandHandler) (query : string) w :
  let r := handle_command self query w in
  (forall msg, snd r = Ok msg ->
     msg_id msg = fresh_msg_id (msgs_created w)
     /\ msg_name msg = agent_name self
     /\ msg_role msg = "assistant"
     /\ (exists text, msg_content msg = ContentBlocks [TextBlock text])
     /\ msgs_created (fst r) = S (msgs_created w))
  /\ (forall e, snd r = Raise e -> msgs_created (fst r) = msgs_created w).
Proof.
  cbv zeta. rewrite handle_command_run.
  destruct (handler_of_command _) as [h|].
  - pose proof (call_handler_answers self h
                  (MemoryOps.get_memory COMPRESSED (memory w)) w) as Ha.
    destruct (call_handler self h _ w) as [w' [msg|e]]; cbn [fst snd] in *.
    + split; [|discriminate]. intros msg' [= <-].
      destruct Ha as ((H1 & H2 & H3 & H4) & H5). now repeat split.
    + split; [discriminate|]. now intros e' _.
  - cbn. split; [discriminate|]. reflexivity.
Qed.


Lemma handler_of_command_Some (command : string) (h : Handler) :
  handler_of_command command = Some h ->
  command = match h with
            | Process_compact => "compact"
            | Process_new => "new"
            | Process_clear => "clear"
            | Process_compact_str => "compact_str"
            | Process_history => "history"
            | Process_await_summary => "await_summary"
            end.
Proof.
  unfold handler_of_command.
  repeat match goal with
         | |- context [String.eqb ?a command] =>
             destruct (String.eqb_spec a command); [now intros [= <-]|]
         end.
  discriminate.
Qed.

Lemma marks_only_refl (m m' : Memory) :
  m' = m ->
  map fst (content m') = map fst (content m)
  /\ Forall2 marks_grown (map snd (content m)) (map snd (content m')).
Proof. intros ->. split; [reflexivity | apply marks_grown_refl]. Qed.

Lemma marks_only_summary (summary : string) (m : Memory) :
  let m' := MemoryOps.update_compressed_summary summary m in
  map fst (content m') = map fst (content m)
  /\ Forall2 marks_grown (map snd (content m)) (map snd (content m')).
Proof. cbn. split; [reflexivity | apply marks_grown_refl]. Qed.

Lemma marks_only_compacted (ids : list string) (summary : string) (m : Memory) :
  let m' := fst (MemoryOps.update_messages_mark COMPRESSED ids
                   (MemoryOps.update_compressed_summary summary m)) in
  map fst (content m') = map fst (content m)
  /\ Forall2 marks_grown (map snd (content m)) (map snd (content m')).
Proof.
  destruct (update_messages_mark_store ids
              (MemoryOps.update_compressed_summary summary m)) as (H1 & H2 & _).
  cbv zeta. split; assumption.
Qed.

Lemma _process_compact_memory (self : CommandHandler) (messages : list Msg) w :
  let m' := memory (fst (_process_compact self messages w)) in
  map fst (content m') = map fst (content (memory w))
  /\ Forall2 marks_grown (map snd (content (memory w))) (map snd (content m')).
Proof.
  cbv zeta. destruct messages as [|m ms] eqn:Hms;
    [now apply marks_only_refl|]. rewrite <- Hms.
  assert (Hne : messages <> []) by (rewrite Hms; discriminate).
  clear Hms.
  destruct (_enable_memory_manager self) eqn:Hen.
  2:{ apply marks_only_refl. unfold _process_compact.
      destruct messages; [congruence|].
      cbv [bind _has_memory_manager get_world ret]. now rewrite Hen. }
  destruct (memory_manager w) as [mm|] eqn:Hmm.
  2:{ apply marks_only_refl. unfold _process_compact.
      destruct messages; [congruence|].
      cbv [bind _has_memory_manager get_world ret]. now rewrite Hen, Hmm. }
  destruct (add_async_summary_task messages mm) as [mm1 [[]|e]] eqn:Ha.
  2:{ rewrite (_process_compact_add_raises self messages mm mm1 e w)
        by assumption. now apply marks_only_refl. }
  destruct (compact_memory messages (_compressed_summary (memory w)) mm1)
    as [mm2 [summary|e]] eqn:Hc.
  2:{ rewrite (_process_compact_compact_raises self messages mm mm1 mm2 e w)
        by assumption. now apply marks_only_refl. }
  destruct (_process_compact_ok self messages mm mm1 mm2 summary w
              Hne Hen Hmm Ha Hc) as (msg & ->).
  apply marks_only_compacted.
Qed.

Lemma _process_new_memory (self : CommandHandler) (messages : list Msg) w :
  let m' := memory (fst (_process_new self messages w)) in
  map fst (content m') = map fst (content (memory w))
  /\ Forall2 marks_grown (map snd (content (memory w))) (map snd (content m')).
Proof.
  cbv zeta. destruct messages as [|m ms] eqn:Hms;
    [apply marks_only_summary|]. rewrite <- Hms.
  assert (Hne : messages <> []) by (rewrite Hms; discriminate).
  clear Hms.
  destruct (_enable_memory_manager self) eqn:Hen.
  2:{ apply marks_only_refl. unfold _process_new.
      destruct messages; [congruence|].
      cbv [bind _has_memory_manager get_world ret]. now rewrite Hen. }
  destruct (memory_manager w) as [mm|] eqn:Hmm.
  2:{ apply marks_only_refl. unfold _process_new.
      destruct messages; [congruence|].
      cbv [bind _has_memory_manager get_world ret]. now rewrite Hen, Hmm. }
  destruct (add_async_summary_task messages mm) as [mm1 [[]|e]] eqn:Ha.
  - destruct (_process_new_ok self messages mm mm1 w Hne Hen Hmm Ha)
      as (msg & ->).
    apply marks_only_compacted.
  - apply marks_only_refl. unfold _process_new.
    destruct messages; [congruence|].
    cbv [bind _has_memory_manager get_world ret]. rewrite Hen, Hmm.
    cbn [andb negb]. rewrite (call_memory_manager_run _ _ _ mm) by assumption.
    now rewrite Ha.
Qed.

Lemma _process_await_summary_memory (self : CommandHandler)
    (messages : list Msg) w :
  memory (fst (_process_await_summary self messages w)) = memory w.
Proof.
  unfold _process_await_summary.
  cbv [bind _has_memory_manager get_world ret].
  destruct (_enable_memory_manager self); cbn [andb negb]; [|reflexivity].
  destruct (memory_manager w) as [mm|] eqn:Hmm; cbn [negb]; [|reflexivity].
  rewrite Hmm. destruct (summary_tasks_len mm =? 0); [reflexivity|].
  rewrite (call_memory_manager_run _ _ _ mm) by assumption.
  now destruct (snd (await_summary_tasks mm)).
Qed.

(** X25.  No command but [/clear] removes, replaces or reorders a stored
    message or takes a mark away: after any other command the store holds
    the same messages in the same order, and the marks of each are as before
    or have [COMPRESSED] appended; and apart from [/clear], [/compact] and
    [/new], a command (known or not) leaves the whole memory, summary
    included, as it is. *)
Theorem handle_command_keeps_messages (self : CommandHandler) (query : string)
    w :
  let command := lstrip "/" (strip query) in
  let w' := fst (handle_command self query w) in
  (command <> "clear" ->
   map fst (content (memory w')) = map fst (content (memory w))
   /\ Forall2 marks_grown (map snd (content (memory w)))
                          (map snd (content (memory w'))))
  /\ (command <> "clear" -> command <> "compact" -> command <> "new" ->
      memory w' = memory w).
Proof.
  intros command w'. subst w'. rewrite handle_command_run. fold command.
  destruct (handler_of_command command) as [h|] eqn:Hh.
  2:{ split; [intros _; now apply marks_only_refl | reflexivity]. }
  apply handler_of_command_Some in Hh.
  destruct h; cbn [call_handler]; (split; [intros Hc | intros Hc Hc1 Hc2]);
    try congruence.
  - apply _process_compact_memory.
  - apply _process_new_memory.
  - apply marks_only_refl. unfold _process_compact_str, bind, get_world.
    now destruct (String.eqb _ _).
  - unfold _process_compact_str, bind, get_world.
    now destruct (String.eqb _ _).
  - apply marks_only_refl.
    now destruct (_process_history_frame self
                    (MemoryOps.get_memory COMPRESSED (memory w)) w) as (E & _).
  - now destruct (_process_history_frame self
                    (MemoryOps.get_memory COMPRESSED (memory w)) w) as (E & _).
  - apply marks_only_refl, _process_await_summary_memory.
  - apply _process_await_summary_memory.
Qed.

(** X26.  Whatever [is_command] accepts, [handle_command] dispatches: for a
    query on which [is_command] is true, the lookup of [handle_command]
    finds one of the six [_process_*] methods, so the call is the call of
    that method and the error of an unknown command is not raised by
    [handle_command] itself. *)
Theorem is_command_dispatches (self : CommandHandler) (q : string) w :
  is_command (PyStr q) = true ->
  exists h,
    getattr attributes ("_process_" +:+ lstrip "/" (strip q))
    = Some (ProcessMethod h)
    /\ handle_command self q w
       = call_handler self h (MemoryOps.get_memory COMPRESSED (memory w)) w.
Proof.
  unfold is_command. destruct (startswith q "/"); cbn [negb]; [|discriminate].
  intros Hin. apply bool_decide_eq_true in Hin.
  destruct (handler_of_command (lstrip "/" (strip q))) as [h|] eqn:Hh.
  - exists h. rewrite getattr_process_method, handle_command_run, Hh.
    split; reflexivity.
  - apply handler_of_command_None in Hh. contradiction.
Qed.

(** ** The queries that are commands *)

Lemma append_assoc (a b c : string) : (a +:+ b) +:+ c = a +:+ (b +:+ c).
Proof.
  induction a as [|ch a IH]; [reflexivity|].
  change (String ch ((a +:+ b) +:+ c) = String ch (a +:+ (b +:+ c))).
  now rewrite IH.
Qed.

Lemma lstrip_by_all_space (ws s : string) :
  all_space ws = true ->
  lstrip_by isspace (ws +:+ s) = lstrip_by isspace s.
Proof.
  induction ws as [|c ws IH]; [reflexivity|]. cbn [all_space].
  intros [Hc Hws]%andb_true_iff.
  change (lstrip_by isspace (String c (ws +:+ s)) = lstrip_by isspace s).
  cbn [lstrip_by]. rewrite Hc. now apply IH.
Qed.

Lemma rstrip_by_all_space (ws : string) :
  all_space ws = true -> rstrip_by isspace ws = EmptyString.
Proof.
  induction ws as [|c ws IH]; [reflexivity|]. cbn [all_space].
  intros [Hc Hws]%andb_true_iff. cbn [rstrip_by]. now rewrite (IH Hws), Hc.
Qed.

Lemma rstrip_by_app_space (s ws : string) :
  all_space ws = true ->
  rstrip_by isspace (s +:+ ws) = rstrip_by isspace s.
Proof.
  intros Hws. induction s as [|c s IH]; [now apply rstrip_by_all_space|].
  change (rstrip_by isspace (String c (s +:+ ws))
          = rstrip_by isspace (String c s)).
  cbn [rstrip_by]. now rewrite IH.
Qed.

Lemma rstrip_by_keep (p : ascii -> bool) (a b : string) :
  b <> EmptyString -> rstrip_by p b = b -> rstrip_by p (a +:+ b) = a +:+ b.
Proof.
  intros Hne Hb. induction a as [|c a IH]; [exact Hb|].
  change (rstrip_by p (String c (a +:+ b)) = String c (a +:+ b)).
  cbn [rstrip_by]. rewrite IH.
  destruct (a +:+ b) eqn:E; [|reflexivity].
  destruct a, b; try discriminate E. congruence.
Qed.

Lemma lstrip_slashes (n : nat) (s : string) :
  lstrip "/" (slashes n +:+ s) = lstrip "/" s.
Proof. induction n as [|n IH]; [reflexivity | exact IH]. Qed.

(** What matters of a command name: it starts with a character that is
    neither whitespace nor a slash, and it does not end in whitespace. *)
Lemma command_name_shape (c : string) :
  c ∈ SYSTEM_COMMANDS ->
  c <> EmptyString /\ rstrip_by isspace c = c /\ lstrip "/" c = c
  /\ exists ch rest, c = String ch rest /\ isspace ch = false
                     /\ ch <> "/"%char.
Proof.
  intros Hc. apply in_SYSTEM_COMMANDS in Hc.
  repeat destruct Hc as [Hc|Hc]; subst c;
    (split; [discriminate|]); (split; [reflexivity|]);
    (split; [reflexivity|]); eexists _, _;
    (split; [reflexivity|]); (split; [reflexivity | discriminate]).
Qed.

(** The command of a query made of whitespace, slashes, a command name and
    whitespace is that name. *)
Lemma command_of_padded_query (c ws1 ws2 : string) (n : nat) :
  c ∈ SYSTEM_COMMANDS -> all_space ws1 = true -> all_space ws2 = true ->
  lstrip "/" (strip (ws1 +:+ slashes n +:+ c +:+ ws2)) = c.
Proof.
  intros Hc H1 H2.
  destruct (command_name_shape c Hc) as (Hne & Hr & Hl & ch & rest & E & Hsp & _).
  unfold strip. rewrite (lstrip_by_all_space _ _ H1).
  assert (Hhead : lstrip_by isspace (slashes n +:+ c +:+ ws2)
                  = slashes n +:+ c +:+ ws2).
  { destruct n as [|n]; [|reflexivity].
    rewrite E. change (lstrip_by isspace (String ch (rest +:+ ws2))
                       = String ch (rest +:+ ws2)).
    cbn [lstrip_by]. now rewrite Hsp. }
  rewrite Hhead, <- append_assoc, (rstrip_by_app_space _ _ H2).
  rewrite (rstrip_by_keep _ _ _ Hne Hr). rewrite lstrip_slashes. exact Hl.
Qed.

(** X27.  For a query made of whitespace, [n] slashes, one of the six
    command names and whitespace, [handle_command] runs the command of that
    name, exactly as on the bare name; [is_command] accepts such a query
    only when it has no leading whitespace and at least one slash.  So
    [handle_command] runs queries that [is_command] rejects, such as a bare
    command name or a command after a space. *)
Theorem command_query_tolerance (self : CommandHandler) (c ws1 ws2 : string)
    (n : nat) w :
  c ∈ SYSTEM_COMMANDS -> all_space ws1 = true -> all_space ws2 = true ->
  let query := ws1 +:+ slashes n +:+ c +:+ ws2 in
  handle_command self query w = handle_command self c w
  /\ (exists h,
        handle_command self query w
        = call_handler self h (MemoryOps.get_memory COMPRESSED (memory w)) w)
  /\ (is_command (PyStr query) = true <-> ws1 = EmptyString /\ n <> 0%nat).
Proof.
  intros Hc H1 H2 query.
  pose proof (command_of_padded_query c ws1 ws2 n Hc H1 H2) as Hq.
  pose proof (command_of_padded_query c EmptyString EmptyString 0 Hc
                eq_refl eq_refl) as Hq0.
  cbn [slashes] in Hq0.
  change (EmptyString +:+ EmptyString +:+ c +:+ EmptyString)
    with (c +:+ EmptyString) in Hq0.
  assert (Hc0 : c +:+ EmptyString = c).
  { clear. induction c as [|ch c IH]; [reflexivity|].
    change (String ch (c +:+ EmptyString) = String ch c). now rewrite IH. }
  rewrite Hc0 in Hq0. fold query in Hq.
  assert (Hsome : exists h, handler_of_command c = Some h).
  { destruct (handler_of_command c) as [h|] eqn:Hh; [eauto|].
    apply handler_of_command_None in Hh. contradiction. }
  destruct Hsome as (h & Hh).
  split; [|split].
  - rewrite !handle_command_run, Hq, Hq0, Hh. reflexivity.
  - exists h. rewrite handle_command_run, Hq, Hh. reflexivity.
  - unfold is_command. rewrite Hq.
    rewrite (bool_decide_eq_true_2 _ Hc).
    destruct (command_name_shape c Hc)
      as (_ & _ & _ & ch & rest & E & Hsp & Hsl).
    unfold startswith. subst query.
    destruct ws1 as [|s1 ws1].
    + destruct n as [|n].
      * rewrite E.
        change (EmptyString +:+ slashes 0 +:+ String ch rest +:+ ws2)
          with (String ch (rest +:+ ws2)).
        cbn [String.prefix]. destruct (ascii_dec "/" ch) as [E'|];
          [now destruct Hsl|]. cbn. split; [discriminate|]. now intros [_ []].
      * change (EmptyString +:+ slashes (S n) +:+ c +:+ ws2)
          with (String "/" (slashes n +:+ c +:+ ws2)).
        cbn [String.prefix]. destruct (ascii_dec "/" "/"); [|contradiction].
        assert (Hp : forall s, String.prefix EmptyString s = true)
          by (intros []; reflexivity).
        rewrite Hp. cbn. split; [intros _; split; [reflexivity | discriminate]|reflexivity].
    + change (String s1 ws1 +:+ slashes n +:+ c +:+ ws2)
        with (String s1 (ws1 +:+ slashes n +:+ c +:+ ws2)).
      cbn [String.prefix all_space] in *.
      apply andb_true_iff in H1 as [Hs1 _].
      destruct (ascii_dec "/" s1) as [<-|]; [discriminate Hs1|].
      cbn. split; [discriminate|]. now intros [[=] _].
Qed.

(** ** The count of a tool result *)

Lemma _get_block_tokens_loaded (block ty : pyval) w
    (token_counter : TokenCounter) :
  _token_counter w = Some token_counter ->
  fst (_get_block_tokens block ty w) = w.
Proof.
  intros Hl. destruct (_get_block_tokens_counts block ty w) as [[E|E] _];
    [exact E|]. now rewrite E, (counted_loaded w token_counter).
Qed.

Lemma tool_result_items_loaded (items : list pyval) w
    (token_counter : TokenCounter) :
  _token_counter w = Some token_counter ->
  forall total_tokens total_str,
    fst (tool_result_items items total_tokens total_str w) = w.
Proof.
  intros Hl. induction items as [|item items IH]; intros total_tokens total_str;
    [reflexivity|].
  cbn [tool_result_items]. destruct item as [| | | | |di]; try apply IH.
  unfold bind.
  pose proof (_get_block_tokens_loaded (PyDict di)
                (PyVal.get di "type" (PyStr "unknown")) w token_counter Hl) as Hw.
  destruct (_get_block_tokens (PyDict di) _ w) as [w1 [r|e]];
    cbn [fst] in *; subst w1; [|reflexivity].
  unfold lift. destruct (str_concat total_str (snd r)); [apply IH|reflexivity].
Qed.

(** Shifting the accumulators of the loop over the items. *)
Lemma tool_result_items_shift (items : list pyval) w
    (token_counter : TokenCounter) :
  _token_counter w = Some token_counter ->
  forall n s m t dn ds,
    snd (tool_result_items items n s w) = Ok (m, PyStr t) ->
    snd (tool_result_items items (dn + n) (ds +:+ s) w)
    = Ok (dn + m, PyStr (ds +:+ t)).
Proof.
  intros Hl. induction items as [|item items IH]; intros n s m t dn ds.
  - cbn. now intros [= <- <-].
  - cbn [tool_result_items].
    destruct item as [| | | | |di]; try apply IH.
    unfold bind.
    pose proof (_get_block_tokens_loaded (PyDict di)
                  (PyVal.get di "type" (PyStr "unknown")) w token_counter Hl)
      as Hw.
    destruct (_get_block_tokens (PyDict di) _ w) as [w1 [[k v]|e]];
      cbn [fst snd] in *; subst w1; [|discriminate].
    unfold lift. destruct v as [| | |x| |]; cbn [str_concat]; try discriminate.
    intros Hrest. rewrite append_assoc, <- Z.add_assoc. now apply IH.
Qed.

Lemma tool_result_items_app (a b : list pyval) w (token_counter : TokenCounter) :
  _token_counter w = Some token_counter ->
  forall n s m t,
    snd (tool_result_items a n s w) = Ok (m, PyStr t) ->
    tool_result_items (a ++ b) n s w = tool_result_items b m t w.
Proof.
  intros Hl. induction a as [|item a IH]; intros n s m t.
  - cbn. now intros [= <- <-].
  - cbn [tool_result_items app].
    destruct item as [| | | | |di]; try apply IH.
    unfold bind.
    pose proof (_get_block_tokens_loaded (PyDict di)
                  (PyVal.get di "type" (PyStr "unknown")) w token_counter Hl)
      as Hw.
    destruct (_get_block_tokens (PyDict di) _ w) as [w1 [[k v]|e]];
      cbn [fst snd] in *; subst w1; [|discriminate].
    unfold lift. destruct (str_concat s v); [apply IH | discriminate].
Qed.

(** X28.  The count of a tool result is additive over the items of its
    [output]: once the token counter is loaded, if a tool result with the
    items [items1] counts [n1] tokens for the text [s1] and one with the
    items [items2] counts [n2] tokens for [s2], then a tool result with the
    items [items1 ++ items2] counts [n1 + n2] tokens for [s1 + s2]; and an
    item that is not a dictionary counts for nothing. *)
Theorem tool_result_tokens_additive (d1 d2 d : dict) (items1 items2 : list pyval)
    (n1 n2 : Z) (s1 s2 : string) w (token_counter : TokenCounter) :
  _token_counter w = Some token_counter ->
  PyVal.lookup d1 "output" = Some (PyList items1) ->
  PyVal.lookup d2 "output" = Some (PyList items2) ->
  PyVal.lookup d "output" = Some (PyList (items1 ++ items2)) ->
  _get_block_tokens (PyDict d1) (PyStr "tool_result") w
  = (w, Ok (n1, PyStr s1)) ->
  _get_block_tokens (PyDict d2) (PyStr "tool_result") w
  = (w, Ok (n2, PyStr s2)) ->
  _get_block_tokens (PyDict d) (PyStr "tool_result") w
  = (w, Ok (n1 + n2, PyStr (s1 +:+ s2)))
  /\ (forall item d', (forall di, item <> PyDict di) ->
        PyVal.lookup d' "output" = Some (PyList (item :: items1)) ->
        _get_block_tokens (PyDict d') (PyStr "tool_result") w
        = (w, Ok (n1, PyStr s1))).
Proof.
  intros Hl Ho1 Ho2 Ho. rewrite !_get_block_tokens_tool_result, Ho1, Ho2, Ho.
  intros H1 H2. split.
  - rewrite (tool_result_items_app items1 items2 w token_counter Hl
               0 EmptyString n1 s1) by now rewrite H1.
    pose proof (tool_result_items_shift items2 w token_counter Hl
                  0 EmptyString n2 s2 n1 s1) as Hs.
    rewrite H2 in Hs. specialize (Hs eq_refl).
    pose proof (tool_result_items_loaded items2 w token_counter Hl
                  (n1 + 0) (s1 +:+ EmptyString)) as Hw.
    destruct (tool_result_items items2 (n1 + 0) (s1 +:+ EmptyString) w)
      as [w' r] eqn:E. cbn [fst snd] in *. subst w'.
    rewrite Z.add_0_r in E. 
    assert (Hs1 : s1 +:+ EmptyString = s1).
    { clear. induction s1 as [|ch s1 IH]; [reflexivity|].
      change (String ch (s1 +:+ EmptyString) = String ch s1). now rewrite IH. }
    rewrite Hs1 in E. rewrite E. now rewrite Hs.
  - intros item d' Hnd Ho'. rewrite _get_block_tokens_tool_result, Ho'.
    cbn [tool_result_items]. destruct item; try exact H1.
    now destruct (Hnd d0).
Qed.

End Properties.

(** * The properties on the concrete host *)

Import Demo.

(** The string and list operations on concrete values. *)
Example strip_examples :
  strip ("  /compact " +:+ nl) = "/compact"
  /\ lstrip "/" "//new" = "new"
  /\ lstrip "/" (strip " / new ") = " new"
  /\ startswith " /new" "/" = false.
Proof. repeat split; vm_compute; reflexivity. Qed.

Example slice_examples :
  slice_from [1; 2; 3; 4] (-2) = [3; 4]
  /\ slice_to [1; 2; 3; 4] (-2) = [1; 2]
  /\ slice_from [1; 2] (-5) = [1; 2]
  /\ slice_to [1; 2] (-5) = []
  /\ slice_from [1; 2; 3] 1 = [2; 3].
Proof. repeat split; reflexivity. Qed.

(** The text extracted from a prompt with a string content, a list content
    and a content that is [None]. *)
Example extract_text_example :
  _extract_text_from_messages
    [ [("role", PyStr "user"); ("content", PyStr "hello")];
      [("role", PyStr "assistant");
       ("content", PyList [PyDict [("type", PyStr "text"); ("text", PyStr "hi")];
                           PyDict [("type", PyStr "tool_use");
                                   ("input", PyDict [])];
                           PyStr "raw"])];
      [("role", PyStr "tool"); ("content", PyNone)] ]
  = "hello" +:+ nl +:+ "hi" +:+ nl +:+ "raw".
Proof. vm_compute. reflexivity. Qed.

(** The counts of a tool result with a text, an image and a stray string,
    when every count falls back to a quarter of the length. *)
Example block_tokens_example :
  snd (_get_block_tokens
         (PyDict [("type", PyStr "tool_result");
                  ("output",
                   PyList [PyDict [("type", PyStr "text");
                                   ("text", PyStr "abcdefgh")];
                           PyDict [("type", PyStr "image");
                                   ("source",
                                    PyDict [("type", PyStr "base64");
                                            ("data", PyStr "AAAAAAAA")])];
                           PyStr "stray"])])
         (PyStr "tool_result") w_two)
  = Ok (4, PyStr "abcdefgh[base64]").
Proof. vm_compute. reflexivity. Qed.

(** [/new] with a memory manager: both messages are marked and the summary
    is empty. *)
Example handle_command_new_run :
  let w' := fst (handle_command (mkCommandHandler "Friday" true) "/new" w_two) in
  marks_of (memory w') = [("a", [COMPRESSED]); ("b", [COMPRESSED])]
  /\ _compressed_summary (memory w') = EmptyString
  /\ calls w' = [EvAddAsyncSummaryTask [user "a" forty; user "b" forty]].
Proof. repeat split; vm_compute; reflexivity. Qed.

(** The hook in the four situations of the counterexamples and witnesses
    below. *)
Example hook_default_run :
  MemoryCompactionHook_call hook_default [] w_two = (w_two, Ok None).
Proof. vm_compute. reflexivity. Qed.

Example hook_keep_one_run :
  new_calls w_two (fst (MemoryCompactionHook_call hook_keep_one [] w_two))
  = [EvFormat [user "a" forty]; EvAddAsyncSummaryTask [user "a" forty];
     EvCompactMemory [user "a" forty] EmptyString]
  /\ marks_of (memory (fst (MemoryCompactionHook_call hook_keep_one [] w_two)))
     = [("a", [COMPRESSED]); ("b", [])].
Proof. split; vm_compute; reflexivity. Qed.

Example hook_empty_memory_run :
  MemoryCompactionHook_call hook_default [] (world [] EmptyString (Some []))
  = (with_call (EvLogError (IndexError "list index out of range"))
       (world [] EmptyString (Some [])),
     Ok None).
Proof. vm_compute. reflexivity. Qed.

Example is_command_examples :
  is_command (PyStr "/compact") = true
  /\ is_command (PyStr "//new  ") = true
  /\ is_command (PyStr " /compact") = false
  /\ is_command (PyStr "/compact now") = false
  /\ is_command (PyStr "compact") = false
  /\ is_command (PyInt 7) = false.
Proof. repeat split; vm_compute; reflexivity. Qed.

Example handle_command_unknown :
  handle_command handler_off "/help" w_two
  = (w_two, Raise (RuntimeError "Unknown command: /help")).
Proof. vm_compute. reflexivity. Qed.








(** The hook on a kept message with a stray block: [get_content_blocks]
    raises, the [TypeError] is logged, and nothing is formatted, summarized
    or marked. *)
Example hook_stray_kept_run :
  MemoryCompactionHook_call hook_keep_one [] w_stray
  = (with_call
       (EvLogError (TypeError "string indices must be integers, not 'str'"))
       w_stray,
     Ok None).
Proof. vm_compute. reflexivity. Qed.

(** C1, counterexample.  Two messages whose estimated token usage is 20,
    above the threshold 5, with the default [keep_recent] of 10: the hook
    returns at once, nothing is summarized and the world is unchanged. *)
Lemma hook_ignores_usage_counterexample :
  estimated_token_usage w_two = Some 20
  /\ memory_compact_threshold hook_default = 5
  /\ Z.of_nat (length (MemoryOps.get_memory COMPRESSED (memory w_two)))
     <= keep_recent hook_default
  /\ MemoryCompactionHook_call hook_default [] w_two = (w_two, Ok None).
Proof. repeat split; vm_compute; first [reflexivity | discriminate]. Qed.

(** C1, witness of the amended claim: after a system prompt, with
    [keep_recent = 1], the first of the two user messages is summarized and
    the system prompt is not. *)
Lemma hook_compaction_trigger_witness :
  let w' := fst (MemoryCompactionHook_call hook_keep_one [] w_prompted) in
  let sys := [system "s0" "You are Friday."] in
  let to_compact := [user "a" forty] in
  let to_keep := [user "b" forty] in
  MemoryOps.get_memory COMPRESSED (memory w_prompted)
  = sys ++ to_compact ++ to_keep
  /\ Forall (fun m => msg_role m = "system") sys
  /\ (forall m rest, to_compact ++ to_keep = m :: rest ->
      msg_role m <> "system")
  /\ snd (MemoryCompactionHook_call hook_keep_one [] w_prompted) = Ok None
  /\ new_calls w_prompted w'
     = [EvFormat to_compact; EvAddAsyncSummaryTask to_compact;
        EvCompactMemory to_compact EmptyString]
  /\ memory_manager w' = Some [to_compact]
  /\ _compressed_summary (memory w') = "summary of 1 after []"
  /\ (forall m, In m to_compact ->
                In (msg_id m) (compressed_ids (memory w'))).
Proof.
  apply (proj1 (proj2 (hook_compaction_trigger hook_keep_one [] w_prompted))
           [system "s0" "You are Friday."] [user "a" forty] [user "b" forty]
           [[("role", PyStr "user"); ("content", PyStr forty)]] 10
           [] [[user "a" forty]] [[user "a" forty]] "summary of 1 after []");
    first [ discriminate | reflexivity | right; reflexivity ].
Defined.

(** The marks after that call. *)
Example hook_prompted_run :
  marks_of (memory (fst (MemoryCompactionHook_call hook_keep_one [] w_prompted)))
  = [("s0", []); ("a", [COMPRESSED]); ("b", [])].
Proof. vm_compute. reflexivity. Qed.

(** C8, counterexample.  A user message, an assistant message and a later
    message of role [system], with [keep_recent = 2]: two messages are not
    system messages, which does not exceed [keep_recent], and yet the hook
    compacts the first one. *)
Lemma hook_compacts_few_non_system_counterexample :
  non_system_count (MemoryOps.get_memory COMPRESSED (memory w_mixed)) = 2
  /\ keep_recent hook_keep_two = 2
  /\ In (EvCompactMemory [user "u1" forty] EmptyString)
        (new_calls w_mixed
           (fst (MemoryCompactionHook_call hook_keep_two [] w_mixed)))
  /\ compressed_ids
       (memory (fst (MemoryCompactionHook_call hook_keep_two [] w_mixed)))
     = ["u1"].
Proof.
  repeat split; try (vm_compute; reflexivity).
  vm_compute. right. right. left. reflexivity.
Qed.

(** C8, witness of the amended claim: the same messages after a system
    prompt; the ids are distinct. *)
Lemma hook_split_partition_witness :
  let w' := fst (MemoryCompactionHook_call hook_keep_two [] w_prompted_mixed) in
  let messages := MemoryOps.get_memory COMPRESSED (memory w_prompted_mixed) in
  let sys := [system "s0" "You are Friday."] in
  let to_compact := [user "u1" forty] in
  let to_keep := [assistant "a1" "one moment"; system "s1" "tool output"] in
  split_messages hook_keep_two messages = Some (sys, to_compact, to_keep)
  /\ NoDup (map fst (marks_of (memory w_prompted_mixed)))
  /\ sys = system_prefix messages
  /\ Forall (fun m => msg_role m = "system") sys
  /\ (forall m rest, to_compact ++ to_keep = m :: rest ->
      msg_role m <> "system")
  /\ to_compact ++ to_keep = drop (length sys) messages
  /\ messages = sys ++ to_compact ++ to_keep
  /\ keep_recent hook_keep_two < Z.of_nat (length (to_compact ++ to_keep))
  /\ Z.of_nat (length to_keep) <= Z.max 0 (keep_recent hook_keep_two)
  /\ (forall msgs prev,
       In (EvCompactMemory msgs prev) (new_calls w_prompted_mixed w') ->
       msgs = to_compact)
  /\ (forall msgs,
       In (EvAddAsyncSummaryTask msgs) (new_calls w_prompted_mixed w') ->
       msgs = to_compact)
  /\ (forall m, In m (sys ++ to_keep) ->
                ~ In (msg_id m) (compressed_ids (memory w')))
  /\ compressed_ids (memory w') = ["u1"].
Proof.
  assert (Hnd : NoDup (map fst (marks_of (memory w_prompted_mixed)))).
  { apply NoDup_ListNoDup. repeat constructor; cbn; intuition discriminate. }
  split; [vm_compute; reflexivity|]. split; [assumption|].
  destruct (proj1 (hook_split_partition hook_keep_two [] w_prompted_mixed)
              [system "s0" "You are Friday."] [user "u1" forty]
              [assistant "a1" "one moment"; system "s1" "tool output"])
    as (H1 & H2 & H3 & H4 & H5 & H6 & H7 & H8 & H9 & H10);
    [vm_compute; reflexivity|].
  repeat (split; [assumption|]). split; [exact (H10 Hnd)|].
  vm_compute. reflexivity.
Defined.

(** C5, witness: the report on the two messages. *)
Lemma process_history_figures_witness :
  let self := handler_off in
  let messages := MemoryOps.get_memory COMPRESSED (memory w_two) in
  let prompt :=
    [[("role", PyStr "user"); ("content", PyStr forty)];
     [("role", PyStr "user"); ("content", PyStr forty)]] in
  let max := 1000 in
  formatter_format messages = Ok prompt
  /\ load_config_max_input_length = Ok max
  /\ exists st w' msg lines,
      snd (history_stats messages w_two) = Ok st
      /\ _process_history self messages w_two = (w', Ok msg)
      /\ msg_text msg
         = Some (history_head messages st +:+ join (nl +:+ nl) lines)
      /\ snd (safe_count_message_tokens prompt w_two) = Ok (messages_tokens st)
      /\ snd (safe_count_str_tokens
                (PyStr (_compressed_summary (memory w_two))) w_two)
         = Ok (compressed_summary_tokens st)
      /\ estimated_tokens st = messages_tokens st + compressed_summary_tokens st
      /\ max_input_length st = max
      /\ (0 < max ->
          exists q, truediv (estimated_tokens st) max = Ok q
                    /\ context_usage_ratio st = NumFloat (float_mul_int q 100))
      /\ (max <= 0 -> context_usage_ratio st = NumInt 0).
Proof.
  split; [reflexivity|]. split; [reflexivity|].
  apply (process_history_figures handler_off
           (MemoryOps.get_memory COMPRESSED (memory w_two))
           [[("role", PyStr "user"); ("content", PyStr forty)];
            [("role", PyStr "user"); ("content", PyStr forty)]]
           1000 w_two); reflexivity.
Defined.

(** The figures of that report. *)
Example history_stats_run_two :
  snd (history_stats (MemoryOps.get_memory COMPRESSED (memory w_two)) w_two)
  = Ok {| compressed_summary_tokens := 0; messages_tokens := 20;
          estimated_tokens := 20; max_input_length := 1000;
          context_usage_ratio := NumFloat (2000, 1000) |}.
Proof. vm_compute. reflexivity. Qed.

(** C9, witness: the three commands with the memory manager switched off. *)
Lemma process_without_manager_witness :
  let self := handler_off in
  let messages := [user "a" forty] in
  let w := w_two in
  snd (_has_memory_manager self w) = Ok false
  /\ messages <> []
  /\ (exists msg,
       _process_compact self messages w = (with_msg_created w, Ok msg)
       /\ msg_text msg
          = Some ("**Memory Manager Disabled**" +:+ nl +:+ nl
                  +:+ "- Memory compaction is not available" +:+ nl
                  +:+ "- Enable memory manager to use this feature"))
  /\ (exists msg,
       _process_new self messages w = (with_msg_created w, Ok msg)
       /\ msg_text msg
          = Some ("**Memory Manager Disabled**" +:+ nl +:+ nl
                  +:+ "- Cannot start new conversation with summary" +:+ nl
                  +:+ "- Enable memory manager to use this feature"))
  /\ (exists msg,
       _process_await_summary self messages w = (with_msg_created w, Ok msg)
       /\ msg_text msg
          = Some ("**Memory Manager Disabled**" +:+ nl +:+ nl
                  +:+ "- Cannot await summary tasks" +:+ nl
                  +:+ "- Enable memory manager to use this feature"))
  /\ memory (with_msg_created w) = memory w
  /\ memory_manager (with_msg_created w) = memory_manager w
  /\ calls (with_msg_created w) = calls w.
Proof.
  split; [reflexivity|]. split; [discriminate|].
  apply (process_without_manager handler_off [user "a" forty] w_two);
    [reflexivity | discriminate].
Defined.

(** * Further properties on the concrete host *)

(** X2, witness: a prompt with a string content and a list content. *)
Lemma extract_text_of_documented_formats_witness :
  _extract_text_from_messages
    [ [("role", PyStr "user"); ("content", PyStr "hello")];
      [("role", PyStr "assistant");
       ("content", PyList [TextBlock "hi"; TextBlock "there"])] ]
  = join nl (concat [["hello"]; ["hi"; "there"]]).
Proof.
  apply (extract_text_of_documented_formats
           [ [("role", PyStr "user"); ("content", PyStr "hello")];
             [("role", PyStr "assistant");
              ("content", PyList [TextBlock "hi"; TextBlock "there"])] ]
           [["hello"]; ["hi"; "there"]]).
  repeat constructor.
  - eexists. split; [reflexivity | constructor].
  - eexists. split; [reflexivity|]. constructor.
    repeat constructor; eexists; (split; [reflexivity|]);
      (split; [reflexivity | discriminate]).
Defined.

(** The text of that prompt. *)
Example extract_text_two_formats :
  _extract_text_from_messages
    [ [("role", PyStr "user"); ("content", PyStr "hello")];
      [("role", PyStr "assistant");
       ("content", PyList [TextBlock "hi"; TextBlock "there"])] ]
  = "hello" +:+ nl +:+ "hi" +:+ nl +:+ "there".
Proof. vm_compute. reflexivity. Qed.


(** That line. *)
Example history_line_stray :
  snd (history_line 1 stray_msg w_two)
  = Ok ("[1] **assistant** (text_tokens=0)" +:+ nl
        +:+ "    preview: <error: 'str' object has no attribute 'get'>").
Proof. vm_compute. reflexivity. Qed.

(** X11, witness: a message with a tool result, with the default maximal
    length. *)
Lemma truncate_tool_result_texts_outputs_witness :
  Forall2 (fun msg msg' =>
             forall blocks, msg_content msg = ContentBlocks blocks ->
               Forall typed_block blocks
               /\ exists blocks',
                    msg_content msg' = ContentBlocks blocks'
                    /\ Forall2 (output_truncated 10000) blocks blocks')
          [tool_msg] (fst (_truncate_tool_result_texts [tool_msg]))
  /\ (environ_get "DEFAULT_COMPACT_TOOL_RESULT_MAX_LENGTH" = None ->
      10000 = 10000)
  /\ (forall s, environ_get "DEFAULT_COMPACT_TOOL_RESULT_MAX_LENGTH" = Some s ->
      int_of_str s = Ok 10000).
Proof.
  apply (truncate_tool_result_texts_outputs [tool_msg] 10000); reflexivity.
Defined.

(** X13, witness: the variable holds [10k]; with one message to keep the
    hook logs the [ValueError] and leaves the world as it is. *)
Section MalformedEnvironment.
#[local] Existing Instance builtins_malformed_env.

Lemma hook_with_malformed_max_length_witness :
  MemoryCompactionHook_call hook_keep_one [] w_two
  = (with_call
       (EvLogError
          (mkExn "ValueError" "invalid literal for int() with base 10: '10k'"))
       w_two,
     Ok None).
Proof.
  apply (hook_with_malformed_max_length hook_keep_one [] w_two "10k"
           (mkExn "ValueError" "invalid literal for int() with base 10: '10k'")
           [] [user "a" forty] [user "b" forty]);
    first [reflexivity | discriminate].
Defined.
End MalformedEnvironment.

(** X14, witness: the message with the tool result is kept; the estimate
    of 10 tokens does not reach the threshold of 100, and the formatter is
    the only call. *)
Lemma hook_truncates_kept_below_threshold_witness :
  let w' := fst (MemoryCompactionHook_call hook_high [] w_tool) in
  MemoryOps.get_memory COMPRESSED (memory w')
  = [] ++ [user "a" forty]
    ++ fst (_truncate_tool_result_texts [tool_msg])
  /\ new_calls w_tool w' = [EvFormat [user "a" forty]]
  /\ marks_of (memory w') = marks_of (memory w_tool)
  /\ _compressed_summary (memory w') = _compressed_summary (memory w_tool)
  /\ memory_manager w' = memory_manager w_tool
  /\ snd (MemoryCompactionHook_call hook_high [] w_tool) = Ok None.
Proof.
  apply (hook_truncates_kept_below_threshold hook_high [] w_tool
           [] [user "a" forty] [tool_msg]
           [[("role", PyStr "user"); ("content", PyStr forty)]] 10);
    first [reflexivity | discriminate].
Defined.

(** X15, witness: after a system prompt, with [keep_recent = 1], the first
    of the two user messages is summarized; the system prompt and the second
    user message are what is left uncompressed. *)
Lemma hook_compaction_leaves_prompt_and_recent_witness :
  let w' := fst (MemoryCompactionHook_call hook_keep_one [] w_prompted) in
  let sys := [system "s0" "You are Friday."] in
  let to_compact := [user "a" forty] in
  let to_keep := [user "b" forty] in
  MemoryOps.get_memory COMPRESSED (memory w_prompted)
  = sys ++ to_compact ++ to_keep
  /\ Forall (fun m => msg_role m = "system") sys
  /\ (forall m rest, to_compact ++ to_keep = m :: rest ->
      msg_role m <> "system")
  /\ (to_keep = [] \/ snd (_truncate_tool_result_texts to_keep) = None)
  /\ MemoryOps.get_memory COMPRESSED (memory w')
     = List.filter
         (fun msg => negb (MemoryOps.id_in (map msg_id to_compact) msg))
         (sys ++ fst (_truncate_tool_result_texts to_keep))
  /\ (NoDup (map fst (marks_of (memory w_prompted))) ->
      MemoryOps.get_memory COMPRESSED (memory w')
      = sys ++ fst (_truncate_tool_result_texts to_keep)).
Proof.
  apply (hook_compaction_leaves_prompt_and_recent hook_keep_one [] w_prompted
           [system "s0" "You are Friday."] [user "a" forty] [user "b" forty]
           EmptyString).
  - reflexivity.
  - vm_compute. right. right. left. reflexivity.
  - reflexivity.
  - intros e Hin. vm_compute in Hin.
    repeat destruct Hin as [Hin|Hin]; try discriminate Hin. exact Hin.
Defined.

(** What is left uncompressed after that call. *)
Example hook_prompted_left :
  MemoryOps.get_memory COMPRESSED
    (memory (fst (MemoryCompactionHook_call hook_keep_one [] w_prompted)))
  = [system "s0" "You are Friday."; user "b" forty].
Proof. vm_compute. reflexivity. Qed.

(** X16, witness: the call after that one does nothing. *)
Lemma hook_after_compaction_idle_witness :
  let w' := fst (MemoryCompactionHook_call hook_keep_one [] w_prompted) in
  let w'' := fst (MemoryCompactionHook_call hook_keep_one [] w') in
  memory w'' = memory w'
  /\ memory_manager w'' = memory_manager w'
  /\ _token_counter w'' = _token_counter w'
  /\ snd (MemoryCompactionHook_call hook_keep_one [] w') = Ok None
  /\ (new_calls w' w'' = []
      \/ new_calls w' w''
         = [EvLogError (IndexError "list index out of range")]).
Proof.
  apply (hook_after_compaction_idle hook_keep_one [] [] w_prompted
           [user "a" forty] EmptyString).
  - vm_compute. discriminate.
  - vm_compute. right. right. left. reflexivity.
  - reflexivity.
  - intros e Hin. vm_compute in Hin.
    repeat destruct Hin as [Hin|Hin]; try discriminate Hin. exact Hin.
Defined.

(** A call that is cancelled in [compact_memory] is not such a call: it has
    called [compact_memory] and logged nothing, but it has not returned, and
    the next call tries again. *)
Example hook_after_cancellation_run :
  let w' := fst (MemoryCompactionHook_call hook_keep_one [] w_cancelled) in
  new_calls w_cancelled w'
  = [EvFormat [user "a" forty]; EvAddAsyncSummaryTask [user "a" forty];
     EvCompactMemory [user "a" forty] EmptyString]
  /\ snd (MemoryCompactionHook_call hook_keep_one [] w_cancelled)
     = Raise (CancelledError EmptyString)
  /\ new_calls w' (fst (MemoryCompactionHook_call hook_keep_one [] w'))
     = [EvFormat [user "a" forty]; EvAddAsyncSummaryTask [user "a" forty];
        EvCompactMemory [user "a" forty] EmptyString].
Proof. repeat split; vm_compute; reflexivity. Qed.

(** X17, witness: when a suffix that starts with an assistant message is
    not valid, only the last of the three messages is kept. *)
Section ValidSuffixes.
#[local] Existing Instance helpers_no_leading_assistant.

Lemma split_messages_keeps_longest_valid_suffix_witness :
  let to_compact := [user "u1" forty; assistant "a1" "one moment"] in
  let to_keep := [system "s1" "tool output"] in
  split_messages hook_keep_two
    (MemoryOps.get_memory COMPRESSED (memory w_mixed))
  = Some ([], to_compact, to_keep)
  /\ (to_keep <> [] -> check_valid_messages to_keep = true)
  /\ (forall k : Z,
        Z.of_nat (length to_keep) < k <= keep_recent hook_keep_two ->
        check_valid_messages (slice_from (to_compact ++ to_keep) (- k)) = false)
  /\ (keep_recent hook_keep_two <= 0 ->
      to_keep = []
      /\ to_compact
         = drop (length (@nil Msg))
                (MemoryOps.get_memory COMPRESSED (memory w_mixed))).
Proof.
  split; [reflexivity|].
  apply (split_messages_keeps_longest_valid_suffix hook_keep_two
           (MemoryOps.get_memory COMPRESSED (memory w_mixed))
           [] [user "u1" forty; assistant "a1" "one moment"]
           [system "s1" "tool output"]).
  reflexivity.
Defined.
End ValidSuffixes.

(** X18, witness: [/compact] on the two messages. *)
Lemma compact_command_hides_all_witness :
  let messages := [user "a" forty; user "b" forty] in
  let w' := fst (handle_command handler_on "/compact" w_two) in
  (exists msg, snd (handle_command handler_on "/compact" w_two) = Ok msg)
  /\ new_calls w_two w'
     = [EvAddAsyncSummaryTask messages; EvCompactMemory messages EmptyString]
  /\ memory_manager w' = Some [messages]
  /\ _compressed_summary (memory w') = "summary of 2 after []"
  /\ MemoryOps.get_memory COMPRESSED (memory w') = []
  /\ map fst (content (memory w')) = map fst (content (memory w_two)).
Proof.
  apply (compact_command_hides_all handler_on "/compact" w_two
           [] [[user "a" forty; user "b" forty]]
           [[user "a" forty; user "b" forty]] "summary of 2 after []");
    first [reflexivity | discriminate].
Defined.

(** X19, witness: [/compact] with a memory manager whose [compact_memory]
    times out. *)
Lemma compact_command_failure_witness :
  let messages := [user "a" forty; user "b" forty] in
  let r := handle_command handler_on "/compact" w_failing in
  snd r = Raise (mkExn "TimeoutError" "the model did not answer")
  /\ memory (fst r) = memory w_failing
  /\ msgs_created (fst r) = msgs_created w_failing
  /\ memory_manager (fst r) = Some 1%nat
  /\ new_calls w_failing (fst r)
     = [EvAddAsyncSummaryTask messages; EvCompactMemory messages EmptyString].
Proof.
  apply (proj1 (compact_command_failure handler_on "/compact" w_failing
                  O 1%nat eq_refl ltac:(discriminate) eq_refl eq_refl)
           1%nat (mkExn "TimeoutError" "the model did not answer"));
    reflexivity.
Defined.

(** X20, witness: a second [/compact], and [/compact_str], after the
    [/compact] on the two messages. *)
Lemma after_compact_command_witness :
  let w' := fst (handle_command handler_on "/compact" w_two) in
  (exists msg,
     handle_command handler_on "//compact " w' = (with_msg_created w', Ok msg)
     /\ msg_text msg
        = Some ("**No messages to compact.**" +:+ nl +:+ nl
                +:+ "- Current memory is empty" +:+ nl
                +:+ "- No action taken"))
  /\ (exists msg,
        handle_command handler_on "/compact_str" w' = (with_msg_created w', Ok msg)
        /\ msg_text msg
           = Some ("**Compressed Summary**" +:+ nl +:+ nl
                   +:+ "summary of 2 after []")).
Proof.
  split.
  - apply (proj1 (after_compact_command handler_on "/compact" "//compact " w_two
                    [] [[user "a" forty; user "b" forty]]
                    [[user "a" forty; user "b" forty]] "summary of 2 after []"
                    eq_refl ltac:(discriminate) eq_refl eq_refl eq_refl eq_refl)).
    reflexivity.
  - apply (proj2 (after_compact_command handler_on "/compact" "/compact_str"
                    w_two
                    [] [[user "a" forty; user "b" forty]]
                    [[user "a" forty; user "b" forty]] "summary of 2 after []"
                    eq_refl ltac:(discriminate) eq_refl eq_refl eq_refl eq_refl));
      [reflexivity | discriminate].
Defined.

(** X21, witness: [/new] on the two messages, and on a memory whose
    messages are all compressed. *)
Lemma new_command_effects_witness :
  let messages := [user "a" forty; user "b" forty] in
  let w' := fst (handle_command handler_on "/new" w_two) in
  let w_old :=
    world [(user "a" forty, [COMPRESSED])] "an old summary" None in
  ((exists msg, snd (handle_command handler_on "/new" w_two) = Ok msg)
   /\ new_calls w_two w' = [EvAddAsyncSummaryTask messages]
   /\ memory_manager w' = Some [messages]
   /\ _compressed_summary (memory w') = EmptyString
   /\ MemoryOps.get_memory COMPRESSED (memory w') = []
   /\ map fst (content (memory w')) = map fst (content (memory w_two)))
  /\ ((exists msg, snd (handle_command handler_off "/new" w_old) = Ok msg)
      /\ memory (fst (handle_command handler_off "/new" w_old))
         = MemoryOps.update_compressed_summary EmptyString (memory w_old)
      /\ memory_manager (fst (handle_command handler_off "/new" w_old))
         = memory_manager w_old
      /\ new_calls w_old (fst (handle_command handler_off "/new" w_old)) = []).
Proof.
  split.
  - apply (proj1 (new_command_effects handler_on "/new" w_two eq_refl)
             [] [[user "a" forty; user "b" forty]]);
      first [reflexivity | discriminate].
  - apply (proj2 (new_command_effects handler_off "/new"
                    (world [(user "a" forty, [COMPRESSED])] "an old summary"
                           None)
                    eq_refl)).
    reflexivity.
Defined.

(** X22, witness: [/await_summary] with one pending task. *)
Lemma await_summary_command_witness :
  let r := handle_command handler_on "/await_summary" w_pending in
  memory (fst r) = memory w_pending
  /\ new_calls w_pending (fst r) = [EvAwaitSummaryTasks]
  /\ memory_manager (fst r) = Some []
  /\ exists msg,
       snd r = Ok msg
       /\ msg_text msg
          = Some ("**Summary Tasks Complete**" +:+ nl +:+ nl
                  +:+ "- Waited for " +:+ str_of_int 1
                  +:+ " summary task(s)" +:+ nl
                  +:+ "- " +:+ "done"
                  +:+ "- All tasks have finished").
Proof.
  destruct (await_summary_command handler_on "/await_summary" w_pending
              eq_refl) as (Hm & Hp & _).
  destruct (Hp [[user "a" forty]] eq_refl eq_refl ltac:(discriminate))
    as (Hc & Hmm & _ & Hok).
  split; [exact Hm|]. split; [exact Hc|]. split; [exact Hmm|].
  apply (Hok "done"). reflexivity.
Defined.


(** X26, witness: a query with two slashes and a trailing newline. *)
Lemma is_command_dispatches_witness :
  exists h,
    getattr attributes
      ("_process_" +:+ lstrip "/" (strip ("//history" +:+ nl)))
    = Some (ProcessMethod h)
    /\ handle_command handler_off ("//history" +:+ nl) w_two
       = call_handler handler_off h
           (MemoryOps.get_memory COMPRESSED (memory w_two)) w_two.
Proof.
  apply (is_command_dispatches handler_off ("//history" +:+ nl) w_two).
  reflexivity.
Defined.

(** X27, witness: [clear] after a space, and followed by a newline:
    [handle_command] clears the memory, and [is_command] says no. *)
Lemma command_query_tolerance_witness :
  let query := " " +:+ slashes 1 +:+ "clear" +:+ nl in
  handle_command handler_off query w_two
  = handle_command handler_off "clear" w_two
  /\ (exists h,
        handle_command handler_off query w_two
        = call_handler handler_off h
            (MemoryOps.get_memory COMPRESSED (memory w_two)) w_two)
  /\ (is_command (PyStr query) = true <-> " " = EmptyString /\ 1%nat <> 0%nat).
Proof.
  apply (command_query_tolerance handler_off "clear" " " nl 1 w_two);
    [|reflexivity|reflexivity].
  apply in_SYSTEM_COMMANDS. right. right. left. reflexivity.
Defined.

(** That query on the concrete host. *)
Example command_after_space :
  is_command (PyStr " /clear") = false
  /\ content (memory (fst (handle_command handler_off " /clear" w_two))) = [].
Proof. split; vm_compute; reflexivity. Qed.

(** X28, witness: with one token per character, [ab] and [cde] count 2 and
    3 tokens, and together 5. *)
Lemma tool_result_tokens_additive_witness :
  _get_block_tokens (PyDict (text_items ["ab"; "cde"])) (PyStr "tool_result")
    w_loaded
  = (w_loaded, Ok (2 + 3, PyStr ("ab" +:+ "cde")))
  /\ (forall item d', (forall di, item <> PyDict di) ->
        PyVal.lookup d' "output" = Some (PyList (item :: map TextBlock ["ab"])) ->
        _get_block_tokens (PyDict d') (PyStr "tool_result") w_loaded
        = (w_loaded, Ok (2, PyStr "ab"))).
Proof.
  apply (tool_result_tokens_additive (text_items ["ab"]) (text_items ["cde"])
           (text_items ["ab"; "cde"]) (map TextBlock ["ab"])
           (map TextBlock ["cde"]) 2 3 "ab" "cde" w_loaded
           "/opt/copaw/tokenizer");
    reflexivity.
Defined.
